(** * BhashaVox AI: session memory, analytics and engine orchestration

    A shallow embedding of [memory.py], [analytics.py], [prompts.py] and
    [ai_engine.py], followed by the properties of the conversation session
    manager.

    Conventions of the embedding:
    - a Python [int] is a [Z];
    - a Python [str] is the list of its Unicode code points ([list N]);
    - a Python [float] is the rational that the binary64 number denotes,
      and every float operation rounds to binary64 ([Py.fl]);
    - [datetime.now()] is read from an explicit clock argument, counted in
      microseconds;
    - an operation that may raise returns a [result]. *)

From Stdlib Require Import List ZArith NArith QArith Qround Qabs Qpower Lia Lqa.
From Stdlib Require Import Bool.
From Stdlib Require Import String Ascii DecimalString.
From Stdlib Require Import Permutation Sorted.
Import ListNotations.

Local Open Scope Z_scope.

(* ================================================================== *)
(** * Part I: the embedding *)
(* ================================================================== *)

(** ** Python primitives used by the sources *)

Module Py.

(** [str]: a sequence of code points. *)
Definition str := list N.

(** An ASCII literal of the sources, as code points. *)
Definition lit (s : string) : str :=
  List.map N_of_ascii (list_ascii_of_string s).

(** ["\n"] *)
Definition newline : str := [10%N].

(** The glyph U+2705 (white heavy check mark), one code point. *)
Definition checkmark : str := [9989%N].

Fixpoint str_eqb (a b : str) : bool :=
  match a, b with
  | [], [] => true
  | x :: a', y :: b' => N.eqb x y && str_eqb a' b'
  | _, _ => false
  end.

(** [s.startswith(p)] *)
Fixpoint startswith (p s : str) : bool :=
  match p, s with
  | [], _ => true
  | _ :: _, [] => false
  | x :: p', y :: s' => N.eqb x y && startswith p' s'
  end.

(** [p in s] on strings: [p] occurs as a contiguous run of [s]. *)
Fixpoint contains (p s : str) : bool :=
  startswith p s ||
  match s with
  | [] => false
  | _ :: s' => contains p s'
  end.

(** [p] is a substring of [s]. *)
Definition occurs (p s : str) : Prop :=
  exists pre suf : str, s = pre ++ p ++ suf.

(** [str.lower()], restricted to the ASCII letters: code points outside
    [A-Z] are left as they are.  The only code points beyond ASCII whose
    Unicode lower-casing yields an ASCII letter are U+0130 (giving [i]
    followed by U+0307) and U+212A (giving [k]); neither can complete an
    occurrence of one of the three level names. *)
Definition lower_cp (c : N) : N :=
  if (N.leb 65 c && N.leb c 90)%bool then (c + 32)%N else c.

Definition lower (s : str) : str := List.map lower_cp s.

(** [str.isspace()] on one code point: the Unicode white space. *)
Definition is_space (c : N) : bool :=
  ((N.leb 9 c && N.leb c 13) || (N.leb 28 c && N.leb c 32)
   || N.eqb c 133 || N.eqb c 160 || N.eqb c 5760
   || (N.leb 8192 c && N.leb c 8202)
   || N.eqb c 8232 || N.eqb c 8233 || N.eqb c 8239
   || N.eqb c 8287 || N.eqb c 12288)%bool.

Fixpoint lstrip (s : str) : str :=
  match s with
  | [] => []
  | c :: s' => if is_space c then lstrip s' else s
  end.

Definition rstrip (s : str) : str := rev (lstrip (rev s)).

(** [s.strip()] *)
Definition strip (s : str) : str := rstrip (lstrip s).

(** [str(n)] for an [int]. *)
Definition str_of_int (n : Z) : str :=
  lit (NilEmpty.string_of_int (Z.to_int n)).

(** Normalisation of a slice bound against a length, as [list[i:]] and
    [list[:i]] do it: a negative bound counts from the end, and the
    result is clipped to [0 .. len]. *)
Definition slice_bound (len i : Z) : Z :=
  if i <? 0 then Z.max (len + i) 0 else Z.min i len.

(** [l[start:]] *)
Definition slice_from {A : Type} (start : Z) (l : list A) : list A :=
  skipn (Z.to_nat (slice_bound (Z.of_nat (List.length l)) start)) l.

(** [l[:stop]] *)
Definition slice_to {A : Type} (stop : Z) (l : list A) : list A :=
  firstn (Z.to_nat (slice_bound (Z.of_nat (List.length l)) stop)) l.

(** [len(l)] *)
Definition len {A : Type} (l : list A) : Z := Z.of_nat (List.length l).

(** Exceptions that the modelled code can meet. *)
Inductive exn : Type :=
| ZeroDivisionError
| ConnectionError (msg : str)     (* requests.exceptions.ConnectionError *)
| Timeout (msg : str)             (* requests.exceptions.Timeout *)
| ConnectTimeout (msg : str)      (* subclass of both of the above *)
| TypeError (msg : str)
| AttributeError (msg : str)
| ValidationError (msg : str)     (* pydantic.ValidationError *)
| OtherException (msg : str).     (* any other subclass of Exception *)

(** [str(e)] *)
Definition str_of_exn (e : exn) : str :=
  match e with
  | ZeroDivisionError => lit "division by zero"
  | ConnectionError m | Timeout m | ConnectTimeout m
  | TypeError m | AttributeError m | ValidationError m
  | OtherException m => m
  end.

Inductive result (A : Type) : Type :=
| Returns (a : A)
| Raises (e : exn).
Arguments Returns {A} a.
Arguments Raises {A} e.

Definition bind {A B : Type} (m : result A) (k : A -> result B) : result B :=
  match m with
  | Returns a => k a
  | Raises e => Raises e
  end.

(** A Python [float] is an IEEE 754 binary64 number.  It is modelled by
    the rational that it denotes, and every operation on floats rounds its
    exact result with [fl]: to the nearest binary64 number, ties to the
    even significand.  Infinities and NaN are not modelled: overflow needs
    a value of size [2^1024], which no float of these sources reaches
    (a quotient is at most the length of a list). *)

(** [2 ^ e] *)
Definition pow2 (e : Z) : Q := (2 ^ e)%Q.

(** The binade of a positive rational: the [k] with
    [2^k <= x < 2^(k+1)]. *)
Definition binade (x : Q) : Z :=
  let l := Z.log2 (Qnum x) - Z.log2 (Zpos (Qden x)) in
  if Qle_bool (pow2 l) x then l else l - 1.

(** The exponent of the last of the 53 bits of the significand with
    which [x] is stored; [-1074] for the subnormal numbers. *)
Definition ulp_exponent (x : Q) : Z := Z.max (binade (Qabs x) - 52) (-1074).

(** Rounding of a rational to the nearest integer, ties to even. *)
Definition round_half_even (x : Q) : Z :=
  let f := Qfloor x in
  let r := (x - inject_Z f)%Q in
  match (r ?= 1 # 2)%Q with
  | Lt => f
  | Gt => f + 1
  | Eq => if Z.even f then f else f + 1
  end.

(** Rounding to binary64. *)
Definition fl (x : Q) : Q :=
  if Qeq_bool x 0 then 0%Q
  else
    let e := ulp_exponent x in
    Qred (inject_Z (round_half_even (x / pow2 e)) * pow2 e).

(** [x * y] on floats. *)
Definition fmul (x y : Q) : Q := fl (x * y).

(** [x / y] on floats, for a divisor that is not zero. *)
Definition fdiv (x y : Q) : Q := fl (x / y).

(** [a / b] on two [int]s: true division, the quotient of the integers
    rounded once. *)
Definition true_div (a b : Z) : result Q :=
  if b =? 0 then Raises ZeroDivisionError
  else Returns (fl (inject_Z a / inject_Z b)).

(** [round(x, 2)] on a float: the decimal with two digits after the
    point that is nearest to the exact value of [x], ties to the even
    digit, and then the float nearest to that decimal. *)
Definition round2 (x : Q) : Q :=
  fl (inject_Z (round_half_even (x * 100)) / 100).

End Py.

Notation "x <- m ;; k" := (Py.bind m (fun x => k))
  (at level 61, m at next level, right associativity).

(** ** memory.py *)

Module Memory.
Import Py.

(** One entry of [history]: the dict [{"role": ..., "message": ...}]. *)
Record entry : Type := mk_entry { role : str; message : str }.

Record ConversationMemory : Type := mk_memory {
  max_history : Z;
  history : list entry;
  user_level : option str;
  session_start : option Z
}.

(** [__init__(self, max_history=10)] *)
Definition init (max_history : Z) : ConversationMemory :=
  mk_memory max_history [] None None.

Definition default_max_history : Z := 10.

Definition set_history (m : ConversationMemory) (h : list entry)
  : ConversationMemory :=
  mk_memory (max_history m) h (user_level m) (session_start m).

Definition add_message (m : ConversationMemory) (role message : str)
  : ConversationMemory :=
  let h := history m ++ [mk_entry role message] in
  if len h >? max_history m * 2
  then set_history m (slice_from (- max_history m * 2) h)
  else set_history m h.

(** A sequence of calls to [add_message], each given as the pair of its
    arguments. *)
Definition add_messages (m : ConversationMemory) (calls : list (str * str))
  : ConversationMemory :=
  fold_left (fun m c => add_message m (fst c) (snd c)) calls m.

(** The entries that a sequence of calls adds. *)
Definition entries_of (calls : list (str * str)) : list entry :=
  map (fun c => mk_entry (fst c) (snd c)) calls.

Definition role_name (e : entry) : str :=
  if str_eqb (role e) (lit "user") then lit "User" else lit "BhashaVox AI".

(** The loop of [get_history_string]: [history_str += ...] per entry. *)
Fixpoint render_loop (acc : str) (h : list entry) : str :=
  match h with
  | [] => acc
  | e :: h' =>
      render_loop (acc ++ (role_name e ++ lit ": " ++ message e ++ newline)) h'
  end.

Definition get_history_string (m : ConversationMemory) : str :=
  match history m with
  | [] => []
  | _ :: _ => render_loop [] (history m)
  end.

(** One Turn as the specification renders it:
    ["<DisplayName>: <text>"]. *)
Definition rendered_turn (e : entry) : str :=
  role_name e ++ lit ": " ++ message e.

(** [sep.join(parts)] *)
Fixpoint join (sep : str) (parts : list str) : str :=
  match parts with
  | [] => []
  | [p] => p
  | p :: rest => p ++ sep ++ join sep rest
  end.

(** The transcript in the specification's words: the rendered Turns,
    joined by newlines. *)
Definition render_history_joined (m : ConversationMemory) : str :=
  join newline (map rendered_turn (history m)).

Definition get_recent_messages (m : ConversationMemory) (n : Z)
  : list entry :=
  match history m with
  | [] => []
  | _ :: _ => slice_from (- n) (history m)
  end.

Definition set_user_level (m : ConversationMemory) (level : str)
  : ConversationMemory :=
  mk_memory (max_history m) (history m) (Some level) (session_start m).

Definition get_user_level (m : ConversationMemory) : option str :=
  user_level m.

Definition clear_history (m : ConversationMemory) : ConversationMemory :=
  set_history m [].

Definition get_conversation_count (m : ConversationMemory) : Z :=
  len (filter (fun e => str_eqb (role e) (lit "user")) (history m)).

End Memory.

(** ** analytics.py *)

Module Analytics.
Import Py.

(** One entry of [mistakes]. *)
Record mistake : Type := mk_mistake {
  timestamp : Z;
  original : str;
  corrected : str;
  category : str
}.

(** [mistake_categories] is a [defaultdict(int)].  A dict iterates in
    the order in which its keys were first inserted, and
    [get_common_mistakes] depends on that order: it is an association
    list, oldest key first. *)
Definition dict := list (str * Z).

Record AnalyticsTracker : Type := mk_tracker {
  mistakes : list mistake;
  corrections_made : Z;
  total_messages : Z;
  mistake_categories : dict;
  session_start : Z
}.

(** [__init__(self)] *)
Definition init (now : Z) : AnalyticsTracker := mk_tracker [] 0 0 [] now.

(** [d[k] += 1] on a [defaultdict(int)]: a missing key starts from [0]
    and is added at the end. *)
Fixpoint dict_incr (k : str) (d : dict) : dict :=
  match d with
  | [] => [(k, 0 + 1)]
  | (k', v) :: d' =>
      if str_eqb k' k then (k', v + 1) :: d' else (k', v) :: dict_incr k d'
  end.

(** [d[k] = v] *)
Fixpoint dict_set (k : str) (v : Z) (d : dict) : dict :=
  match d with
  | [] => [(k, v)]
  | (k', v') :: d' =>
      if str_eqb k' k then (k', v) :: d' else (k', v') :: dict_set k v d'
  end.

(** [dict(pairs)] *)
Definition dict_of_items (pairs : list (str * Z)) : dict :=
  fold_left (fun d kv => dict_set (fst kv) (snd kv) d) pairs [].

(** [d.get(k)] *)
Fixpoint dict_get (k : str) (d : dict) : option Z :=
  match d with
  | [] => None
  | (k', v) :: d' => if str_eqb k' k then Some v else dict_get k d'
  end.

Definition log_mistake (t : AnalyticsTracker) (now : Z)
    (original corrected category : str) : AnalyticsTracker :=
  mk_tracker
    (mistakes t ++ [mk_mistake now original corrected category])
    (corrections_made t + 1)
    (total_messages t)
    (dict_incr category (mistake_categories t))
    (session_start t).

Definition log_message (t : AnalyticsTracker) : AnalyticsTracker :=
  mk_tracker (mistakes t) (corrections_made t) (total_messages t + 1)
    (mistake_categories t) (session_start t).

Definition get_accuracy_rate (t : AnalyticsTracker) : result Q :=
  if total_messages t =? 0 then Returns 100%Q
  else
    let messages_with_mistakes := len (mistakes t) in
    q <- true_div (total_messages t - messages_with_mistakes)
                  (total_messages t) ;;
    let accuracy := fmul q 100 in
    Returns (round2 accuracy).

(** [sorted(items, key=lambda x: x[1], reverse=True)].  Python's sort is
    stable, also under [reverse=True]: items of equal count keep the
    order they had.  The head of the list is inserted in front of the
    first item of the sorted tail whose count is not larger. *)
Fixpoint insert_desc (x : str * Z) (l : list (str * Z)) : list (str * Z) :=
  match l with
  | [] => [x]
  | y :: l' => if snd y <=? snd x then x :: l else y :: insert_desc x l'
  end.

Definition sorted_by_count_desc (items : list (str * Z)) : list (str * Z) :=
  fold_right insert_desc [] items.

Definition default_top_n : Z := 5.

Definition get_common_mistakes (t : AnalyticsTracker) (top_n : Z)
  : list (str * Z) :=
  let sorted_categories := sorted_by_count_desc (mistake_categories t) in
  slice_to top_n sorted_categories.

(** The dict returned by [get_session_summary]. *)
Module Summary.
Record t : Type := mk {
  total_messages : Z;
  corrections_made : Z;
  accuracy_rate : Q;
  session_duration_minutes : Q;
  common_mistakes : dict;
  total_mistake_types : Z
}.
End Summary.

(** [(b - a).total_seconds()] for two clock readings in microseconds:
    the microseconds of the difference divided by [10**6], rounded once. *)
Definition total_seconds (a b : Z) : Q := fl (inject_Z (b - a) / 1000000).

Definition get_session_summary (t : AnalyticsTracker) (now : Z)
  : result Summary.t :=
  let session_duration := fdiv (total_seconds (session_start t) now) 60 in
  accuracy <- get_accuracy_rate t ;;
  Returns (Summary.mk
             (total_messages t)
             (corrections_made t)
             accuracy
             (round2 session_duration)
             (dict_of_items (get_common_mistakes t default_top_n))
             (len (mistake_categories t))).

Definition get_recent_mistakes (t : AnalyticsTracker) (n : Z)
  : list mistake :=
  match mistakes t with
  | [] => []
  | _ :: _ => slice_from (- n) (mistakes t)
  end.

Definition reset_session (t : AnalyticsTracker) (now : Z)
  : AnalyticsTracker :=
  mk_tracker [] 0 0 [] now.

(** The sum of the per-category counts. *)
Definition sum_counts (d : dict) : Z :=
  fold_right (fun kv acc => snd kv + acc) 0 d.

(** The accuracy in the specification's words, without rounding:
    [100 * (total_messages - mistake records) / total_messages]. *)
Definition accuracy_formula (t : AnalyticsTracker) : Q :=
  (100 * inject_Z (total_messages t - len (mistakes t))
   / inject_Z (total_messages t))%Q.

(** The same formula evaluated as the code evaluates it, quotient first,
    each step rounded to binary64. *)
Definition accuracy_binary64 (t : AnalyticsTracker) : Q :=
  fmul (fl (inject_Z (total_messages t - len (mistakes t))
            / inject_Z (total_messages t))) 100.

(** The calls a client can make on a tracker, each with the clock
    reading it observes. *)
Inductive op : Type :=
| LogMessage
| LogMistake (now : Z) (original corrected category : str)
| ResetSession (now : Z).

Definition step (t : AnalyticsTracker) (o : op) : AnalyticsTracker :=
  match o with
  | LogMessage => log_message t
  | LogMistake now o c k => log_mistake t now o c k
  | ResetSession now => reset_session t now
  end.

(** The tracker after a sequence of calls, starting from [__init__]. *)
Definition run (start : Z) (ops : list op) : AnalyticsTracker :=
  fold_left step ops (init start).

(** The order that [get_common_mistakes] sorts by: [a] may stand before
    [b] when its count is not smaller. *)
Definition count_desc (a b : str * Z) : Prop := snd b <= snd a.

(** The items of one given count, in the order of the list. *)
Definition with_count (c : Z) (items : list (str * Z)) : list (str * Z) :=
  filter (fun kv => snd kv =? c) items.

Definition logs_category (c : str) (o : op) : bool :=
  match o with
  | LogMistake _ _ _ k => str_eqb k c
  | _ => false
  end.

(** How many calls of a sequence are [log_mistake] with category [c]. *)
Definition count_category (c : str) (ops : list op) : Z :=
  len (filter (logs_category c) ops).

(** A sequence made only of [log_mistake] calls with the categories
    [a] and [b]. *)
Definition only_mistakes_of (a b : str) (ops : list op) : Prop :=
  Forall (fun o => logs_category a o = true \/ logs_category b o = true) ops.

(** How many records of [mistakes] carry category [c]. *)
Definition recorded (c : str) (ms : list mistake) : Z :=
  len (filter (fun m => str_eqb (category m) c) ms).

(** The categories of the [log_mistake] calls since the last
    [reset_session], in the order of the calls. *)
Definition logged_step (logged : list str) (o : op) : list str :=
  match o with
  | LogMessage => logged
  | LogMistake _ _ _ k => logged ++ [k]
  | ResetSession _ => []
  end.

Definition logged_categories (ops : list op) : list str :=
  fold_left logged_step ops [].

(** The position of the first occurrence of [k] in a list; the length of
    the list when [k] does not occur. *)
Fixpoint first_position (k : str) (l : list str) : nat :=
  match l with
  | [] => O
  | c :: l' => if str_eqb c k then O else S (first_position k l')
  end.

(** [x] stands before [y] in the list. *)
Definition before {A : Type} (x y : A) (l : list A) : Prop :=
  exists l1 l2 l3 : list A, l = l1 ++ x :: l2 ++ y :: l3.

(** What every call preserves of the dict: no key twice, and each key
    with the number of records of [mistakes] that carry it. *)
Definition categories_recorded (t : AnalyticsTracker) : Prop :=
  NoDup (map fst (mistake_categories t)) /\
  forall c : str,
    dict_get c (mistake_categories t)
    = if recorded c (mistakes t) =? 0 then None
      else Some (recorded c (mistakes t)).

(** What every call preserves of the three counters. *)
Definition counters_agree (t : AnalyticsTracker) : Prop :=
  corrections_made t = len (mistakes t) /\
  len (mistakes t) = sum_counts (mistake_categories t) /\
  0 <= total_messages t.

End Analytics.

(** ** prompts.py *)

Module Prompts.
Import Py.

(** The lines of a triple-quoted literal, each closed by a newline. *)
Definition text (lines : list str) : str :=
  flat_map (fun l => l ++ newline) lines.

Definition light_bulb : str := [128161%N].      (* U+1F4A1 *)
Definition speech_balloon : str := [128172%N].  (* U+1F4AC *)
Definition dquote : str := [34%N].

Definition SYSTEM_PROMPT : str :=
  text
    [ lit "You are BhashaVox AI, a friendly English speaking coach designed to help users improve their English fluency, grammar, and confidence.";
      [];
      lit "Your role:";
      lit "1. Have natural conversations with users";
      lit "2. Correct grammar mistakes politely and clearly";
      lit "3. Explain corrections in simple terms";
      lit "4. Encourage and motivate the user";
      lit "5. Ask follow-up questions to keep the conversation flowing";
      lit "6. Adapt to the user's proficiency level";
      [];
      lit "Response format when there are mistakes:";
      checkmark ++ lit " **Corrected:** [corrected sentence]";
      light_bulb ++ lit " **Tip:** [simple explanation of the mistake]";
      speech_balloon ++ lit " **Reply:** [your conversational response]";
      [];
      lit "Response format when there are NO mistakes:";
      speech_balloon ++ lit " [your conversational response]";
      [];
      lit "Guidelines:";
      lit "- Be encouraging and positive";
      lit "- Use simple language for explanations";
      lit "- Keep corrections brief and focused";
      lit "- Continue the conversation naturally";
      lit "- Don't overwhelm with too many corrections at once" ].

Definition create_conversation_prompt (user_message conversation_history : str)
  : str :=
  let prompt := SYSTEM_PROMPT ++ newline ++ newline in
  let prompt :=
    match conversation_history with
    | [] => prompt
    | _ :: _ =>
        prompt ++ lit "Previous conversation:" ++ newline
               ++ conversation_history ++ newline ++ newline
    end in
  prompt ++ lit "User: " ++ user_message ++ newline ++ newline
         ++ lit "BhashaVox AI:".

Definition create_level_assessment_prompt (user_message : str) : str :=
  lit "Based on this message, assess the user's English proficiency level (Beginner/Intermediate/Advanced)."
  ++ newline
  ++ lit "Consider grammar, vocabulary, and sentence structure."
  ++ newline ++ newline
  ++ lit "User message: " ++ dquote ++ user_message ++ dquote
  ++ newline ++ newline
  ++ lit "Respond with only: Beginner, Intermediate, or Advanced".

End Prompts.

(** ** ai_engine.py *)

Module Engine.
Import Py.

Record BhashaVoxEngine : Type := mk_engine {
  ollama_url : str;
  model_name : str;
  max_tokens : Z;
  temperature : Q;
  memory : Memory.ConversationMemory;
  analytics : Analytics.AnalyticsTracker
}.

(** [__init__(self)]: the four settings come from the environment. *)
Definition init (url model : str) (tokens : Z) (temp : Q) (now : Z)
  : BhashaVoxEngine :=
  mk_engine url model tokens temp
    (Memory.init Memory.default_max_history) (Analytics.init now).

Definition set_memory (e : BhashaVoxEngine) (m : Memory.ConversationMemory)
  : BhashaVoxEngine :=
  mk_engine (ollama_url e) (model_name e) (max_tokens e) (temperature e)
    m (analytics e).

Definition set_analytics (e : BhashaVoxEngine)
    (a : Analytics.AnalyticsTracker) : BhashaVoxEngine :=
  mk_engine (ollama_url e) (model_name e) (max_tokens e) (temperature e)
    (memory e) a.

(** The arguments of [requests.post] in [call_ollama]. *)
Record request : Type := mk_request {
  url : str;
  json_model : str;
  json_prompt : str;
  json_stream : bool;
  options_temperature : Q;
  options_num_predict : Z;
  timeout : Z
}.

(** A value under the key ["response"] of a JSON body that is not a
    string, by what the code can observe of it.  A null, a number or a
    boolean: what [str] prints of it, and the messages of the [TypeError]
    of [s in v] and of the [AttributeError] of [v.strip()].  A list or an
    object: what [str] prints of it, the test [s in v] (an element, or a
    key, equal to [s]), the message of the [AttributeError] of
    [v.strip()], and the message of the [ValidationError] with which
    pydantic refuses it for a field declared [str]. *)
Inductive non_text : Type :=
| Scalar (printed not_iterable no_strip : str)
| Container (printed : str) (members : str -> bool)
    (no_strip not_a_string : str).

(** The value of [response.json()["response"]]: the generated text, or
    whatever else the server put under the key. *)
Inductive value : Type :=
| Text (s : str)
| NotText (v : non_text).

(** [None], which [json()] makes of a JSON [null], with the messages of
    CPython 3.11. *)
Definition json_null : non_text :=
  Scalar (lit "None")
    (lit "argument of type 'NoneType' is not iterable")
    (lit "'NoneType' object has no attribute 'strip'").

(** [str(v)], which is also what an f-string prints of [v]. *)
Definition display (v : value) : str :=
  match v with
  | Text s => s
  | NotText (Scalar printed _ _) => printed
  | NotText (Container printed _ _ _) => printed
  end.

(** [s in v] *)
Definition is_in (s : str) (v : value) : result bool :=
  match v with
  | Text text => Returns (contains s text)
  | NotText (Scalar _ not_iterable _) => Raises (TypeError not_iterable)
  | NotText (Container _ members _ _) => Returns (members s)
  end.

(** [v.strip()] *)
Definition strip_value (v : value) : result str :=
  match v with
  | Text text => Returns (strip text)
  | NotText (Scalar _ _ no_strip) => Raises (AttributeError no_strip)
  | NotText (Container _ _ no_strip _) => Raises (AttributeError no_strip)
  end.

(** What [call_ollama] reads of the object that [requests.post]
    returns: the status code and the outcome of
    [response.json()["response"]], which is the value under that key or
    an exception (a body that is not JSON, a missing key). *)
Record response : Type := mk_response {
  status_code : Z;
  json_response : result value
}.

(** The model server and the network in between: what [requests.post]
    does with a request, a response or an exception. *)
Definition server := request -> result response.

(** [x or y] on an optional float: [None] and [0.0] are falsy. *)
Definition float_or (x : option Q) (y : Q) : Q :=
  match x with
  | None => y
  | Some v => if Qeq_bool v 0 then y else v
  end.

Definition isinstance_ConnectionError (e : exn) : bool :=
  match e with
  | ConnectionError _ | ConnectTimeout _ => true
  | _ => false
  end.

Definition isinstance_Timeout (e : exn) : bool :=
  match e with
  | Timeout _ | ConnectTimeout _ => true
  | _ => false
  end.

(** Every constructor of [exn] stands for a subclass of [Exception]. *)
Definition isinstance_Exception (e : exn) : bool :=
  match e with
  | ZeroDivisionError | ConnectionError _ | Timeout _ | ConnectTimeout _
  | TypeError _ | AttributeError _ | ValidationError _
  | OtherException _ => true
  end.

(** The [try] block of [call_ollama]. *)
Definition call_ollama_try (post : server) (e : BhashaVoxEngine)
    (prompt : str) (temperature_arg : option Q) : result value :=
  response <-
    post (mk_request
            (ollama_url e ++ lit "/api/generate")   (* url *)
            (model_name e)                          (* "model" *)
            prompt                                  (* "prompt" *)
            false                                   (* "stream" *)
            (float_or temperature_arg (temperature e))
            (max_tokens e)                          (* "num_predict" *)
            30) ;;                                  (* timeout *)
  if status_code response =? 200
  then json_response response
  else Returns (Text (lit "Error: Ollama returned status code "
                      ++ str_of_int (status_code response))).

(** [call_ollama]: the [try] block and its three [except] clauses, tried
    in the order of the source; an exception that none of them matches
    would propagate. *)
Definition call_ollama (post : server) (e : BhashaVoxEngine)
    (prompt : str) (temperature_arg : option Q) : result value :=
  match call_ollama_try post e prompt temperature_arg with
  | Returns generated => Returns generated
  | Raises ex =>
      if isinstance_ConnectionError ex then
        Returns (Text (lit "Error: Cannot connect to Ollama. Make sure Ollama is running (ollama serve)"))
      else if isinstance_Timeout ex then
        Returns (Text (lit "Error: Request timed out. The model might be loading."))
      else if isinstance_Exception ex then
        Returns (Text (lit "Error: " ++ str_of_exn ex))
      else Raises ex
  end.

(** The outcomes of the request on which [call_ollama] has no generated
    value to return: another status than 200, or an exception of
    [requests.post] or of [response.json()["response"]]. *)
Definition failed (outcome : result response) : Prop :=
  match outcome with
  | Returns r =>
      status_code r <> 200 \/ exists ex : exn, json_response r = Raises ex
  | Raises _ => True
  end.

(** The outcome is a response of status 200 that carries [generated]
    under the key ["response"]. *)
Definition answers (outcome : result response) (generated : value) : Prop :=
  exists r : response,
    outcome = Returns r /\ status_code r = 200 /\
    json_response r = Returns generated.

(** The request that [call_ollama] posts. *)
Definition generate_request (e : BhashaVoxEngine) (prompt : str)
    (temperature_arg : option Q) : request :=
  mk_request
    (ollama_url e ++ lit "/api/generate")
    (model_name e)
    prompt
    false
    (float_or temperature_arg (temperature e))
    (max_tokens e)
    30.

(** The correction heuristic of [chat] on a text. *)
Definition correction_detected (ai_response : str) : bool :=
  contains checkmark ai_response || contains (lit "Corrected:") ai_response.

(** The condition of the heuristic as [chat] evaluates it, on whatever
    [call_ollama] returned: the second test is made when the first is
    false. *)
Definition correction_detected_in (ai_response : value) : result bool :=
  first <- is_in checkmark ai_response ;;
  if first then Returns true else is_in (lit "Corrected:") ai_response.

(** [chat(self, user_message)]: what the call returns or raises, and the
    engine afterwards, which the call has changed also when it raises.
    [now] is the clock reading that [log_mistake] would take.  The
    history and the mistake records hold the reply itself; of a reply
    that is not a string the model keeps what [str] prints, which is all
    that [get_history_string] reads of an entry. *)
Definition chat (post : server) (e : BhashaVoxEngine) (now : Z)
    (user_message : str) : result value * BhashaVoxEngine :=
  let e := set_analytics e (Analytics.log_message (analytics e)) in
  let e := set_memory e
             (Memory.add_message (memory e) (lit "user") user_message) in
  let history := Memory.get_history_string (memory e) in
  let prompt := Prompts.create_conversation_prompt user_message history in
  match call_ollama post e prompt None with
  | Raises ex => (Raises ex, e)
  | Returns ai_response =>
      let e := set_memory e
                 (Memory.add_message (memory e) (lit "assistant")
                    (display ai_response)) in
      match correction_detected_in ai_response with
      | Raises ex => (Raises ex, e)
      | Returns true =>
          (Returns ai_response,
           set_analytics e
             (Analytics.log_mistake (analytics e) now
                user_message (display ai_response) (lit "grammar")))
      | Returns false => (Returns ai_response, e)
      end
  end.

(** The prompt that [chat] sends: built after the user's message has
    been added to the history. *)
Definition chat_prompt (e : BhashaVoxEngine) (user_message : str) : str :=
  Prompts.create_conversation_prompt user_message
    (Memory.get_history_string
       (Memory.add_message (memory e) (lit "user") user_message)).

Definition valid_levels : list str :=
  [lit "Beginner"; lit "Intermediate"; lit "Advanced"].

(** The [for] loop of [assess_level], with its fall-through default. *)
Fixpoint assess_loop (e : BhashaVoxEngine) (level : str)
    (levels : list str) : str * BhashaVoxEngine :=
  match levels with
  | [] => (lit "Intermediate", e)
  | valid_level :: rest =>
      if contains (lower valid_level) (lower level)
      then (valid_level,
            set_memory e (Memory.set_user_level (memory e) valid_level))
      else assess_loop e level rest
  end.

(** The name at which the loop stops, if it stops at one. *)
Definition first_level_named (raw : str) : option str :=
  find (fun name => contains (lower name) (lower raw)) valid_levels.

(** Two code points that are equal when letter case is ignored: the same
    code point, or a capital letter [A-Z] and its small letter. *)
Definition same_letter (a b : N) : Prop :=
  a = b \/
  ((65 <= a <= 90)%N /\ b = (a + 32)%N) \/
  ((65 <= b <= 90)%N /\ a = (b + 32)%N).

(** [name] occurs somewhere in [raw] when letter case is ignored: a
    contiguous run of [raw] equals [name] letter by letter. *)
Definition occurs_ignoring_case (name raw : str) : Prop :=
  exists pre mid post : str,
    raw = pre ++ mid ++ post /\ Forall2 same_letter name mid.

(** The engine [e'] is the engine [e] with [name] as the stored user
    level and nothing else changed. *)
Definition level_stored (name : str) (e e' : BhashaVoxEngine) : Prop :=
  Memory.user_level (memory e') = Some name /\
  Memory.history (memory e') = Memory.history (memory e) /\
  Memory.max_history (memory e') = Memory.max_history (memory e) /\
  Memory.session_start (memory e') = Memory.session_start (memory e) /\
  analytics e' = analytics e /\
  ollama_url e' = ollama_url e /\ model_name e' = model_name e /\
  max_tokens e' = max_tokens e /\ temperature e' = temperature e.

(** [assess_level(self, user_message)]: the level and the engine
    afterwards.  An exception of [.strip()] leaves the engine as it
    was. *)
Definition assess_level (post : server) (e : BhashaVoxEngine)
    (user_message : str) : result (str * BhashaVoxEngine) :=
  let prompt := Prompts.create_level_assessment_prompt user_message in
  raw <- call_ollama post e prompt (Some (3 # 10)) ;;
  level <- strip_value raw ;;
  Returns (assess_loop e level valid_levels).

(** The dict returned by [get_stats]: the summary and two more keys. *)
Module Stats.
Record t : Type := mk {
  summary : Analytics.Summary.t;
  conversation_turns : Z;
  user_level : option str
}.
End Stats.

Definition get_stats (e : BhashaVoxEngine) (now : Z) : result Stats.t :=
  stats <- Analytics.get_session_summary (analytics e) now ;;
  Returns (Stats.mk stats
             (Memory.get_conversation_count (memory e))
             (Memory.get_user_level (memory e))).

Definition reset_session (e : BhashaVoxEngine) (now : Z)
  : str * BhashaVoxEngine :=
  let e := set_memory e (Memory.clear_history (memory e)) in
  let e := set_analytics e (Analytics.reset_session (analytics e) now) in
  (lit "Session reset successfully!", e).

End Engine.

(** ** ai_engine.py: status check and sessions *)

Module Status.
Import Py Engine.

(** What [check_ollama_status] reads of the answer to
    [requests.get(.../api/tags)]: the status code and the outcome of
    [[m["name"] for m in response.json().get("models", [])]], the list of
    names or an exception. *)
Record tags_response : Type := mk_tags_response {
  tags_status_code : Z;
  tags_model_names : result (list str)
}.

(** [requests.get(url, timeout=...)] *)
Definition tags_server := str -> Z -> result tags_response.

(** [x in names] on a list of strings. *)
Definition list_in (x : str) (names : list str) : bool :=
  existsb (str_eqb x) names.

Definition warning : str := [9888%N; 65039%N].   (* U+26A0 U+FE0F *)
Definition cross_mark : str := [10060%N].        (* U+274C *)

(** The [try] block of [check_ollama_status]. *)
Definition check_ollama_status_try (get : tags_server) (e : BhashaVoxEngine)
  : result (bool * str) :=
  response <- get (ollama_url e ++ lit "/api/tags") 5 ;;
  if tags_status_code response =? 200 then
    model_names <- tags_model_names response ;;
    if list_in (model_name e) model_names then
      Returns (true, checkmark ++ lit " Ollama is running with "
                     ++ model_name e)
    else
      Returns (false, warning ++ lit " Model " ++ model_name e
                      ++ lit " not found. Run: ollama pull " ++ model_name e)
  else Returns (false, warning ++ lit " Ollama is running but returned an error").

(** [check_ollama_status]: the bare [except] takes every exception. *)
Definition check_ollama_status (get : tags_server) (e : BhashaVoxEngine)
  : bool * str :=
  match check_ollama_status_try get e with
  | Returns answer => answer
  | Raises _ =>
      (false, cross_mark ++ lit " Ollama is not running. Start it with: ollama serve")
  end.

End Status.

Module Session.
Import Py Engine.

(** The calls that the front ends make on the one engine of a process. *)
Inductive call : Type :=
| Chat (post : server) (now : Z) (user_message : str)
| AssessLevel (post : server) (user_message : str)
| ResetSession (now : Z).

(** One call as a front end makes it.  The endpoints of main.py and the
    loops of test_chat.py and voice_chat.py catch the exception of a call
    ([except Exception]) and go on with the same engine, which is then as
    the call left it. *)
Definition step (e : BhashaVoxEngine) (c : call) : result BhashaVoxEngine :=
  match c with
  | Chat post now user_message =>
      Returns (snd (chat post e now user_message))
  | AssessLevel post user_message =>
      match assess_level post e user_message with
      | Returns r => Returns (snd r)
      | Raises _ => Returns e
      end
  | ResetSession now => Returns (snd (reset_session e now))
  end.

(** The engine after a sequence of calls. *)
Fixpoint run (e : BhashaVoxEngine) (calls : list call)
  : result BhashaVoxEngine :=
  match calls with
  | [] => Returns e
  | c :: rest => e' <- step e c ;; run e' rest
  end.

(** The number of [chat] calls since the last [reset_session], counted
    along the sequence from [k]. *)
Definition count_chat (k : Z) (c : call) : Z :=
  match c with
  | Chat _ _ _ => k + 1
  | AssessLevel _ _ => k
  | ResetSession _ => 0
  end.

Definition chats_since_reset (calls : list call) : Z :=
  fold_left count_chat calls 0.

(** What [call_ollama] gives for the prompt of a chat, as it is printed:
    the assistant's side of the exchange. *)
Definition stored_reply (post : server) (e : BhashaVoxEngine)
    (user_message : str) : str :=
  match call_ollama post e (chat_prompt e user_message) None with
  | Returns generated => display generated
  | Raises _ => []
  end.

(** The exchanges (user message, reply) of the chats since the last
    [reset_session], oldest first, kept along the sequence together with
    the engine that the next call meets. *)
Definition exchange_step (st : BhashaVoxEngine * list (str * str))
    (c : call) : BhashaVoxEngine * list (str * str) :=
  (match step (fst st) c with
   | Returns e' => e'
   | Raises _ => fst st
   end,
   match c with
   | Chat post _ user_message =>
       snd st ++ [(user_message, stored_reply post (fst st) user_message)]
   | AssessLevel _ _ => snd st
   | ResetSession _ => []
   end).

Definition exchanges (e : BhashaVoxEngine) (calls : list call)
  : list (str * str) :=
  snd (fold_left exchange_step calls (e, [])).

(** The last [n] items of a list, all of them when there are fewer. *)
Definition last_items {A : Type} (n : nat) (l : list A) : list A :=
  skipn (List.length l - n) l.

(** The history made of whole turns: a user entry and the assistant
    entry that answers it. *)
Definition turns_history (turns : list (str * str)) : list Memory.entry :=
  flat_map (fun t => [Memory.mk_entry (lit "user") (fst t);
                      Memory.mk_entry (lit "assistant") (snd t)]) turns.

(** What the calls preserve of an engine built by [__init__], with [xs]
    the exchanges since the last reset. *)
Definition session_invariant (xs : list (str * str)) (e : BhashaVoxEngine)
  : Prop :=
  Memory.max_history (memory e) = 10 /\
  Memory.history (memory e) = turns_history (last_items 10 xs) /\
  Analytics.total_messages (analytics e) = len xs /\
  Analytics.corrections_made (analytics e)
  = len (Analytics.mistakes (analytics e)) /\
  len (Analytics.mistakes (analytics e)) <= len xs /\
  Analytics.mistake_categories (analytics e)
  = (if Analytics.corrections_made (analytics e) =? 0 then []
     else [(lit "grammar", Analytics.corrections_made (analytics e))]) /\
  (Memory.user_level (memory e) = None \/
   exists name : str,
     In name valid_levels /\ Memory.user_level (memory e) = Some name).

End Session.

(** ** main.py: the chat endpoint *)

Module Api.
Import Py Engine.

(** What an endpoint gives back: its return value, or the
    [HTTPException] it raises. *)
Inductive http (A : Type) : Type :=
| Response (a : A)
| HTTPException (status_code : Z) (detail : str).
Arguments Response {A} a.
Arguments HTTPException {A} status_code detail.

Record ChatResponse : Type := mk_chat_response {
  response : str;
  corrections_made : bool;
  message_count : Z
}.

(** Lines 107 to 113 of [POST /chat], on what [engine.chat] returned:
    the flag, by the same two tests as in the engine, and the
    [ChatResponse], whose field [response] is declared [str]. *)
Definition chat_response (ai_response : value) (count : Z)
  : result ChatResponse :=
  match ai_response with
  | Text s => Returns (mk_chat_response s (correction_detected s) count)
  | NotText (Scalar _ not_iterable _) => Raises (TypeError not_iterable)
  | NotText (Container _ _ _ not_a_string) =>
      Raises (ValidationError not_a_string)
  end.

(** [POST /chat], on the process-wide [engine]: the answer and the
    engine afterwards. *)
Definition chat (post : server) (engine : BhashaVoxEngine) (now : Z)
    (message : str) : http ChatResponse * BhashaVoxEngine :=
  match strip message with
  | [] => (HTTPException 400 (lit "Message cannot be empty"), engine)
  | _ :: _ =>
      let (outcome, engine') := Engine.chat post engine now message in
      match
        ai_response <- outcome ;;
        chat_response ai_response
          (Memory.get_conversation_count (memory engine'))
      with
      | Returns answer => (Response answer, engine')
      | Raises ex =>
          (HTTPException 500
             (lit "Error processing message: " ++ str_of_exn ex),
           engine')
      end
  end.

(** The dict that [POST /assess-level] returns. *)
Record LevelResponse : Type := mk_level_response {
  level : str;
  level_message : str
}.

(** [POST /assess-level] *)
Definition assess_level (post : server) (engine : BhashaVoxEngine)
    (message : str) : http LevelResponse * BhashaVoxEngine :=
  match strip message with
  | [] => (HTTPException 400 (lit "Message cannot be empty"), engine)
  | _ :: _ =>
      match Engine.assess_level post engine message with
      | Returns (level, engine') =>
          (Response (mk_level_response level
                       (lit "Your English level appears to be: " ++ level)),
           engine')
      | Raises ex =>
          (HTTPException 500 (lit "Error assessing level: " ++ str_of_exn ex),
           engine)
      end
  end.

End Api.

(** ** voice_module.py: text cleaning *)

Module Voice.
Import Py.

(** [s.replace(old, new)] for a non-empty [old]: every occurrence of
    [old], found from the left and not overlapping an earlier one, is
    replaced.  [skip] counts the code points of a matched occurrence that
    are still to be passed over. *)
Fixpoint replace_from (old new : str) (skip : nat) (s : str) : str :=
  match s with
  | [] => []
  | c :: s' =>
      match skip with
      | S k => replace_from old new k s'
      | O =>
          if startswith old s
          then new ++ replace_from old new (List.length old - 1) s'
          else c :: replace_from old new 0 s'
      end
  end.

(** [s.replace(old, new)]; with an empty [old], [new] is put before every
    code point and at the end. *)
Definition replace (old new s : str) : str :=
  match old with
  | [] => new ++ flat_map (fun c => c :: new) s
  | _ :: _ => replace_from old new 0 s
  end.

Definition light_bulb : str := [128161%N].      (* U+1F4A1 *)
Definition speech_balloon : str := [128172%N].  (* U+1F4AC *)
Definition direct_hit : str := [127919%N].      (* U+1F3AF *)
Definition sparkles : str := [10024%N].         (* U+2728 *)
Definition waving_hand : str := [128075%N].     (* U+1F44B *)

(** [emoji_dict.items()], in the order of the literal. *)
Definition emoji_dict : list (str * str) :=
  [ (checkmark, lit "Corrected: ");
    (light_bulb, lit "Tip: ");
    (speech_balloon, []);
    (direct_hit, []);
    (sparkles, []);
    (waving_hand, []);
    (lit "**", []) ].

Definition _clean_text_for_speech (text : str) : str :=
  let text :=
    fold_left (fun text kv => replace (fst kv) (snd kv) text)
      emoji_dict text in
  let text := replace (lit "*") [] (replace (lit "**") [] text) in
  strip text.

(** The code points that [_clean_text_for_speech] removes. *)
Definition removed_code_points : list N :=
  [9989; 128161; 128172; 127919; 10024; 128075; 42]%N.

End Voice.

(** ** Outcomes of the inference request that carry no generated text *)

Module Failure.
Import Py Engine.

(** The server answered with another status than 200, or the request
    ended in a connection error or a timeout. *)
Definition unavailable (outcome : result response) : Prop :=
  match outcome with
  | Returns r => status_code r <> 200
  | Raises ex =>
      isinstance_ConnectionError ex = true \/ isinstance_Timeout ex = true
  end.

(** The request that [assess_level] posts. *)
Definition assess_request (e : BhashaVoxEngine) (user_message : str)
  : request :=
  generate_request e (Prompts.create_level_assessment_prompt user_message)
    (Some (3 # 10)).

End Failure.

(* ================================================================== *)
(** * Part II: properties *)
(* ================================================================== *)

(** ** Strings *)

Section StringFacts.
Import Py.

Lemma str_eqb_eq (a b : str) : str_eqb a b = true <-> a = b.
Proof.
  revert b; induction a as [|x a IH]; intros [|y b]; simpl;
    try (split; [discriminate | discriminate]); try tauto.
  rewrite andb_true_iff, N.eqb_eq, IH.
  split; [intros [-> ->]; reflexivity | intros H; injection H; auto].
Qed.

Lemma str_eqb_refl (a : str) : str_eqb a a = true.
Proof. apply str_eqb_eq; reflexivity. Qed.

Lemma str_eqb_neq (a b : str) : str_eqb a b = false <-> a <> b.
Proof.
  rewrite <- str_eqb_eq. destruct (str_eqb a b); split; congruence.
Qed.

Lemma existsb_str_eqb_In (k : str) (ks : list str) :
  existsb (str_eqb k) ks = true <-> In k ks.
Proof.
  rewrite existsb_exists. split.
  - intros [x [Hin E]]. apply str_eqb_eq in E. subst x. exact Hin.
  - intros Hin. exists k. split; [exact Hin | apply str_eqb_refl].
Qed.

Lemma startswith_app (p s : str) :
  startswith p s = true <-> exists post, s = p ++ post.
Proof.
  revert s; induction p as [|x p IH]; intros s; simpl.
  - split; [intros _; exists s; reflexivity | reflexivity].
  - destruct s as [|y s].
    + split; [discriminate | intros [post H]; discriminate].
    + rewrite andb_true_iff, N.eqb_eq, IH. split.
      * intros [-> [post ->]]. exists post; reflexivity.
      * intros [post H]. injection H as -> ->. split; eauto.
Qed.

(** [contains] decides the occurrence of [p] as a contiguous run. *)
Lemma contains_spec (p s : str) :
  contains p s = true <-> exists pre post, s = pre ++ p ++ post.
Proof.
  induction s as [|c s IH]; simpl.
  - rewrite orb_false_r, startswith_app. split.
    + intros [post H]. exists [], post. exact H.
    + intros [pre [post H]]. destruct pre; simpl in H.
      * exists post; exact H.
      * discriminate.
  - rewrite orb_true_iff, startswith_app, IH. split.
    + intros [[post H] | [pre [post H]]].
      * exists [], post. exact H.
      * exists (c :: pre), post. simpl. rewrite H. reflexivity.
    + intros [pre [post H]]. destruct pre as [|c' pre]; simpl in H.
      * left. exists post; exact H.
      * right. injection H as _ H. exists pre, post. exact H.
Qed.

Lemma startswith_snoc_other (p s : str) (c : N) :
  ~ In c p -> startswith p (s ++ [c]) = startswith p s.
Proof.
  revert s; induction p as [|x p IH]; intros s Hc; [reflexivity|].
  destruct s as [|y s]; simpl.
  - destruct (N.eqb_spec x c) as [->|_]; [|reflexivity].
    exfalso; apply Hc; left; reflexivity.
  - rewrite IH; [reflexivity|]. intros H; apply Hc; right; exact H.
Qed.

(** A code point that does not occur in [p] can be dropped from either
    end of the text without changing whether [p] occurs. *)
Lemma contains_cons_other (p s : str) (c : N) :
  ~ In c p -> p <> [] -> contains p (c :: s) = contains p s.
Proof.
  intros Hc Hp. destruct p as [|x p]; [congruence|].
  cbn [contains startswith].
  destruct (N.eqb_spec x c) as [->|_].
  - exfalso; apply Hc; left; reflexivity.
  - reflexivity.
Qed.

Lemma contains_snoc_other (p s : str) (c : N) :
  ~ In c p -> p <> [] -> contains p (s ++ [c]) = contains p s.
Proof.
  intros Hc Hp. induction s as [|y s IH].
  - change ([] ++ [c]) with [c]. rewrite contains_cons_other by assumption.
    reflexivity.
  - cbn [app contains]. rewrite IH.
    change (y :: s ++ [c]) with ((y :: s) ++ [c]).
    rewrite startswith_snoc_other by assumption. reflexivity.
Qed.

End StringFacts.

(** ** The history buffer *)

Section MemoryFacts.
Import Py Memory.

Lemma add_message_frame (m : ConversationMemory) (r t : str) :
  max_history (add_message m r t) = max_history m /\
  user_level (add_message m r t) = user_level m.
Proof.
  unfold add_message.
  destruct (len (history m ++ [mk_entry r t]) >? max_history m * 2);
    split; reflexivity.
Qed.

(** With a cap of at least one turn, [add_message] keeps the last
    [2 * max_history] entries. *)
Lemma add_message_positive_cap (m : ConversationMemory) (r t : str) :
  1 <= max_history m ->
  len (history m) <= 2 * max_history m ->
  let h := history m ++ [mk_entry r t] in
  let m' := add_message m r t in
  len (history m') <= 2 * max_history m' /\
  history m' = skipn (Z.to_nat (len h - 2 * max_history m)) h /\
  (len h > 2 * max_history m -> len (history m') = 2 * max_history m).
Proof.
  intros Hcap Hlen h m'. subst m'. unfold add_message. fold h.
  assert (Hh : len h = len (history m) + 1).
  { unfold h, len. rewrite length_app. simpl. lia. }
  destruct (Z.gtb_spec (len h) (max_history m * 2)) as [Hgt|Hle];
    unfold set_history; cbn [history max_history].
  - unfold slice_from, slice_bound. fold (len h).
    replace (- max_history m * 2 <? 0) with true
      by (symmetry; apply Z.ltb_lt; lia).
    replace (Z.max (len h + - max_history m * 2) 0)
      with (len h - 2 * max_history m) by lia.
    repeat split; try reflexivity.
    + unfold len in *. rewrite length_skipn. lia.
    + intros _. unfold len in *. rewrite length_skipn. lia.
  - replace (Z.to_nat (len h - 2 * max_history m)) with 0%nat by lia.
    cbn [skipn]. repeat split; try reflexivity; lia.
Qed.

Lemma add_messages_snoc (m : ConversationMemory) (calls : list (str * str))
    (c : str * str) :
  add_messages m (calls ++ [c])
  = add_message (add_messages m calls) (fst c) (snd c).
Proof. unfold add_messages. rewrite fold_left_app. reflexivity. Qed.

(** From the empty history of [__init__], with a cap of at least one
    turn, the bound holds after every sequence of calls. *)
Lemma add_messages_bounded (cap : Z) (calls : list (str * str)) :
  1 <= cap ->
  let m := add_messages (init cap) calls in
  max_history m = cap /\ len (history m) <= 2 * cap.
Proof.
  intros Hcap. induction calls as [|c calls IH] using rev_ind.
  - split; [reflexivity|]. change (len (@nil entry) <= 2 * cap).
    unfold len; cbn [List.length]; lia.
  - cbv zeta in *. rewrite add_messages_snoc. destruct IH as [IHc IHl].
    destruct (add_message_frame (add_messages (init cap) calls)
                (fst c) (snd c)) as [Hm _].
    split; [congruence|].
    pose proof (add_message_positive_cap (add_messages (init cap) calls)
                  (fst c) (snd c)) as H.
    cbv zeta in H. rewrite IHc in H. rewrite Hm, IHc in H.
    apply H; assumption.
Qed.

(** [l[0:]], which is also [l[-0:]], is the whole list. *)
Lemma slice_from_zero {A : Type} (l : list A) : slice_from 0 l = l.
Proof.
  unfold slice_from, slice_bound. cbn [Z.ltb Z.compare].
  replace (Z.to_nat (Z.min 0 (Z.of_nat (List.length l)))) with 0%nat by lia.
  reflexivity.
Qed.

(** With [max_history = 0] the slice taken on overflow is [h[-0:]],
    which is the whole list: nothing is ever evicted. *)
Lemma add_message_zero_cap (m : ConversationMemory) (r t : str) :
  max_history m = 0 ->
  history (add_message m r t) = history m ++ [mk_entry r t].
Proof.
  intros H0. unfold add_message. rewrite H0.
  change (- 0 * 2) with 0. change (0 * 2) with 0.
  destruct (len (history m ++ [mk_entry r t]) >? 0); [|reflexivity].
  unfold set_history; cbn [history]. apply slice_from_zero.
Qed.

(** C1, evaluated where the code departs from it: a memory built with
    [max_history = 0] has the cap [2 * 0 = 0], yet after any sequence of
    [add_message] calls its history holds every message that was added,
    in order; none is evicted. *)
Theorem add_messages_zero_cap_keeps_all (calls : list (str * str)) :
  let m := add_messages (init 0) calls in
  max_history m = 0 /\
  history m = map (fun c => mk_entry (fst c) (snd c)) calls /\
  len (history m) = len calls.
Proof.
  cbv zeta. induction calls as [|c calls IH] using rev_ind.
  - repeat split.
  - rewrite add_messages_snoc. destruct IH as [IH0 [IHh IHl]].
    destruct (add_message_frame (add_messages (init 0) calls)
                (fst c) (snd c)) as [Hm _].
    assert (Hh : history (add_message (add_messages (init 0) calls)
                            (fst c) (snd c))
                 = map (fun c => mk_entry (fst c) (snd c)) (calls ++ [c])).
    { rewrite add_message_zero_cap by assumption.
      rewrite IHh, map_app. reflexivity. }
    split; [congruence|]. split; [exact Hh|].
    rewrite Hh. unfold len. rewrite length_map. reflexivity.
Qed.

Example zero_cap_one_message :
  len (history (add_message (init 0) (lit "user") (lit "hi"))) = 1.
Proof. reflexivity. Qed.

Example default_cap_evicts_oldest :
  map message
    (history (add_messages (init 1)
                [(lit "user", lit "a"); (lit "assistant", lit "b");
                 (lit "user", lit "c")]))
  = [lit "b"; lit "c"].
Proof. reflexivity. Qed.

Lemma render_loop_acc (acc : str) (h : list entry) :
  render_loop acc h
  = acc ++ flat_map (fun e => rendered_turn e ++ newline) h.
Proof.
  revert acc; induction h as [|e h IH]; intros acc;
    cbn [render_loop flat_map].
  - rewrite app_nil_r. reflexivity.
  - rewrite IH. unfold rendered_turn.
    rewrite <- !app_assoc. reflexivity.
Qed.

Lemma flat_map_newline_join (lines : list str) :
  lines <> [] ->
  flat_map (fun l => l ++ newline) lines = join newline lines ++ newline.
Proof.
  induction lines as [|l lines IH]; [congruence|]. intros _.
  destruct lines as [|l' lines].
  - simpl. rewrite app_nil_r. reflexivity.
  - change (flat_map (fun l => l ++ newline) (l :: l' :: lines))
      with ((l ++ newline) ++ flat_map (fun l => l ++ newline) (l' :: lines)).
    rewrite IH by discriminate.
    change (join newline (l :: l' :: lines))
      with (l ++ newline ++ join newline (l' :: lines)).
    rewrite <- !app_assoc. reflexivity.
Qed.

(** C8 as stated fails: the transcript of a one-Turn History is not the
    rendered Turns joined by newlines, because the code closes every
    Turn, the last one too, with a newline. *)
Lemma get_history_string_not_joined :
  let m := add_message (init 10) (lit "user") (lit "hi") in
  get_history_string m = lit "User: hi" ++ newline /\
  render_history_joined m = lit "User: hi" /\
  get_history_string m <> render_history_joined m.
Proof. cbv zeta. repeat split. discriminate. Qed.

(** C8, amended: [get_history_string] returns the empty string for an
    empty History; otherwise it returns the Turns in chronological order,
    each rendered as ["<DisplayName>: <text>"] and each followed by a
    newline, which is the newline-joined transcript with one more newline
    at its end.  A History of one user Turn and one assistant Turn gives
    exactly the two lines, in order. *)
Theorem get_history_string_lines (m : ConversationMemory) :
  get_history_string m
  = flat_map (fun e => rendered_turn e ++ newline) (history m) /\
  get_history_string m
  = match history m with
    | [] => []
    | _ :: _ => render_history_joined m ++ newline
    end /\
  forall u a : str,
    get_history_string
      (add_message (add_message (init 10) (lit "user") u)
         (lit "assistant") a)
    = (lit "User: " ++ u ++ newline)
      ++ (lit "BhashaVox AI: " ++ a ++ newline).
Proof.
  assert (H : get_history_string m
              = flat_map (fun e => rendered_turn e ++ newline) (history m)).
  { unfold get_history_string. destruct (history m) as [|e h] eqn:E.
    - reflexivity.
    - rewrite render_loop_acc. reflexivity. }
  split; [exact H|]. split.
  - rewrite H. unfold render_history_joined.
    destruct (history m) as [|e h] eqn:E; [reflexivity|].
    rewrite <- flat_map_newline_join by discriminate.
    generalize (e :: h). intros l. induction l as [|x l IHl];
      [reflexivity|]. cbn [map flat_map]. rewrite IHl. reflexivity.
  - intros u a. cbn. rewrite <- !app_assoc. reflexivity.
Qed.

End MemoryFacts.

(** ** Rounding *)

Section RoundingFacts.
Import Py.
Local Open Scope Q_scope.

Lemma round_half_even_cases (x : Q) :
  round_half_even x = Qfloor x \/ round_half_even x = (Qfloor x + 1)%Z.
Proof.
  unfold round_half_even.
  destruct (x - inject_Z (Qfloor x) ?= 1 # 2); auto.
  destruct (Z.even (Qfloor x)); auto.
Qed.

(** The rounded value is within one half of the argument. *)
Lemma round_half_even_near (x : Q) :
  Qabs (inject_Z (round_half_even x) - x) <= 1 # 2.
Proof.
  pose proof (Qfloor_le x) as Hlo. pose proof (Qlt_floor x) as Hhi.
  rewrite inject_Z_plus in Hhi. change (inject_Z 1) with 1 in Hhi.
  apply Qabs_Qle_condition. unfold round_half_even.
  destruct (Qcompare_spec (x - inject_Z (Qfloor x)) (1 # 2)) as [E|L|G].
  - destruct (Z.even (Qfloor x)).
    + split; lra.
    + rewrite inject_Z_plus. change (inject_Z 1) with 1. split; lra.
  - split; lra.
  - rewrite inject_Z_plus. change (inject_Z 1) with 1. split; lra.
Qed.

(** Rounding stays between two integers that enclose the argument. *)
Lemma round_half_even_between (a b : Z) (x : Q) :
  inject_Z a <= x -> x <= inject_Z b ->
  (a <= round_half_even x <= b)%Z.
Proof.
  intros Ha Hb.
  pose proof (Qfloor_resp_le _ _ Ha) as Hfa. rewrite Qfloor_Z in Hfa.
  pose proof (Qfloor_resp_le _ _ Hb) as Hfb. rewrite Qfloor_Z in Hfb.
  destruct (round_half_even_cases x) as [E|E]; [rewrite E; lia|].
  split; [rewrite E; lia|].
  destruct (Z.eq_dec (Qfloor x) b) as [Eb|Nb]; [|rewrite E; lia].
  (* the floor is [b], so [x] is the integer [b] and rounds to itself *)
  assert (Hx : x == inject_Z b).
  { apply Qle_antisym; [exact Hb|]. rewrite <- Eb. apply Qfloor_le. }
  unfold round_half_even.
  destruct (Qcompare_spec (x - inject_Z (Qfloor x)) (1 # 2)) as [E'|L|G].
  - exfalso. rewrite Eb in E'. lra.
  - lia.
  - exfalso. rewrite Eb in G. lra.
Qed.

Lemma round_half_even_le (b : Z) (x : Q) :
  x <= inject_Z b -> (round_half_even x <= b)%Z.
Proof.
  intros Hb. apply (round_half_even_between (Qfloor x) b x);
    [apply Qfloor_le | exact Hb].
Qed.

Lemma round_half_even_ge (a : Z) (x : Q) :
  inject_Z a <= x -> (a <= round_half_even x)%Z.
Proof.
  intros Ha. apply (round_half_even_between a (Qceiling x) x);
    [exact Ha | apply Qle_ceiling].
Qed.

Lemma round_half_even_comp (x y : Q) :
  x == y -> round_half_even x = round_half_even y.
Proof.
  intros E. unfold round_half_even.
  assert (Ef : Qfloor x = Qfloor y) by (rewrite E; reflexivity).
  rewrite Ef.
  assert (Ec : (x - inject_Z (Qfloor y) ?= 1 # 2)
               = (y - inject_Z (Qfloor y) ?= 1 # 2))
    by (rewrite E; reflexivity).
  rewrite Ec. reflexivity.
Qed.

(** *** Powers of two and binades *)

Lemma pow2_pos (e : Z) : 0 < pow2 e.
Proof. apply Qpower_0_lt. reflexivity. Qed.

Lemma pow2_plus (a b : Z) : pow2 (a + b) == pow2 a * pow2 b.
Proof. unfold pow2. apply Qpower_plus. discriminate. Qed.

Lemma pow2_le (a b : Z) : (a <= b)%Z -> pow2 a <= pow2 b.
Proof. intros H. apply Qpower_le_compat_l; [exact H | discriminate]. Qed.

Lemma pow2_lt_inv (a b : Z) : pow2 a < pow2 b -> (a < b)%Z.
Proof. intros H. apply (Qpower_lt_compat_l_inv 2); [exact H | reflexivity]. Qed.

Lemma pow2_Z (n : Z) : (0 <= n)%Z -> inject_Z (2 ^ n) == pow2 n.
Proof. intros H. apply (Zpower_Qpower 2 n H). Qed.

Lemma pow2_neg (n : Z) : (0 <= n)%Z -> inject_Z (2 ^ n) * pow2 (- n) == 1.
Proof.
  intros H. rewrite pow2_Z by exact H. rewrite <- pow2_plus.
  replace (n + - n)%Z with 0%Z by lia. reflexivity.
Qed.

Lemma Qnum_den_pos (x : Q) : 0 < x -> (0 < Qnum x)%Z.
Proof. unfold Qlt. cbn. lia. Qed.

Lemma Q_as_quotient (x : Q) :
  x == inject_Z (Qnum x) / inject_Z (Zpos (Qden x)).
Proof. destruct x as [n d]. cbn [Qnum Qden]. rewrite Qmake_Qdiv. reflexivity. Qed.

(** [binade x] is the exponent of the power of two just below [x]. *)
Lemma binade_lower (x : Q) : 0 < x -> pow2 (binade x) <= x.
Proof.
  intros Hx. unfold binade.
  set (ln := Z.log2 (Qnum x)). set (ld := Z.log2 (Zpos (Qden x))).
  destruct (Qle_bool (pow2 (ln - ld)) x) eqn:E.
  - apply Qle_bool_iff. exact E.
  - pose proof (Qnum_den_pos x Hx) as Hn.
    destruct (Z.log2_spec (Qnum x) Hn) as [Hn1 _]. fold ln in Hn1.
    destruct (Z.log2_spec (Zpos (Qden x)) (Pos2Z.is_pos _)) as [_ Hd2].
    fold ld in Hd2.
    assert (Hln : (0 <= ln)%Z) by apply Z.log2_nonneg.
    assert (Hld : (0 <= ld)%Z) by apply Z.log2_nonneg.
    rewrite Zle_Qle, pow2_Z in Hn1 by exact Hln.
    rewrite Zlt_Qlt, pow2_Z in Hd2 by lia.
    rewrite (Q_as_quotient x).
    set (n := inject_Z (Qnum x)) in *. set (d := inject_Z (Zpos (Qden x))) in *.
    assert (Hd : 0 < d) by (unfold d; rewrite <- (Zlt_Qlt 0); reflexivity).
    apply Qle_shift_div_l; [exact Hd|].
    apply Qle_trans with (pow2 ln); [|exact Hn1].
    replace ln with ((ln - ld - 1) + Z.succ ld)%Z at 2 by lia.
    rewrite pow2_plus. rewrite Qmult_le_l by apply pow2_pos.
    apply Qlt_le_weak. exact Hd2.
Qed.

Lemma binade_upper (x : Q) : 0 < x -> x < pow2 (binade x + 1).
Proof.
  intros Hx. unfold binade.
  set (ln := Z.log2 (Qnum x)). set (ld := Z.log2 (Zpos (Qden x))).
  destruct (Qle_bool (pow2 (ln - ld)) x) eqn:E.
  - pose proof (Qnum_den_pos x Hx) as Hn.
    destruct (Z.log2_spec (Qnum x) Hn) as [_ Hn2]. fold ln in Hn2.
    destruct (Z.log2_spec (Zpos (Qden x)) (Pos2Z.is_pos _)) as [Hd1 _].
    fold ld in Hd1.
    assert (Hln : (0 <= ln)%Z) by apply Z.log2_nonneg.
    assert (Hld : (0 <= ld)%Z) by apply Z.log2_nonneg.
    rewrite Zlt_Qlt, pow2_Z in Hn2 by lia.
    rewrite Zle_Qle, pow2_Z in Hd1 by exact Hld.
    rewrite (Q_as_quotient x).
    set (n := inject_Z (Qnum x)) in *. set (d := inject_Z (Zpos (Qden x))) in *.
    assert (Hd : 0 < d) by (unfold d; rewrite <- (Zlt_Qlt 0); reflexivity).
    apply Qlt_shift_div_r; [exact Hd|].
    apply Qlt_le_trans with (pow2 (Z.succ ln)); [exact Hn2|].
    replace (Z.succ ln) with ((ln - ld + 1) + ld)%Z by lia.
    rewrite pow2_plus. rewrite Qmult_le_l by apply pow2_pos. exact Hd1.
  - replace (ln - ld - 1 + 1)%Z with (ln - ld)%Z by lia.
    apply Qnot_le_lt. intros H. apply Qle_bool_iff in H. congruence.
Qed.

Lemma binade_le (x : Q) (k : Z) :
  0 < x -> x < pow2 (k + 1) -> (binade x <= k)%Z.
Proof.
  intros Hx Hk. pose proof (binade_lower x Hx) as Hl.
  assert (H : (binade x < k + 1)%Z)
    by (apply pow2_lt_inv; apply Qle_lt_trans with x; assumption).
  lia.
Qed.


(** *** Rounding to binary64 *)

Lemma fl_zero (x : Q) : x == 0 -> fl x = 0.
Proof.
  intros H. unfold fl. apply Qeq_bool_iff in H. rewrite H. reflexivity.
Qed.

Lemma fl_value (x : Q) :
  ~ x == 0 ->
  fl x == inject_Z (round_half_even (x / pow2 (ulp_exponent x)))
          * pow2 (ulp_exponent x).
Proof.
  intros H. unfold fl.
  destruct (Qeq_bool x 0) eqn:E; [apply Qeq_bool_iff in E; contradiction|].
  cbv zeta. apply Qred_correct.
Qed.

Lemma fl_nonneg (x : Q) : 0 <= x -> 0 <= fl x.
Proof.
  intros Hx. destruct (Qeq_dec x 0) as [E|N].
  - rewrite (fl_zero x E). discriminate.
  - rewrite (fl_value x N). apply Qmult_le_0_compat.
    + change 0 with (inject_Z 0). rewrite <- Zle_Qle.
      apply round_half_even_ge. change (inject_Z 0) with 0.
      apply Qle_shift_div_l; [apply pow2_pos|]. lra.
    + apply Qlt_le_weak, pow2_pos.
Qed.

(** An integer bound on [x] is kept by [fl] when the last bit of the
    significand of [x] has a weight of at most one. *)
Lemma fl_le_int (x : Q) (b : Z) :
  0 < x -> x <= inject_Z b -> (ulp_exponent x <= 0)%Z ->
  fl x <= inject_Z b.
Proof.
  intros Hx Hb He. rewrite (fl_value x) by lra.
  set (e := ulp_exponent x) in *.
  pose proof (pow2_pos e) as Hp.
  pose proof (pow2_neg (- e) ltac:(lia)) as Hinv.
  replace (- - e)%Z with e in Hinv by lia.
  assert (Hk : (round_half_even (x / pow2 e) <= b * 2 ^ (- e))%Z).
  { apply round_half_even_le. rewrite inject_Z_mult.
    apply Qle_shift_div_r; [exact Hp|].
    rewrite <- Qmult_assoc, Hinv. lra. }
  rewrite Zle_Qle, inject_Z_mult in Hk.
  apply Qle_trans with (inject_Z b * inject_Z (2 ^ (- e)) * pow2 e).
  - apply Qmult_le_compat_r; [exact Hk | lra].
  - rewrite <- Qmult_assoc, Hinv. lra.
Qed.

Lemma ulp_exponent_le (x : Q) (k : Z) :
  ~ x == 0 -> Qabs x < pow2 (k + 1) -> (-1074 <= k - 52)%Z ->
  (ulp_exponent x <= k - 52)%Z.
Proof.
  intros Hx Hk Hmin. unfold ulp_exponent.
  assert (Ha : 0 < Qabs x).
  { destruct (Qlt_le_dec 0 (Qabs x)) as [H|H]; [exact H|].
    exfalso. apply Hx. apply Qabs_Qle_condition in H. lra. }
  pose proof (binade_le (Qabs x) k Ha Hk). lia.
Qed.

(** The rounding error is at most half the weight of the last bit. *)
Lemma fl_error (x : Q) :
  Qabs (fl x - x) <= pow2 (ulp_exponent x) * (1 # 2).
Proof.
  pose proof (pow2_pos (ulp_exponent x)) as Hp.
  destruct (Qeq_dec x 0) as [E|N].
  - rewrite (fl_zero x E). apply Qabs_Qle_condition. split; lra.
  - rewrite (fl_value x N). set (e := ulp_exponent x) in *.
    pose proof (round_half_even_near (x / pow2 e)) as Hn.
    apply Qabs_Qle_condition in Hn. destruct Hn as [H1 H2].
    set (k := inject_Z (round_half_even (x / pow2 e))) in *.
    assert (Hx : x == (x / pow2 e) * pow2 e) by (field; lra).
    set (y := x / pow2 e) in *.
    apply Qabs_Qle_condition. rewrite Hx. split; nra.
Qed.

(** The error of one rounding, relative to the size of the argument. *)
Lemma fl_error_rel (x : Q) :
  Qabs (fl x - x) <= Qabs x * pow2 (-53) + pow2 (-1075).
Proof.
  pose proof (Qabs_nonneg x) as Ha.
  pose proof (pow2_pos (-53)) as H53. pose proof (pow2_pos (-1075)) as Hs.
  assert (Hprod : 0 <= Qabs x * pow2 (-53))
    by (apply Qmult_le_0_compat; lra).
  destruct (Qeq_dec x 0) as [E|N].
  - rewrite (fl_zero x E). apply Qabs_Qle_condition. split; lra.
  - eapply Qle_trans; [apply fl_error|].
    assert (Hpos : 0 < Qabs x).
    { destruct (Qlt_le_dec 0 (Qabs x)) as [H|H]; [exact H|].
      exfalso. apply N. apply Qabs_Qle_condition in H. lra. }
    pose proof (binade_lower (Qabs x) Hpos) as Hl.
    unfold ulp_exponent.
    destruct (Z.max_spec (binade (Qabs x) - 52) (-1074)) as [[_ ->]|[_ ->]].
    + assert (H : pow2 (-1074) * (1 # 2) == pow2 (-1075)) by reflexivity.
      rewrite H. lra.
    + replace (binade (Qabs x) - 52)%Z with (binade (Qabs x) + -52)%Z by lia.
      rewrite pow2_plus.
      assert (H : pow2 (-52) * (1 # 2) == pow2 (-53)) by reflexivity.
      rewrite <- Qmult_assoc, H.
      assert (pow2 (binade (Qabs x)) * pow2 (-53) <= Qabs x * pow2 (-53))
        by (apply Qmult_le_compat_r; lra).
      lra.
Qed.


Lemma fl_between_int (x : Q) (b : Z) :
  0 <= x -> x <= inject_Z b -> (b < 2 ^ 53)%Z ->
  0 <= fl x /\ fl x <= inject_Z b.
Proof.
  intros H0 Hb Hsmall. split; [apply fl_nonneg, H0|].
  destruct (Qeq_dec x 0) as [E|N].
  - rewrite (fl_zero x E). rewrite E in Hb. exact Hb.
  - apply fl_le_int; [lra | exact Hb |].
    replace 0%Z with (52 - 52)%Z by lia.
    apply ulp_exponent_le; [exact N | | lia].
    rewrite Qabs_pos by exact H0.
    apply Qle_lt_trans with (inject_Z b); [exact Hb|].
    change (52 + 1)%Z with 53%Z. rewrite <- pow2_Z by lia.
    rewrite <- Zlt_Qlt. exact Hsmall.
Qed.

Lemma round2_between_int (x : Q) (b : Z) :
  0 <= x -> x <= inject_Z b -> (b < 2 ^ 53)%Z ->
  0 <= round2 x /\ round2 x <= inject_Z b.
Proof.
  intros H0 Hb Hsmall. unfold round2.
  assert (Hk : (0 <= round_half_even (x * 100) <= b * 100)%Z).
  { apply round_half_even_between.
    - change (inject_Z 0) with 0. lra.
    - rewrite inject_Z_mult. change (inject_Z 100) with 100. lra. }
  destruct Hk as [Hk0 Hk1].
  rewrite Zle_Qle in Hk0. rewrite Zle_Qle, inject_Z_mult in Hk1.
  change (inject_Z 0) with 0 in Hk0. change (inject_Z 100) with 100 in Hk1.
  set (k := inject_Z (round_half_even (x * 100))) in *.
  apply fl_between_int; [| |exact Hsmall].
  - apply Qle_shift_div_l; lra.
  - apply Qle_shift_div_r; lra.
Qed.

(** The value that [get_accuracy_rate] computes from the exact quotient
    [x], and its distance from [100 * x]: one half of a hundredth, and
    the rounding errors of binary64. *)
Lemma rounded_percentage_close (x : Q) :
  Qabs (round2 (fmul (fl x) 100) - x * 100)
  <= (1 # 200) + (Qabs (x * 100) + 1) * pow2 (-50).
Proof.
  unfold round2, fmul.
  set (x1 := fl x). set (y := fl (x1 * 100)).
  set (k := inject_Z (round_half_even (y * 100))).
  set (z := k / 100). set (q := fl z).
  pose proof (fl_error_rel x) as E1. fold x1 in E1.
  pose proof (fl_error_rel (x1 * 100)) as E2. fold y in E2.
  pose proof (round_half_even_near (y * 100)) as E3. fold k in E3.
  pose proof (fl_error_rel z) as E4. fold q in E4.
  assert (Hd : pow2 (-53) == 1 # 9007199254740992) by reflexivity.
  assert (Hd' : pow2 (-50) == 1 # 1125899906842624) by reflexivity.
  assert (He : pow2 (-1075) <= 1 # 1152921504606846976)
    by (apply Qle_bool_iff; vm_compute; reflexivity).
  pose proof (pow2_pos (-1075)) as He0.
  rewrite Hd in E1, E2, E4. rewrite Hd'. clear Hd Hd'.
  set (eta := pow2 (-1075)) in *.
  pose proof (Qle_Qabs (x * 100)) as A1.
  pose proof (Qle_Qabs (- (x * 100))) as A2. rewrite Qabs_opp in A2.
  set (A := Qabs (x * 100)) in *.
  assert (Ax : Qabs x <= A * (1 # 100))
    by (apply Qabs_Qle_condition; split; lra).
  apply Qabs_Qle_condition in E1. apply Qabs_Qle_condition in E3.
  assert (Ax1 : Qabs (x1 * 100)
                <= A + A * (1 # 9007199254740992) + 100 * eta)
    by (apply Qabs_Qle_condition; split; lra).
  apply Qabs_Qle_condition in E2.
  assert (Hz : z * 100 == k) by (unfold z; field).
  assert (Az : Qabs z
               <= A + A * (1 # 1000000000000000) + 200 * eta + (1 # 200))
    by (apply Qabs_Qle_condition; split; lra).
  apply Qabs_Qle_condition in E4.
  apply Qabs_Qle_condition. split; lra.
Qed.

End RoundingFacts.

(** ** The analytics accumulator: counters *)

Section CounterFacts.
Import Py Analytics.

Lemma run_snoc (start : Z) (ops : list op) (o : op) :
  run start (ops ++ [o]) = step (run start ops) o.
Proof. unfold run. rewrite fold_left_app. reflexivity. Qed.

Lemma len_snoc {A : Type} (l : list A) (x : A) : len (l ++ [x]) = len l + 1.
Proof. unfold len. rewrite length_app. cbn [List.length]. lia. Qed.

Lemma len_nonneg {A : Type} (l : list A) : 0 <= len l.
Proof. unfold len. lia. Qed.

Lemma sum_counts_incr (k : str) (d : dict) :
  sum_counts (dict_incr k d) = sum_counts d + 1.
Proof.
  induction d as [|[k' v] d IH]; cbn [dict_incr sum_counts fold_right snd].
  - lia.
  - destruct (str_eqb k' k); cbn [sum_counts fold_right snd] in *.
    + lia.
    + fold (sum_counts (dict_incr k d)). fold (sum_counts d). lia.
Qed.

Lemma counters_agree_init (now : Z) : counters_agree (init now).
Proof. repeat split. reflexivity. Qed.

Lemma counters_agree_step (t : AnalyticsTracker) (o : op) :
  counters_agree t -> counters_agree (step t o).
Proof.
  intros [Hc [Hs Ht]]. destruct o as [|now o c k|now]; cbn [step].
  - repeat split; assumption || (cbn [log_message total_messages]; lia).
  - unfold log_mistake, counters_agree.
    cbn [corrections_made mistakes mistake_categories total_messages].
    rewrite len_snoc, sum_counts_incr. repeat split; lia.
  - apply counters_agree_init.
Qed.

Lemma counters_agree_run (start : Z) (ops : list op) :
  counters_agree (run start ops).
Proof.
  induction ops as [|o ops IH] using rev_ind.
  - apply counters_agree_init.
  - rewrite run_snoc. apply counters_agree_step, IH.
Qed.

(** C10: in the initial state and after every sequence of
    [log_message], [log_mistake] and [reset_session] calls,
    [corrections_made] equals the length of [mistakes], which equals the
    sum of the per-category counts. *)
Theorem corrections_mistakes_categories_agree (start : Z) (ops : list op) :
  let t := run start ops in
  corrections_made t = len (mistakes t) /\
  len (mistakes t) = sum_counts (mistake_categories t).
Proof.
  cbv zeta. destruct (counters_agree_run start ops) as [H1 [H2 _]].
  split; assumption.
Qed.

End CounterFacts.

(** ** The analytics accumulator: accuracy *)

Section AccuracyFacts.
Import Py Analytics.
Local Open Scope Q_scope.

(** The value computed by the code when there is a message. *)
Lemma get_accuracy_rate_nonzero (t : AnalyticsTracker) :
  total_messages t <> 0%Z ->
  get_accuracy_rate t = Returns (round2 (accuracy_binary64 t)).
Proof.
  intros Hn. unfold get_accuracy_rate, true_div, bind.
  destruct (Z.eqb_spec (total_messages t) 0) as [E|_]; [contradiction|].
  reflexivity.
Qed.

Lemma accuracy_formula_quotient (t : AnalyticsTracker) :
  total_messages t <> 0%Z ->
  accuracy_formula t
  == inject_Z (total_messages t - len (mistakes t))
     / inject_Z (total_messages t) * 100.
Proof.
  intros Hn. unfold accuracy_formula. field.
  intros H. apply Hn. apply inject_Z_injective. exact H.
Qed.

Lemma accuracy_quotient_range (t : AnalyticsTracker) :
  (0 < total_messages t)%Z ->
  (0 <= len (mistakes t) <= total_messages t)%Z ->
  0 <= inject_Z (total_messages t - len (mistakes t))
       / inject_Z (total_messages t)
  /\ inject_Z (total_messages t - len (mistakes t))
      / inject_Z (total_messages t) <= 1.
Proof.
  intros Ht [Hm0 Hm].
  set (n := total_messages t) in *. set (m := len (mistakes t)) in *.
  assert (Hn : inject_Z 0 < inject_Z n) by (rewrite <- Zlt_Qlt; exact Ht).
  assert (Hd : inject_Z 0 <= inject_Z (n - m)) by (rewrite <- Zle_Qle; lia).
  change (inject_Z 0) with 0 in Hn, Hd.
  assert (Hu : inject_Z (n - m) <= inject_Z n)
    by (rewrite <- Zle_Qle; lia).
  split.
  - apply Qle_shift_div_l; [exact Hn|]. lra.
  - apply Qle_shift_div_r; [exact Hn|]. lra.
Qed.

(** With no more mistake records than messages the rate is a
    percentage. *)
Lemma get_accuracy_rate_range (t : AnalyticsTracker) :
  (0 <= total_messages t)%Z ->
  (len (mistakes t) <= total_messages t)%Z ->
  exists q : Q,
    get_accuracy_rate t = Returns q /\ (0 <= q /\ q <= 100).
Proof.
  intros Ht Hm.
  destruct (Z.eq_dec (total_messages t) 0) as [E0|N0].
  - exists 100. unfold get_accuracy_rate. rewrite E0.
    split; [reflexivity|]. split; discriminate.
  - exists (round2 (accuracy_binary64 t)).
    split; [apply get_accuracy_rate_nonzero; exact N0|].
    destruct (accuracy_quotient_range t) as [Hlo Hhi];
      [lia | split; [apply len_nonneg | exact Hm] |].
    unfold accuracy_binary64, fmul.
    destruct (fl_between_int _ 1 Hlo Hhi) as [H1 H2]; [reflexivity|].
    change (inject_Z 1) with 1 in H2.
    destruct (fl_between_int
                (fl (inject_Z (total_messages t - len (mistakes t))
                     / inject_Z (total_messages t)) * 100) 100)
      as [H3 H4]; [lra | change (inject_Z 100) with 100; lra | reflexivity|].
    apply (round2_between_int _ 100); [exact H3 | exact H4 | reflexivity].
Qed.

(** The code agrees with Python at a point where exact arithmetic would
    not: 93 of 160 messages without a mistake give 58.13, the float
    nearest to it, because the product [58.125000000000007] lies above
    the tie. *)
Example accuracy_rate_160_67 :
  round2 (fmul (fl (93 # 160)) 100) = 8181070198095217 # 140737488355328.
Proof. vm_compute. reflexivity. Qed.

(** C2 as stated fails twice.  After one message and two mistake
    records the rate is [-100.0], outside [[0,100]]; after three messages
    and one mistake record it is the float [66.67], the formula's value
    rounded to two decimals and not the formula's [200/3]. *)
Lemma get_accuracy_rate_not_formula_in_range :
  let m := LogMistake 0 (lit "a") (lit "b") (lit "grammar") in
  get_accuracy_rate (run 0 [LogMessage; m; m]) = Returns (-100 # 1) /\
  ~ (0 <= -100 # 1) /\
  get_accuracy_rate (run 0 [LogMessage; LogMessage; LogMessage; m])
  = Returns (4691484174324859 # 70368744177664) /\
  accuracy_formula (run 0 [LogMessage; LogMessage; LogMessage; m])
  == 200 # 3 /\
  ~ (4691484174324859 # 70368744177664 == 200 # 3).
Proof.
  cbv zeta. split; [vm_compute; reflexivity|].
  split; [intros H; vm_compute in H; apply H; reflexivity|].
  split; [vm_compute; reflexivity|].
  split; [vm_compute; reflexivity|].
  intros H; vm_compute in H; discriminate.
Qed.

(** C2, amended: in every state reached by [log_message],
    [log_mistake] and [reset_session] calls, [get_accuracy_rate] returns
    a float and raises no division error; the float is exactly [100.0]
    when [total_messages] is zero, and otherwise it is
    [100 * (total_messages - mistake records) / total_messages], computed
    in binary64, rounded to two decimals: it differs from the exact value
    [F] of that formula by at most [0.005 + (|F| + 1) / 2^50]; it lies in
    [[0,100]] whenever there are no more mistake records than
    messages. *)
Theorem get_accuracy_rate_rounded (start : Z) (ops : list op) :
  let t := run start ops in
  exists q : Q,
    get_accuracy_rate t = Returns q /\
    (total_messages t = 0%Z -> q = 100) /\
    (total_messages t <> 0%Z ->
     q = round2 (accuracy_binary64 t) /\
     Qabs (q - accuracy_formula t)
     <= (1 # 200) + (Qabs (accuracy_formula t) + 1) * pow2 (-50)) /\
    ((len (mistakes t) <= total_messages t)%Z -> 0 <= q /\ q <= 100).
Proof.
  cbv zeta. set (t := run start ops).
  destruct (counters_agree_run start ops) as [_ [_ Hpos]]. fold t in Hpos.
  destruct (Z.eq_dec (total_messages t) 0) as [E0|N0].
  - exists 100. unfold get_accuracy_rate. rewrite E0. cbn [Z.eqb].
    repeat split; try reflexivity; try contradiction; discriminate.
  - exists (round2 (accuracy_binary64 t)).
    split; [apply get_accuracy_rate_nonzero; exact N0|].
    split; [contradiction|]. split.
    + intros _. split; [reflexivity|].
      rewrite (accuracy_formula_quotient t N0).
      apply rounded_percentage_close.
    + intros Hm.
      destruct (get_accuracy_rate_range t Hpos Hm) as [q [Hq Hr]].
      rewrite (get_accuracy_rate_nonzero t N0) in Hq.
      injection Hq as <-. exact Hr.
Qed.

Lemma get_accuracy_rate_rounded_witness :
  let t := run 0 [LogMessage; LogMessage; LogMessage;
                  LogMistake 0 (lit "a") (lit "b") (lit "grammar")] in
  exists q : Q,
    get_accuracy_rate t = Returns q /\
    q = round2 (accuracy_binary64 t) /\ 0 <= q /\ q <= 100.
Proof.
  cbv zeta.
  destruct (get_accuracy_rate_rounded 0
              [LogMessage; LogMessage; LogMessage;
               LogMistake 0 (lit "a") (lit "b") (lit "grammar")])
    as [q [Hq [_ [Hn Hr]]]].
  exists q. split; [exact Hq|].
  split; [apply Hn; vm_compute; discriminate|].
  apply Hr; vm_compute; discriminate.
Defined.

End AccuracyFacts.

(** ** The analytics accumulator: the most common categories *)

Section SortingFacts.
Import Py Analytics.

Lemma insert_desc_perm (x : str * Z) (l : list (str * Z)) :
  Permutation (x :: l) (insert_desc x l).
Proof.
  induction l as [|y l IH]; cbn [insert_desc]; [reflexivity|].
  destruct (snd y <=? snd x); [reflexivity|].
  rewrite perm_swap. apply perm_skip, IH.
Qed.

Lemma sorted_by_count_desc_perm (items : list (str * Z)) :
  Permutation items (sorted_by_count_desc items).
Proof.
  induction items as [|x items IH]; [reflexivity|].
  cbn [sorted_by_count_desc fold_right].
  rewrite <- insert_desc_perm. apply perm_skip, IH.
Qed.

Lemma insert_desc_hd (x y : str * Z) (l : list (str * Z)) :
  HdRel count_desc y l -> snd x < snd y ->
  HdRel count_desc y (insert_desc x l).
Proof.
  intros Hl Hxy. destruct l as [|z l]; cbn [insert_desc].
  - constructor. unfold count_desc. lia.
  - destruct (snd z <=? snd x).
    + constructor. unfold count_desc. lia.
    + constructor. inversion Hl; assumption.
Qed.

Lemma insert_desc_sorted (x : str * Z) (l : list (str * Z)) :
  Sorted count_desc l -> Sorted count_desc (insert_desc x l).
Proof.
  induction 1 as [|y l Hs IH Hhd]; cbn [insert_desc].
  - repeat constructor.
  - destruct (Z.leb_spec (snd y) (snd x)) as [Hle|Hgt].
    + constructor; [constructor; assumption|]. constructor. exact Hle.
    + constructor; [exact IH|]. apply insert_desc_hd; assumption.
Qed.

Lemma sorted_by_count_desc_sorted (items : list (str * Z)) :
  Sorted count_desc (sorted_by_count_desc items).
Proof.
  induction items as [|x items IH]; [constructor|].
  cbn [sorted_by_count_desc fold_right]. apply insert_desc_sorted, IH.
Qed.

(** Insertion does not reorder the items of any one count. *)
Lemma insert_desc_with_count (c : Z) (x : str * Z) (l : list (str * Z)) :
  with_count c (insert_desc x l) = with_count c (x :: l).
Proof.
  unfold with_count. induction l as [|y l IH]; cbn [insert_desc];
    [reflexivity|].
  destruct (Z.leb_spec (snd y) (snd x)) as [Hle|Hgt]; [reflexivity|].
  cbn [filter] in *. rewrite IH.
  destruct (Z.eqb_spec (snd x) c) as [Ex|Nx];
    destruct (Z.eqb_spec (snd y) c) as [Ey|Ny]; try reflexivity.
  lia.
Qed.

(** The sort is stable: items of equal count keep the order in which
    the dict lists them, the order of first insertion. *)
Lemma sorted_by_count_desc_stable (c : Z) (items : list (str * Z)) :
  with_count c (sorted_by_count_desc items) = with_count c items.
Proof.
  induction items as [|x items IH]; [reflexivity|].
  cbn [sorted_by_count_desc fold_right].
  rewrite insert_desc_with_count. fold (sorted_by_count_desc items).
  unfold with_count in *. cbn [filter]. rewrite IH. reflexivity.
Qed.

Lemma with_count_head (x : str * Z) (l : list (str * Z)) :
  with_count (snd x) (x :: l) = x :: with_count (snd x) l.
Proof. unfold with_count. cbn [filter]. rewrite Z.eqb_refl. reflexivity. Qed.

Lemma with_count_In (c : Z) (x : str * Z) (l : list (str * Z)) :
  In x (with_count c l) -> In x l.
Proof. unfold with_count. intros H. apply filter_In in H. apply H. Qed.

Lemma count_desc_head_max (x y : str * Z) (l : list (str * Z)) :
  Sorted count_desc (x :: l) -> In y (x :: l) -> snd y <= snd x.
Proof.
  intros Hs Hin. apply Sorted_StronglySorted in Hs.
  - apply StronglySorted_inv in Hs. destruct Hs as [_ Hall].
    destruct Hin as [<- | Hin]; [lia|].
    rewrite Forall_forall in Hall. apply Hall, Hin.
  - intros u v w Huv Hvw. unfold count_desc in *. lia.
Qed.

(** A stable descending sort has one possible result: two lists sorted by
    count, largest first, that list the items of every count in the same
    order are the same list.  So [sorted_by_count_desc] returns what any
    stable sort, Python's included, returns. *)
Lemma stable_sort_unique (l1 l2 : list (str * Z)) :
  Sorted count_desc l1 -> Sorted count_desc l2 ->
  (forall c : Z, with_count c l1 = with_count c l2) ->
  l1 = l2.
Proof.
  revert l2. induction l1 as [|x l1 IH]; intros l2 H1 H2 Heq.
  - destruct l2 as [|y l2]; [reflexivity|].
    specialize (Heq (snd y)). rewrite with_count_head in Heq. discriminate.
  - destruct l2 as [|y l2].
    { specialize (Heq (snd x)). rewrite with_count_head in Heq.
      discriminate. }
    assert (Hxy : x = y).
    { destruct (Z.eq_dec (snd x) (snd y)) as [E|N].
      - pose proof (Heq (snd x)) as H. rewrite with_count_head in H.
        rewrite E in H. rewrite with_count_head in H.
        injection H as H _. exact H.
      - exfalso.
        assert (Hx : In x (y :: l2)).
        { apply (with_count_In (snd x)). rewrite <- Heq.
          rewrite with_count_head. left; reflexivity. }
        assert (Hy : In y (x :: l1)).
        { apply (with_count_In (snd y)). rewrite Heq.
          rewrite with_count_head. left; reflexivity. }
        pose proof (count_desc_head_max _ _ _ H2 Hx).
        pose proof (count_desc_head_max _ _ _ H1 Hy). lia. }
    subst y. f_equal. apply IH.
    + inversion H1; assumption.
    + inversion H2; assumption.
    + intros c. specialize (Heq c). unfold with_count in *.
      cbn [filter] in Heq. destruct (snd x =? c); [|exact Heq].
      injection Heq as Heq. exact Heq.
Qed.

Example ties_keep_insertion_order :
  sorted_by_count_desc
    [(lit "spelling", 1); (lit "grammar", 2); (lit "vocabulary", 1);
     (lit "tense", 2)]
  = [(lit "grammar", 2); (lit "tense", 2); (lit "spelling", 1);
     (lit "vocabulary", 1)].
Proof. reflexivity. Qed.

(** A key that is new to the dict goes to its end; a known key keeps
    its place. *)
Lemma dict_incr_keys (k : str) (d : dict) :
  map fst (dict_incr k d)
  = if existsb (str_eqb k) (map fst d) then map fst d
    else map fst d ++ [k].
Proof.
  induction d as [|[k' v] d IH]; cbn [dict_incr map fst existsb app];
    [reflexivity|].
  destruct (str_eqb k' k) eqn:E.
  - apply str_eqb_eq in E. subst k'. rewrite str_eqb_refl. reflexivity.
  - assert (E' : str_eqb k k' = false).
    { apply str_eqb_neq. apply str_eqb_neq in E. congruence. }
    rewrite E'. cbn [orb map fst]. rewrite IH.
    destruct (existsb (str_eqb k) (map fst d)); reflexivity.
Qed.

Lemma slice_to_nonneg {A : Type} (n : Z) (l : list A) :
  0 <= n -> slice_to n l = firstn (Z.to_nat n) l.
Proof.
  intros Hn. unfold slice_to, slice_bound.
  destruct (Z.ltb_spec n 0) as [Hlt|_]; [lia|].
  destruct (Z.le_ge_cases n (Z.of_nat (List.length l))) as [Hle|Hge].
  - rewrite Z.min_l by exact Hle. reflexivity.
  - rewrite Z.min_r by exact Hge. rewrite Nat2Z.id.
    rewrite firstn_all. symmetry. apply firstn_all2. lia.
Qed.

End SortingFacts.

Ltac two_categories_done :=
  repeat split; try lia; try reflexivity; try (repeat f_equal; lia).

Ltac two_categories_case :=
  first
    [ solve [left; two_categories_done]
    | solve [right; left; two_categories_done]
    | solve [right; right; left; two_categories_done]
    | solve [right; right; right;
             split; [lia | split; [lia | left; two_categories_done]]]
    | solve [right; right; right;
             split; [lia | split; [lia | right; two_categories_done]]] ].

Section TwoCategories.
Import Py Analytics.

Variables a b : str.
Hypothesis a_neq_b : a <> b.

Lemma count_category_snoc (c : str) (ops : list op) (o : op) :
  count_category c (ops ++ [o])
  = count_category c ops + (if logs_category c o then 1 else 0).
Proof.
  unfold count_category. rewrite filter_app. cbn [filter].
  destruct (logs_category c o).
  - apply len_snoc.
  - rewrite app_nil_r. lia.
Qed.

Lemma count_category_nonneg (c : str) (ops : list op) :
  0 <= count_category c ops.
Proof. apply len_nonneg. Qed.

(** The dict after a sequence of [log_mistake] calls that use two
    categories only: each category met so far carries the number of its
    calls, and the one met first stands first. *)
Lemma two_categories_dict (start : Z) (ops : list op) :
  only_mistakes_of a b ops ->
  let k := count_category a ops in
  let m := count_category b ops in
  let d := mistake_categories (run start ops) in
  (k = 0 /\ m = 0 /\ d = []) \/
  (0 < k /\ m = 0 /\ d = [(a, k)]) \/
  (k = 0 /\ 0 < m /\ d = [(b, m)]) \/
  (0 < k /\ 0 < m /\ (d = [(a, k); (b, m)] \/ d = [(b, m); (a, k)])).
Proof.
  assert (Eab : str_eqb a b = false) by (apply str_eqb_neq; exact a_neq_b).
  assert (Eba : str_eqb b a = false)
    by (apply str_eqb_neq; congruence).
  pose proof (str_eqb_refl a) as Eaa. pose proof (str_eqb_refl b) as Ebb.
  induction ops as [|o ops IH] using rev_ind; intros Hall; cbv zeta.
  - left. repeat split.
  - unfold only_mistakes_of in Hall. apply Forall_app in Hall.
    destruct Hall as [Hops Ho]. specialize (IH Hops). cbv zeta in IH.
    inversion Ho as [|o' l' Hcat _]; subst o' l'.
    rewrite run_snoc, !count_category_snoc.
    destruct o as [|now orig corr c|now]; cbn [logs_category] in Hcat;
      try (destruct Hcat; discriminate).
    cbn [step log_mistake mistake_categories logs_category].
    assert (Hc : c = a \/ c = b)
      by (destruct Hcat as [H|H]; apply str_eqb_eq in H; auto).
    remember (count_category a ops) as k eqn:Dk.
    remember (count_category b ops) as m eqn:Dm.
    clear Dk Dm Hops Ho Hcat.
    destruct Hc as [-> | ->]; rewrite ?Eaa, ?Ebb, ?Eab, ?Eba;
      destruct IH as [[Hk [Hm ->]] | [[Hk [Hm ->]] | [[Hk [Hm ->]]
                     | [Hk [Hm [-> | ->]]]]]];
      cbn [dict_incr]; rewrite ?Eaa, ?Ebb, ?Eab, ?Eba;
      two_categories_case.
Qed.

End TwoCategories.


Section OrderFacts.
Import Py Analytics.

Lemma sorted_prefix_dominates (l1 l2 : list (str * Z)) (x y : str * Z) :
  Sorted count_desc (l1 ++ l2) -> In x l1 -> In y l2 -> snd y <= snd x.
Proof.
  intros Hs Hx Hy. apply Sorted_StronglySorted in Hs.
  - induction l1 as [|a l1 IH]; [destruct Hx|].
    cbn [app] in Hs. apply StronglySorted_inv in Hs.
    destruct Hs as [Hs Hall]. destruct Hx as [<- | Hx]; [|apply IH; assumption].
    rewrite Forall_forall in Hall. apply Hall.
    apply in_or_app. right; exact Hy.
  - intros u v w Huv Hvw. unfold count_desc in *. lia.
Qed.

Lemma before_In {A : Type} (x y : A) (l : list A) :
  before x y l -> In x l /\ In y l.
Proof.
  intros [l1 [l2 [l3 ->]]]. split.
  - apply in_or_app. right. left. reflexivity.
  - apply in_or_app. right. right. apply in_or_app. right. left. reflexivity.
Qed.

Lemma before_snoc_inv {A : Type} (x y k : A) (l : list A) :
  before x y (l ++ [k]) -> before x y l \/ (In x l /\ y = k).
Proof.
  intros [l1 [l2 [l3 H]]].
  destruct (exists_last (l:=y :: l3) ltac:(discriminate)) as [m [z Hm]].
  destruct m as [|y' m].
  - cbn [app] in Hm. injection Hm as -> ->.
    change (l1 ++ x :: l2 ++ [z]) with (l1 ++ (x :: l2) ++ [z]) in H.
    rewrite app_assoc in H. apply app_inj_tail in H. destruct H as [-> ->].
    right. split; [|reflexivity]. apply in_or_app. right. left. reflexivity.
  - cbn [app] in Hm. injection Hm as <- ->.
    left. exists l1, l2, m.
    assert (E : l1 ++ x :: l2 ++ y :: m ++ [z]
                = (l1 ++ x :: l2 ++ y :: m) ++ [z]).
    { rewrite <- !app_assoc. cbn [app]. rewrite <- !app_assoc. reflexivity. }
    rewrite E in H. apply app_inj_tail in H. apply H.
Qed.

Lemma before_prefix {A : Type} (x y : A) (l l' : list A) :
  before x y l -> before x y (l ++ l').
Proof.
  intros [l1 [l2 [l3 ->]]]. exists l1, l2, (l3 ++ l').
  rewrite <- !app_assoc. cbn [app]. rewrite <- !app_assoc. reflexivity.
Qed.

Lemma before_cons {A : Type} (x y a : A) (l : list A) :
  before x y l -> before x y (a :: l).
Proof. intros [l1 [l2 [l3 ->]]]. exists (a :: l1), l2, l3. reflexivity. Qed.

Lemma before_map {A B : Type} (g : A -> B) (x y : A) (l : list A) :
  before x y l -> before (g x) (g y) (map g l).
Proof.
  intros [l1 [l2 [l3 ->]]]. exists (map g l1), (map g l2), (map g l3).
  rewrite map_app. cbn [map]. rewrite map_app. reflexivity.
Qed.

Lemma before_filter {A : Type} (f : A -> bool) (x y : A) (l : list A) :
  f x = true -> f y = true -> before x y l -> before x y (filter f l).
Proof.
  intros Hx Hy [l1 [l2 [l3 ->]]].
  exists (filter f l1), (filter f l2), (filter f l3).
  rewrite filter_app. cbn [filter]. rewrite Hx, filter_app. cbn [filter].
  rewrite Hy. reflexivity.
Qed.

Lemma before_filter_inv {A : Type} (f : A -> bool) (x y : A) (l : list A) :
  before x y (filter f l) -> before x y l.
Proof.
  induction l as [|a l IH]; cbn [filter].
  - intros [l1 [l2 [l3 H]]]. destruct l1; discriminate.
  - destruct (f a) eqn:Ea.
    + intros [l1 [l2 [l3 H]]]. destruct l1 as [|b l1]; cbn [app] in H.
      * injection H as -> H.
        assert (Hy : In y (filter f l))
          by (rewrite H; apply in_or_app; right; left; reflexivity).
        apply filter_In in Hy. destruct Hy as [Hy _].
        apply in_split in Hy. destruct Hy as [p [q ->]].
        exists [], p, q. reflexivity.
      * injection H as _ H. apply before_cons, IH.
        exists l1, l2, l3. exact H.
    + intros H. apply before_cons, IH, H.
Qed.

Lemma sorted_before (x y : str * Z) (l : list (str * Z)) :
  Sorted count_desc l -> before x y l -> snd y <= snd x.
Proof.
  intros Hs [l1 [l2 [l3 E]]]. subst l.
  change (l1 ++ x :: l2 ++ y :: l3) with (l1 ++ [x] ++ l2 ++ y :: l3) in Hs.
  rewrite app_assoc in Hs.
  apply (sorted_prefix_dominates _ _ x y Hs).
  - apply in_or_app. right. left. reflexivity.
  - apply in_or_app. right. left. reflexivity.
Qed.

Lemma first_position_in (a : str) (l m : list str) :
  In a l -> first_position a (l ++ m) = first_position a l.
Proof.
  induction l as [|c l IH]; [intros []|]. cbn [app first_position].
  destruct (str_eqb c a) eqn:E; [reflexivity|].
  intros [H | H].
  - subst c. rewrite str_eqb_refl in E. discriminate.
  - rewrite IH by exact H. reflexivity.
Qed.

Lemma first_position_not_in (a : str) (l m : list str) :
  ~ In a l ->
  first_position a (l ++ m) = (List.length l + first_position a m)%nat.
Proof.
  induction l as [|c l IH]; [reflexivity|]. cbn [app first_position].
  intros H. destruct (str_eqb c a) eqn:E.
  - apply str_eqb_eq in E. subst c. exfalso. apply H. left; reflexivity.
  - rewrite IH by (intros Hin; apply H; right; exact Hin). reflexivity.
Qed.

Lemma first_position_lt (a : str) (l : list str) :
  In a l -> (first_position a l < List.length l)%nat.
Proof.
  induction l as [|c l IH]; [intros []|]. cbn [first_position List.length].
  destruct (str_eqb c a) eqn:E; [lia|].
  intros [H | H].
  - subst c. rewrite str_eqb_refl in E. discriminate.
  - apply IH in H. lia.
Qed.

Lemma logged_categories_snoc (ops : list op) (o : op) :
  logged_categories (ops ++ [o]) = logged_step (logged_categories ops) o.
Proof. unfold logged_categories. rewrite fold_left_app. reflexivity. Qed.

(** The keys of the dict are the categories logged since the last reset,
    and a key stands before another exactly as its first occurrence in the
    calls comes before the other's. *)
Lemma keys_in_first_occurrence_order (start : Z) (ops : list op) :
  let keys := map fst (mistake_categories (run start ops)) in
  let logged := logged_categories ops in
  (forall a : str, In a keys <-> In a logged) /\
  (forall a b : str,
     before a b keys ->
     (first_position a logged < first_position b logged)%nat).
Proof.
  cbv zeta. induction ops as [|o ops IH] using rev_ind.
  - split; [intros a; reflexivity|].
    intros a b [l1 [l2 [l3 H]]]. destruct l1; discriminate.
  - rewrite run_snoc, logged_categories_snoc. destruct IH as [IHin IHord].
    destruct o as [|now orig corr k|now]; cbn [step logged_step].
    + split; assumption.
    + cbn [log_mistake mistake_categories]. rewrite dict_incr_keys.
      set (keys := map fst (mistake_categories (run start ops))) in *.
      set (logged := logged_categories ops) in *.
      destruct (existsb (str_eqb k) keys) eqn:E.
      * apply existsb_str_eqb_In in E. split.
        -- intros a. rewrite in_app_iff, IHin. cbn [In]. split; [auto|].
           intros [H | [<- | []]]; [exact H | apply IHin, E].
        -- intros a b Hab. destruct (before_In _ _ _ Hab) as [Ha Hb].
           rewrite !first_position_in by (apply IHin; assumption).
           apply IHord, Hab.
      * assert (Hk : ~ In k logged).
        { intros H. apply IHin in H. apply existsb_str_eqb_In in H.
          congruence. }
        split.
        -- intros a. rewrite !in_app_iff, IHin. reflexivity.
        -- intros a b Hab. apply before_snoc_inv in Hab.
           destruct Hab as [Hab | [Ha ->]].
           ++ destruct (before_In _ _ _ Hab) as [Ha Hb].
              rewrite !first_position_in by (apply IHin; assumption).
              apply IHord, Hab.
           ++ apply IHin in Ha.
              rewrite (first_position_in a) by exact Ha.
              rewrite (first_position_not_in k) by exact Hk.
              pose proof (first_position_lt a logged Ha). lia.
    + cbn [reset_session mistake_categories map]. split.
      * intros a. reflexivity.
      * intros a b [l1 [l2 [l3 H]]]. destruct l1; discriminate.
Qed.

End OrderFacts.

Section CommonMistakes.
Import Py Analytics.

Lemma grammar_neq_vocabulary : lit "grammar" <> lit "vocabulary".
Proof. discriminate. Qed.

(** With more calls for [a] than for [b], the category [a] comes out
    first, whichever of the two was met first. *)
Lemma two_categories_top (a b : str) (start : Z) (ops : list op) :
  a <> b ->
  only_mistakes_of a b ops ->
  count_category b ops < count_category a ops ->
  get_common_mistakes (run start ops) 1 = [(a, count_category a ops)].
Proof.
  intros Hab Hall Hlt.
  pose proof (two_categories_dict a b Hab start ops Hall) as H.
  cbv zeta in H. unfold get_common_mistakes.
  rewrite slice_to_nonneg by lia. change (Z.to_nat 1) with 1%nat.
  remember (count_category a ops) as k eqn:Dk.
  remember (count_category b ops) as m eqn:Dm.
  pose proof (count_category_nonneg b ops) as Hm0. rewrite <- Dm in Hm0.
  clear Dk Dm.
  destruct H as [[Hk [Hm _]] | [[Hk [Hm ->]] | [[Hk [Hm _]]
               | [Hk [Hm [-> | ->]]]]]]; try lia.
  - reflexivity.
  - cbn [sorted_by_count_desc fold_right insert_desc snd].
    destruct (Z.leb_spec m k); [reflexivity | lia].
  - cbn [sorted_by_count_desc fold_right insert_desc snd].
    destruct (Z.leb_spec k m); [lia | reflexivity].
Qed.

Lemma logged_from_head (b : str) (rest : list op) (acc : list str) :
  Forall (fun o => forall now, o <> ResetSession now) rest ->
  exists tail : list str,
    fold_left logged_step rest (b :: acc) = b :: tail.
Proof.
  revert acc. induction rest as [|o rest IH]; intros acc Hall.
  - exists acc. reflexivity.
  - inversion Hall as [|o' l' Ho Hrest]; subst o' l'.
    destruct o as [|now orig corr k|now]; cbn [fold_left logged_step].
    + apply IH, Hrest.
    + change ((b :: acc) ++ [k]) with (b :: (acc ++ [k])). apply IH, Hrest.
    + exfalso. apply (Ho now). reflexivity.
Qed.

(** With as many calls for [a] as for [b], the category of the first
    call comes out first. *)
Lemma two_categories_tie (a b : str) (start : Z) (now : Z) (orig corr : str)
    (rest : list op) :
  a <> b ->
  let calls := LogMistake now orig corr b :: rest in
  only_mistakes_of a b calls ->
  count_category a calls = count_category b calls ->
  get_common_mistakes (run start calls) 2
  = [(b, count_category b calls); (a, count_category a calls)].
Proof.
  intros Hab calls Hall Heq.
  pose proof (two_categories_dict a b Hab start calls Hall) as H.
  cbv zeta in H.
  destruct (keys_in_first_occurrence_order start calls) as [_ Hord].
  cbv zeta in Hord.
  assert (Hhead : first_position b (logged_categories calls) = 0%nat).
  { destruct (logged_from_head b rest []) as [tail Ht].
    - unfold only_mistakes_of, calls in Hall.
      inversion Hall as [|o l _ Hrest]; subst o l.
      eapply Forall_impl; [|exact Hrest].
      intros o [Ho | Ho] now' ->; discriminate.
    - unfold logged_categories, calls. cbn [fold_left logged_step app].
      rewrite Ht. cbn [first_position]. rewrite str_eqb_refl. reflexivity. }
  assert (Hb1 : 0 < count_category b calls).
  { unfold calls. change (LogMistake now orig corr b :: rest)
      with ([LogMistake now orig corr b] ++ rest).
    unfold count_category. rewrite filter_app. cbn [filter logs_category].
    unfold logs_category at 1. rewrite str_eqb_refl.
    unfold len. cbn [app List.length]. lia. }
  unfold get_common_mistakes.
  rewrite slice_to_nonneg by lia. change (Z.to_nat 2) with 2%nat.
  remember (count_category a calls) as k eqn:Dk.
  remember (count_category b calls) as m eqn:Dm.
  destruct H as [[Hk [Hm _]] | [[Hk [Hm _]] | [[Hk [Hm _]]
               | [Hk [Hm [Hd | Hd]]]]]]; try lia.
  - exfalso. rewrite Hd in Hord. cbn [map fst] in Hord.
    assert (Hbef : before a b [a; b]) by (exists [], [], []; reflexivity).
    apply Hord in Hbef. lia.
  - rewrite Hd. cbn [sorted_by_count_desc fold_right insert_desc snd].
    destruct (Z.leb_spec k m); [reflexivity | lia].
Qed.

(** [get_common_mistakes] with a negative [n] does not limit the number
    of pairs: the slice [[:n]] then leaves out the last [-n] pairs. *)
Lemma get_common_mistakes_negative_n :
  let t := run 0 [LogMistake 0 (lit "a") (lit "b") (lit "grammar");
                  LogMistake 0 (lit "c") (lit "d") (lit "vocabulary")] in
  get_common_mistakes t (-1) = [(lit "grammar", 1)].
Proof. reflexivity. Qed.

(** C7: for every sequence of calls and every [n],
    [get_common_mistakes(n)] returns a prefix of the pairs
    (category, count) of the accumulator ranked by count, largest first;
    for a number of pairs [n >= 0] it is the first [n] of them, so at most
    [n] pairs.  Of two pairs that it returns, the one standing first has
    the larger count or, with equal counts, the category that was logged
    first since the last reset; a pair that it leaves out has no larger
    count than any pair returned.  After [k] mistakes of category grammar
    and [m] of category vocabulary, in any order, with [k > m],
    [get_common_mistakes(1)] is [[("grammar", k)]]; with [k = m] and
    vocabulary logged first, [get_common_mistakes(2)] lists vocabulary
    before grammar. *)
Theorem get_common_mistakes_top (start : Z) (ops : list op) (n : Z) :
  let t := run start ops in
  let ranked := sorted_by_count_desc (mistake_categories t) in
  let top := get_common_mistakes t n in
  (0 <= n ->
   len top <= n /\
   len top = Z.min n (len (mistake_categories t)) /\
   top = firstn (Z.to_nat n) ranked) /\
  (exists rest : list (str * Z), ranked = top ++ rest) /\
  Sorted count_desc ranked /\
  Permutation (mistake_categories t) ranked /\
  (forall c : Z, with_count c ranked = with_count c (mistake_categories t)) /\
  (forall x y : str * Z,
     before x y top ->
     snd y < snd x \/
     (snd y = snd x /\
      (first_position (fst x) (logged_categories ops)
       < first_position (fst y) (logged_categories ops))%nat)) /\
  (forall x y : str * Z,
     In x top -> In y (mistake_categories t) -> ~ In y top ->
     snd y <= snd x) /\
  (forall calls : list op,
     only_mistakes_of (lit "grammar") (lit "vocabulary") calls ->
     count_category (lit "vocabulary") calls
     < count_category (lit "grammar") calls ->
     get_common_mistakes (run start calls) 1
     = [(lit "grammar", count_category (lit "grammar") calls)]) /\
  (forall (now : Z) (orig corr : str) (rest : list op),
     let calls := LogMistake now orig corr (lit "vocabulary") :: rest in
     only_mistakes_of (lit "grammar") (lit "vocabulary") calls ->
     count_category (lit "grammar") calls
     = count_category (lit "vocabulary") calls ->
     get_common_mistakes (run start calls) 2
     = [(lit "vocabulary", count_category (lit "vocabulary") calls);
        (lit "grammar", count_category (lit "grammar") calls)]).
Proof.
  cbv zeta.
  set (t := run start ops).
  set (ranked := sorted_by_count_desc (mistake_categories t)).
  pose proof (sorted_by_count_desc_sorted (mistake_categories t)) as Hsorted.
  pose proof (sorted_by_count_desc_perm (mistake_categories t)) as Hperm.
  pose proof (sorted_by_count_desc_stable) as Hstable.
  fold ranked in Hsorted, Hperm.
  set (m := Z.to_nat (slice_bound (Z.of_nat (List.length ranked)) n)).
  assert (E : get_common_mistakes t n = firstn m ranked) by reflexivity.
  assert (Hlen : List.length ranked = List.length (mistake_categories t))
    by (symmetry; apply Permutation_length, Hperm).
  split.
  { intros Hn.
    assert (En : get_common_mistakes t n = firstn (Z.to_nat n) ranked).
    { unfold get_common_mistakes. apply slice_to_nonneg. exact Hn. }
    rewrite En.
    split; [unfold len; rewrite length_firstn; lia|].
    split; [unfold len; rewrite length_firstn, Hlen; lia | reflexivity]. }
  rewrite E.
  split; [exists (skipn m ranked); symmetry; apply firstn_skipn|].
  split; [exact Hsorted|]. split; [exact Hperm|].
  split; [intros c; apply Hstable|].
  split.
  { intros x y Hxy.
    assert (Hr : before x y ranked).
    { rewrite <- (firstn_skipn m ranked).
      apply before_prefix, Hxy. }
    pose proof (sorted_before x y ranked Hsorted Hr) as Hle.
    destruct (Z.eq_dec (snd y) (snd x)) as [Heq|Hne]; [|left; lia].
    right. split; [exact Heq|].
    destruct (keys_in_first_occurrence_order start ops) as [_ Hord].
    cbv zeta in Hord. fold t in Hord. apply Hord.
    apply (before_map fst).
    apply (before_filter_inv (fun kv => snd kv =? snd x)).
    fold (with_count (snd x) (mistake_categories t)).
    rewrite <- (Hstable (snd x) (mistake_categories t)). fold ranked.
    apply before_filter; [apply Z.eqb_refl | apply Z.eqb_eq, Heq | exact Hr]. }
  split.
  { intros x y Hx Hy Hny.
    apply (Permutation_in _ Hperm) in Hy.
    rewrite <- (firstn_skipn m ranked) in Hy, Hsorted.
    apply in_app_or in Hy. destruct Hy as [Hy | Hy]; [contradiction|].
    exact (sorted_prefix_dominates _ _ x y Hsorted Hx Hy). }
  split.
  { intros calls Hall Hlt.
    apply (two_categories_top _ (lit "vocabulary")); try assumption.
    apply grammar_neq_vocabulary. }
  intros now orig corr rest Hall Heq.
  exact (two_categories_tie (lit "grammar") (lit "vocabulary") start now
           orig corr rest grammar_neq_vocabulary Hall Heq).
Qed.

Lemma get_common_mistakes_top_witness :
  let g := LogMistake 0 (lit "a") (lit "b") (lit "grammar") in
  let v := LogMistake 0 (lit "c") (lit "d") (lit "vocabulary") in
  len (get_common_mistakes (run 0 [v; g; g]) 1) <= 1 /\
  get_common_mistakes (run 0 [v; g; g]) 1 = [(lit "grammar", 2)].
Proof.
  cbv zeta.
  destruct (get_common_mistakes_top 0
              [LogMistake 0 (lit "c") (lit "d") (lit "vocabulary");
               LogMistake 0 (lit "a") (lit "b") (lit "grammar");
               LogMistake 0 (lit "a") (lit "b") (lit "grammar")] 1)
    as [Hlen [_ [_ [_ [_ [_ [_ [Htop _]]]]]]]].
  split; [apply Hlen; lia|].
  apply Htop.
  - repeat (apply Forall_cons;
            [first [left; reflexivity | right; reflexivity]|]).
    apply Forall_nil.
  - vm_compute. reflexivity.
Defined.

End CommonMistakes.

(** ** The analytics accumulator: the session summary *)

Section SummaryFacts.
Import Py Analytics.

Lemma dict_incr_nodup (k : str) (d : dict) :
  NoDup (map fst d) -> NoDup (map fst (dict_incr k d)).
Proof.
  intros Hd. rewrite dict_incr_keys.
  destruct (existsb (str_eqb k) (map fst d)) eqn:E; [exact Hd|].
  apply NoDup_app; [exact Hd | repeat constructor; intros [] |].
  intros x Hx [<- | []].
  apply existsb_str_eqb_In in Hx. congruence.
Qed.

Lemma dict_get_incr (c k : str) (d : dict) :
  dict_get c (dict_incr k d)
  = if str_eqb k c
    then Some (match dict_get k d with Some v => v + 1 | None => 0 + 1 end)
    else dict_get c d.
Proof.
  induction d as [|[k' v] d IH]; cbn [dict_incr dict_get].
  - destruct (str_eqb k c); reflexivity.
  - destruct (str_eqb k' k) eqn:E; cbn [dict_get].
    + apply str_eqb_eq in E. subst k'.
      destruct (str_eqb k c); reflexivity.
    + rewrite IH. destruct (str_eqb k c) eqn:Ec.
      * apply str_eqb_eq in Ec. subst c. rewrite E. reflexivity.
      * reflexivity.
Qed.

Lemma recorded_snoc (c : str) (ms : list mistake) (m : mistake) :
  recorded c (ms ++ [m])
  = recorded c ms + (if str_eqb (category m) c then 1 else 0).
Proof.
  unfold recorded. rewrite filter_app. cbn [filter].
  destruct (str_eqb (category m) c).
  - apply len_snoc.
  - rewrite app_nil_r. lia.
Qed.

Lemma recorded_nonneg (c : str) (ms : list mistake) : 0 <= recorded c ms.
Proof. apply len_nonneg. Qed.

Lemma categories_recorded_init (now : Z) : categories_recorded (init now).
Proof. split; [constructor | intros c; reflexivity]. Qed.

Lemma categories_recorded_step (t : AnalyticsTracker) (o : op) :
  categories_recorded t -> categories_recorded (step t o).
Proof.
  intros [Hnd Hget]. destruct o as [|now orig corr k|now]; cbn [step].
  - split; assumption.
  - unfold log_mistake, categories_recorded.
    cbn [mistakes mistake_categories]. split; [apply dict_incr_nodup, Hnd|].
    intros c. rewrite dict_get_incr, recorded_snoc. cbn [category].
    destruct (str_eqb k c) eqn:E.
    + apply str_eqb_eq in E. subst c. rewrite Hget.
      pose proof (recorded_nonneg k (mistakes t)) as H0.
      destruct (Z.eqb_spec (recorded k (mistakes t)) 0) as [E0|N0];
        destruct (Z.eqb_spec (recorded k (mistakes t) + 1) 0); try lia.
      * rewrite E0. reflexivity.
      * reflexivity.
    + rewrite Z.add_0_r. apply Hget.
  - apply categories_recorded_init.
Qed.

Lemma categories_recorded_run (start : Z) (ops : list op) :
  categories_recorded (run start ops).
Proof.
  induction ops as [|o ops IH] using rev_ind.
  - apply categories_recorded_init.
  - rewrite run_snoc. apply categories_recorded_step, IH.
Qed.

Lemma dict_get_In (c : str) (n : Z) (d : dict) :
  dict_get c d = Some n -> In (c, n) d.
Proof.
  induction d as [|[k v] d IH]; cbn [dict_get]; [discriminate|].
  destruct (str_eqb k c) eqn:E.
  - apply str_eqb_eq in E. subst k. intros H. injection H as ->.
    left; reflexivity.
  - intros H. right. apply IH, H.
Qed.

Lemma In_dict_get (c : str) (n : Z) (d : dict) :
  NoDup (map fst d) -> In (c, n) d -> dict_get c d = Some n.
Proof.
  induction d as [|[k v] d IH]; cbn [map fst dict_get]; [intros _ []|].
  intros Hnd [E | Hin].
  - injection E as -> ->. rewrite str_eqb_refl. reflexivity.
  - inversion Hnd as [|x l Hk Hd]; subst x l.
    destruct (str_eqb k c) eqn:E.
    + apply str_eqb_eq in E. subst k. exfalso. apply Hk.
      change c with (fst (c, n)). apply in_map, Hin.
    + apply IH; assumption.
Qed.

Lemma dict_set_new (k : str) (v : Z) (d : dict) :
  ~ In k (map fst d) -> dict_set k v d = d ++ [(k, v)].
Proof.
  induction d as [|[k' v'] d IH]; cbn [dict_set map fst app];
    [reflexivity|].
  intros Hk. destruct (str_eqb k' k) eqn:E.
  - apply str_eqb_eq in E. subst k'. exfalso. apply Hk. left; reflexivity.
  - rewrite IH; [reflexivity|]. intros H. apply Hk. right; exact H.
Qed.

Lemma dict_of_items_from (acc pairs : list (str * Z)) :
  NoDup (map fst (acc ++ pairs)) ->
  fold_left (fun d kv => dict_set (fst kv) (snd kv) d) pairs acc
  = acc ++ pairs.
Proof.
  revert acc. induction pairs as [|[k v] pairs IH]; intros acc Hnd;
    cbn [fold_left fst snd].
  - rewrite app_nil_r. reflexivity.
  - rewrite dict_set_new.
    + rewrite IH; rewrite <- app_assoc; [reflexivity | exact Hnd].
    + rewrite map_app in Hnd. cbn [map fst] in Hnd.
      apply NoDup_remove_2 in Hnd. intros H. apply Hnd.
      apply in_or_app. left; exact H.
Qed.

(** [dict(pairs)] keeps a list of pairs with distinct keys as it is. *)
Lemma dict_of_items_nodup (pairs : list (str * Z)) :
  NoDup (map fst pairs) -> dict_of_items pairs = pairs.
Proof. intros H. unfold dict_of_items. apply dict_of_items_from, H. Qed.

Lemma firstn_nodup {A : Type} (n : nat) (l : list A) :
  NoDup l -> NoDup (firstn n l).
Proof.
  intros H. rewrite <- (firstn_skipn n l) in H.
  apply NoDup_app_remove_r in H. exact H.
Qed.

Lemma firstn_incl {A : Type} (n : nat) (l : list A) (x : A) :
  In x (firstn n l) -> In x l.
Proof.
  intros H. rewrite <- (firstn_skipn n l). apply in_or_app. left; exact H.
Qed.

End SummaryFacts.

Section SessionSummary.
Import Py Analytics.

Lemma get_common_mistakes_default (t : AnalyticsTracker) :
  categories_recorded t ->
  dict_of_items (get_common_mistakes t default_top_n)
  = firstn 5 (sorted_by_count_desc (mistake_categories t)).
Proof.
  intros [Hnd _]. unfold get_common_mistakes, default_top_n.
  rewrite slice_to_nonneg by lia. change (Z.to_nat 5) with 5%nat.
  apply dict_of_items_nodup. rewrite <- firstn_map. apply firstn_nodup.
  eapply Permutation_NoDup; [|exact Hnd].
  apply Permutation_map, sorted_by_count_desc_perm.
Qed.

(** C9 as stated fails: after one mistake in each of six categories the
    summary's histogram has five entries and none for the sixth
    category. *)
Lemma get_session_summary_omits_sixth_category :
  let log c := LogMistake 0 (lit "x") (lit "y") (lit c) in
  let t := run 0 [log "a"; log "b"; log "c"; log "d"; log "e"; log "f"]%string in
  exists s : Summary.t,
    get_session_summary t 0 = Returns s /\
    recorded (lit "f") (mistakes t) = 1 /\
    Summary.total_mistake_types s = 6 /\
    len (Summary.common_mistakes s) = 5 /\
    dict_get (lit "f") (Summary.common_mistakes s) = None.
Proof.
  cbv zeta. eexists. split; [vm_compute; reflexivity|].
  repeat split.
Qed.

Example session_duration_300ms :
  round2 (fdiv (total_seconds 0 300000) 60)
  = 5764607523034235 # 576460752303423488.
Proof. vm_compute. reflexivity. Qed.

(** C9, amended: in every state of the accumulator
    [get_session_summary] returns a summary with all derived fields: the
    two counters, the accuracy rate, the elapsed minutes computed in
    binary64 and rounded to two decimals, the number of distinct
    categories, and a histogram.  The histogram holds at most five
    categories, none twice, each with the number of mistakes recorded for
    it since the last reset, and they are the most frequent ones: a
    category that was recorded is in the histogram, or the histogram is
    full and each of its five entries has at least the count of that
    category.  So the histogram has an entry for every recorded category
    when there are at most five of them. *)
Theorem get_session_summary_fields (start : Z) (ops : list op) (now : Z) :
  let t := run start ops in
  exists s : Summary.t,
    get_session_summary t now = Returns s /\
    Summary.total_messages s = total_messages t /\
    Summary.corrections_made s = corrections_made t /\
    get_accuracy_rate t = Returns (Summary.accuracy_rate s) /\
    Summary.session_duration_minutes s
    = round2 (fdiv (total_seconds (session_start t) now) 60) /\
    Summary.total_mistake_types s = len (mistake_categories t) /\
    len (Summary.common_mistakes s) = Z.min 5 (len (mistake_categories t)) /\
    NoDup (map fst (Summary.common_mistakes s)) /\
    (forall (c : str) (n : Z),
       In (c, n) (Summary.common_mistakes s) ->
       0 < n /\ n = recorded c (mistakes t)) /\
    (forall c : str,
       0 < recorded c (mistakes t) ->
       In (c, recorded c (mistakes t)) (Summary.common_mistakes s) \/
       (len (Summary.common_mistakes s) = 5 /\
        forall (c' : str) (n' : Z),
          In (c', n') (Summary.common_mistakes s) ->
          recorded c (mistakes t) <= n')) /\
    (len (mistake_categories t) <= 5 ->
     forall c : str,
       0 < recorded c (mistakes t) ->
       In (c, recorded c (mistakes t)) (Summary.common_mistakes s)).
Proof.
  cbv zeta. set (t := run start ops).
  pose proof (categories_recorded_run start ops) as Hrec. fold t in Hrec.
  assert (Hacc : exists q, get_accuracy_rate t = Returns q).
  { unfold get_accuracy_rate, true_div, bind.
    destruct (total_messages t =? 0); eauto. }
  destruct Hacc as [q Hq].
  set (S := sorted_by_count_desc (mistake_categories t)).
  pose proof (sorted_by_count_desc_perm (mistake_categories t)) as Hperm.
  pose proof (sorted_by_count_desc_sorted (mistake_categories t)) as Hsorted.
  fold S in Hperm, Hsorted.
  exists (Summary.mk (total_messages t) (corrections_made t) q
            (round2 (fdiv (total_seconds (session_start t) now) 60))
            (firstn 5 S) (len (mistake_categories t))).
  cbn [Summary.total_messages Summary.corrections_made Summary.accuracy_rate
       Summary.session_duration_minutes Summary.common_mistakes
       Summary.total_mistake_types].
  split.
  { unfold get_session_summary. rewrite Hq. cbn [bind].
    rewrite get_common_mistakes_default by exact Hrec. reflexivity. }
  do 5 (split; [reflexivity || exact Hq|]).
  destruct Hrec as [Hnd Hget].
  assert (Hlen : List.length S = List.length (mistake_categories t))
    by (symmetry; apply Permutation_length, Hperm).
  assert (Hall : forall c : str,
             0 < recorded c (mistakes t) ->
             In (c, recorded c (mistakes t)) S).
  { intros c Hc. apply (Permutation_in _ Hperm). apply dict_get_In.
    rewrite Hget.
    destruct (Z.eqb_spec (recorded c (mistakes t)) 0); [lia|reflexivity]. }
  split; [unfold len; rewrite length_firstn, Hlen; lia|].
  split.
  { rewrite <- firstn_map. apply firstn_nodup.
    eapply Permutation_NoDup; [|exact Hnd]. apply Permutation_map, Hperm. }
  split.
  { intros c n Hin. apply firstn_incl in Hin.
    apply (Permutation_in _ (Permutation_sym Hperm)) in Hin.
    apply In_dict_get in Hin; [|exact Hnd]. rewrite Hget in Hin.
    pose proof (recorded_nonneg c (mistakes t)) as H0.
    destruct (Z.eqb_spec (recorded c (mistakes t)) 0); [discriminate|].
    injection Hin as <-. split; [lia | reflexivity]. }
  split.
  { intros c Hc. specialize (Hall c Hc).
    rewrite <- (firstn_skipn 5 S) in Hall. apply in_app_or in Hall.
    destruct Hall as [Hin | Hin]; [left; exact Hin|]. right. split.
    - assert (Hlong : (5 < List.length S)%nat).
      { destruct (Nat.lt_ge_cases 5 (List.length S)) as [H|H]; [exact H|].
        rewrite skipn_all2 in Hin by exact H. destruct Hin. }
      unfold len. rewrite length_firstn. lia.
    - intros c' n' Hin'.
      rewrite <- (firstn_skipn 5 S) in Hsorted.
      exact (sorted_prefix_dominates _ _ (c', n') (c, recorded c (mistakes t))
               Hsorted Hin' Hin). }
  intros Hfew c Hc. rewrite firstn_all2; [apply Hall, Hc|].
  rewrite Hlen. unfold len in Hfew. lia.
Qed.

Lemma get_session_summary_fields_witness :
  let t := run 0 [LogMessage;
                  LogMistake 0 (lit "a") (lit "b") (lit "grammar")] in
  exists s : Summary.t,
    get_session_summary t 60000000 = Returns s /\
    In (lit "grammar", 1) (Summary.common_mistakes s).
Proof.
  cbv zeta.
  destruct (get_session_summary_fields 0
              [LogMessage; LogMistake 0 (lit "a") (lit "b") (lit "grammar")]
              60000000)
    as [s [Hs [_ [_ [_ [_ [_ [_ [_ [_ [_ Hall]]]]]]]]]]].
  exists s. split; [exact Hs|].
  apply (Hall ltac:(vm_compute; discriminate) (lit "grammar")).
  vm_compute. reflexivity.
Defined.

End SessionSummary.

(** ** The engine: the inference call *)

Section InferenceFacts.
Import Py Engine.

Lemma handled_starts_with_error (ex : exn) :
  exists reply : str,
    (if isinstance_ConnectionError ex then
       Returns (Text (lit "Error: Cannot connect to Ollama. Make sure Ollama is running (ollama serve)"))
     else if isinstance_Timeout ex then
       Returns (Text (lit "Error: Request timed out. The model might be loading."))
     else if isinstance_Exception ex then
       Returns (Text (lit "Error: " ++ str_of_exn ex))
     else Raises ex) = Returns (Text reply) /\
    startswith (lit "Error: ") reply = true.
Proof.
  destruct ex; cbn [isinstance_ConnectionError isinstance_Timeout
                    isinstance_Exception]; eexists; split; reflexivity.
Qed.

(** [call_ollama] does not raise, whatever the server does. *)
Lemma call_ollama_returns (post : server) (e : BhashaVoxEngine)
    (prompt : str) (temperature_arg : option Q) :
  exists reply : value,
    call_ollama post e prompt temperature_arg = Returns reply.
Proof.
  unfold call_ollama, call_ollama_try, bind.
  destruct (post _) as [r|ex].
  - destruct (status_code r =? 200).
    + destruct (json_response r) as [generated|ex].
      * exists generated. reflexivity.
      * destruct (handled_starts_with_error ex) as [reply [H _]].
        exists (Text reply). exact H.
    + eexists. reflexivity.
  - destruct (handled_starts_with_error ex) as [reply [H _]].
    exists (Text reply). exact H.
Qed.

(** A response of status 200: [call_ollama] returns the value under the
    key, a string or not. *)
Lemma call_ollama_answers (post : server) (e : BhashaVoxEngine)
    (prompt : str) (temperature_arg : option Q) (generated : value) :
  answers (post (generate_request e prompt temperature_arg)) generated ->
  call_ollama post e prompt temperature_arg = Returns generated.
Proof.
  intros [r [Hpost [Hstatus Hjson]]].
  unfold call_ollama, call_ollama_try, bind.
  unfold generate_request in Hpost. rewrite Hpost, Hstatus, Hjson.
  reflexivity.
Qed.

(** Every other outcome: [call_ollama] returns a text that begins with
    ["Error: "]. *)
Lemma call_ollama_failed (post : server) (e : BhashaVoxEngine)
    (prompt : str) (temperature_arg : option Q) :
  failed (post (generate_request e prompt temperature_arg)) ->
  exists reply : str,
    call_ollama post e prompt temperature_arg = Returns (Text reply) /\
    startswith (lit "Error: ") reply = true.
Proof.
  unfold failed, call_ollama, call_ollama_try, generate_request, bind.
  destruct (post _) as [r|ex]; [|intros _; apply handled_starts_with_error].
  intros [Hstatus | [ex Hjson]].
  - destruct (Z.eqb_spec (status_code r) 200) as [E|_]; [contradiction|].
    eexists. split; reflexivity.
  - destruct (status_code r =? 200).
    + rewrite Hjson. apply handled_starts_with_error.
    + eexists. split; reflexivity.
Qed.

(** The two cases cover every outcome of the request. *)
Lemma answers_or_failed (outcome : result response) :
  (exists generated : value, answers outcome generated) \/ failed outcome.
Proof.
  destruct outcome as [r|ex]; [|right; exact I].
  destruct (Z.eq_dec (status_code r) 200) as [E|N];
    [|right; left; exact N].
  destruct (json_response r) as [generated|ex] eqn:J.
  - left. exists generated, r. repeat split; assumption.
  - right. right. exists ex. exact J.
Qed.

End InferenceFacts.

(** ** The engine: one turn of conversation *)

Section ChatFacts.
Import Py Engine.

Lemma correction_detected_occurs (reply : str) :
  correction_detected reply = true
  <-> occurs checkmark reply \/ occurs (lit "Corrected:") reply.
Proof.
  unfold correction_detected, occurs.
  rewrite orb_true_iff, !contains_spec. reflexivity.
Qed.

Lemma correction_detected_in_text (reply : str) :
  correction_detected_in (Text reply) = Returns (correction_detected reply).
Proof.
  unfold correction_detected_in, correction_detected, is_in, bind.
  destruct (contains checkmark reply); reflexivity.
Qed.

(** [chat] unfolded on what [call_ollama] returns for the prompt: the
    message is counted and both Turns are added before the heuristic is
    evaluated, so also when its test raises. *)
Lemma chat_unfold (post : server) (e : BhashaVoxEngine) (now : Z)
    (user_message : str) (reply : value) :
  call_ollama post e (chat_prompt e user_message) None = Returns reply ->
  let m := Memory.add_message
             (Memory.add_message (memory e) (lit "user") user_message)
             (lit "assistant") (display reply) in
  let counted := Analytics.log_message (analytics e) in
  chat post e now user_message
  = match correction_detected_in reply with
    | Raises ex => (Raises ex, set_analytics (set_memory e m) counted)
    | Returns true =>
        (Returns reply,
         set_analytics (set_memory e m)
           (Analytics.log_mistake counted now user_message (display reply)
              (lit "grammar")))
    | Returns false => (Returns reply, set_analytics (set_memory e m) counted)
    end.
Proof.
  intros Hcall. cbv zeta. unfold chat.
  set (e1 := set_memory (set_analytics e _) _).
  change (Prompts.create_conversation_prompt user_message
            (Memory.get_history_string (memory e1)))
    with (chat_prompt e user_message).
  change (call_ollama post e1 (chat_prompt e user_message) None)
    with (call_ollama post e (chat_prompt e user_message) None).
  rewrite Hcall.
  destruct (correction_detected_in reply) as [[|]|ex]; reflexivity.
Qed.

(** A reply that is a text: [chat] returns it, and logs a mistake when
    the heuristic finds a marker in it. *)
Lemma chat_text (post : server) (e : BhashaVoxEngine) (now : Z)
    (user_message reply : str) :
  call_ollama post e (chat_prompt e user_message) None
  = Returns (Text reply) ->
  chat post e now user_message
  = (Returns (Text reply),
     set_analytics
       (set_memory e
          (Memory.add_message
             (Memory.add_message (memory e) (lit "user") user_message)
             (lit "assistant") reply))
       (if correction_detected reply
        then Analytics.log_mistake (Analytics.log_message (analytics e))
               now user_message reply (lit "grammar")
        else Analytics.log_message (analytics e))).
Proof.
  intros Hcall. rewrite (chat_unfold post e now user_message _ Hcall).
  rewrite correction_detected_in_text. cbn [display].
  destruct (correction_detected reply); reflexivity.
Qed.

(** The engine after a chat, whatever the call returned or raised: the
    message is counted, the exchange is in the history, and at most one
    mistake has been logged, under ["grammar"]. *)
Lemma chat_state (post : server) (e : BhashaVoxEngine) (now : Z)
    (user_message : str) :
  exists (reply : value) (logged : bool),
    call_ollama post e (chat_prompt e user_message) None = Returns reply /\
    snd (chat post e now user_message)
    = set_analytics
        (set_memory e
           (Memory.add_message
              (Memory.add_message (memory e) (lit "user") user_message)
              (lit "assistant") (display reply)))
        (if logged
         then Analytics.log_mistake (Analytics.log_message (analytics e))
                now user_message (display reply) (lit "grammar")
         else Analytics.log_message (analytics e)).
Proof.
  destruct (call_ollama_returns post e (chat_prompt e user_message) None)
    as [reply Hcall].
  exists reply. rewrite (chat_unfold post e now user_message _ Hcall).
  destruct (correction_detected_in reply) as [[|]|ex];
    [exists true | exists false | exists false];
    (split; [exact Hcall | reflexivity]).
Qed.

(** A JSON [null] under the key ["response"], with status 200: the
    membership test of the heuristic raises. *)
Example chat_null_response :
  let e := init (lit "http://localhost:11434") (lit "phi3:mini")
             500 (7 # 10) 0 in
  fst (chat (fun _ => Returns (mk_response 200 (Returns (NotText json_null))))
         e 0 (lit "hello"))
  = Raises (TypeError (lit "argument of type 'NoneType' is not iterable")).
Proof. reflexivity. Qed.

(** C5: [chat] returns a string, and does not raise, on a response of
    status 200 that carries a text, which it returns, and on every failure
    of the inference call (another status, a connection failure, a
    timeout, any other exception), where it returns the error description
    of [call_ollama], which begins with ["Error: "].  It does not return a
    string on a response of status 200 whose ["response"] is not a string:
    for a null, a number or a boolean the membership test of the heuristic
    raises [TypeError], after the message has been counted and both Turns
    added; a list or an object is returned as it is. *)
Theorem chat_raises_on_non_text_response (post : server)
    (e : BhashaVoxEngine) (now : Z) (user_message : str) :
  let outcome := post (generate_request e (chat_prompt e user_message) None) in
  (forall printed not_iterable no_strip : str,
     answers outcome (NotText (Scalar printed not_iterable no_strip)) ->
     chat post e now user_message
     = (Raises (TypeError not_iterable),
        set_analytics
          (set_memory e
             (Memory.add_message
                (Memory.add_message (memory e) (lit "user") user_message)
                (lit "assistant") printed))
          (Analytics.log_message (analytics e)))) /\
  (forall (printed : str) (members : str -> bool)
          (no_strip not_a_string : str),
     let reply := NotText (Container printed members no_strip not_a_string) in
     answers outcome reply ->
     fst (chat post e now user_message) = Returns reply) /\
  (forall text : str,
     answers outcome (Text text) ->
     fst (chat post e now user_message) = Returns (Text text)) /\
  (failed outcome ->
   exists reply : str,
     fst (chat post e now user_message) = Returns (Text reply) /\
     startswith (lit "Error: ") reply = true).
Proof.
  cbv zeta. repeat split.
  - intros printed not_iterable no_strip H.
    apply call_ollama_answers in H.
    rewrite (chat_unfold post e now user_message _ H). reflexivity.
  - intros printed members no_strip not_a_string H.
    apply call_ollama_answers in H.
    rewrite (chat_unfold post e now user_message _ H).
    unfold correction_detected_in, is_in, bind.
    destruct (members checkmark); [reflexivity|].
    destruct (members (lit "Corrected:")); reflexivity.
  - intros text H. apply call_ollama_answers in H.
    rewrite (chat_text post e now user_message _ H). reflexivity.
  - intros H. apply call_ollama_failed in H. destruct H as [reply [H Herr]].
    exists reply. rewrite (chat_text post e now user_message _ H).
    split; [reflexivity | exact Herr].
Qed.

Lemma chat_raises_on_non_text_response_witness :
  let e := init (lit "http://localhost:11434") (lit "phi3:mini")
             500 (7 # 10) 0 in
  let post : server :=
    fun _ => Returns (mk_response 200 (Returns (NotText json_null))) in
  fst (chat post e 0 (lit "hello"))
  = Raises (TypeError (lit "argument of type 'NoneType' is not iterable")) /\
  Analytics.total_messages (analytics (snd (chat post e 0 (lit "hello")))) = 1.
Proof.
  cbv zeta.
  destruct (chat_raises_on_non_text_response
              (fun _ => Returns (mk_response 200 (Returns (NotText json_null))))
              (init (lit "http://localhost:11434") (lit "phi3:mini")
                 500 (7 # 10) 0) 0 (lit "hello")) as [H _].
  rewrite (H (lit "None")
             (lit "argument of type 'NoneType' is not iterable")
             (lit "'NoneType' object has no attribute 'strip'")).
  - split; reflexivity.
  - eexists. repeat split; reflexivity.
Defined.

(** C3: for every user input and every response text of the model,
    [chat] returns that text, counts the message, adds both Turns, and
    logs a mistake record exactly when the text contains the check mark
    or the text ["Corrected:"]: it then adds one record with the user's
    text as [original], the full response as [corrected] and category
    ["grammar"], and adds one to [corrections_made] and to the count of
    that category; without a marker the mistakes, the counter and the
    categories stay as they were. *)
Theorem chat_logs_mistake_iff_marked (post : server) (e : BhashaVoxEngine)
    (now : Z) (user_message response_text : str) :
  answers (post (generate_request e (chat_prompt e user_message) None))
    (Text response_text) ->
  exists e' : BhashaVoxEngine,
    chat post e now user_message = (Returns (Text response_text), e') /\
    memory e'
    = Memory.add_message
        (Memory.add_message (memory e) (lit "user") user_message)
        (lit "assistant") response_text /\
    Analytics.total_messages (analytics e')
    = Analytics.total_messages (analytics e) + 1 /\
    Analytics.session_start (analytics e')
    = Analytics.session_start (analytics e) /\
    (occurs checkmark response_text \/ occurs (lit "Corrected:") response_text
     ->
     Analytics.mistakes (analytics e')
     = Analytics.mistakes (analytics e)
       ++ [Analytics.mk_mistake now user_message response_text
             (lit "grammar")] /\
     Analytics.corrections_made (analytics e')
     = Analytics.corrections_made (analytics e) + 1 /\
     Analytics.mistake_categories (analytics e')
     = Analytics.dict_incr (lit "grammar")
         (Analytics.mistake_categories (analytics e))) /\
    (~ (occurs checkmark response_text
        \/ occurs (lit "Corrected:") response_text) ->
     Analytics.mistakes (analytics e') = Analytics.mistakes (analytics e) /\
     Analytics.corrections_made (analytics e')
     = Analytics.corrections_made (analytics e) /\
     Analytics.mistake_categories (analytics e')
     = Analytics.mistake_categories (analytics e)).
Proof.
  intros H. apply call_ollama_answers in H.
  eexists. split; [apply (chat_text post e now user_message _ H)|].
  cbn [memory analytics set_analytics set_memory].
  split; [reflexivity|].
  pose proof (correction_detected_occurs response_text) as Hiff.
  destruct (correction_detected response_text);
    cbn [Analytics.log_mistake Analytics.log_message
         Analytics.total_messages Analytics.session_start
         Analytics.mistakes Analytics.corrections_made
         Analytics.mistake_categories].
  - split; [reflexivity|]. split; [reflexivity|]. split.
    + intros _. repeat split.
    + intros Hno. exfalso. apply Hno, Hiff. reflexivity.
  - split; [reflexivity|]. split; [reflexivity|]. split.
    + intros Hyes. apply Hiff in Hyes. discriminate.
    + intros _. repeat split.
Qed.

Lemma chat_logs_mistake_iff_marked_witness :
  let e := init (lit "http://localhost:11434") (lit "phi3:mini")
             500 (7 # 10) 0 in
  let post : server :=
    fun _ => Returns (mk_response 200
                        (Returns (Text (lit "Corrected: I am fine.")))) in
  exists e' : BhashaVoxEngine,
    chat post e 5 (lit "i is fine")
    = (Returns (Text (lit "Corrected: I am fine.")), e') /\
    Analytics.mistakes (analytics e')
    = [Analytics.mk_mistake 5 (lit "i is fine") (lit "Corrected: I am fine.")
         (lit "grammar")].
Proof.
  cbv zeta.
  destruct (chat_logs_mistake_iff_marked
              (fun _ => Returns (mk_response 200
                                   (Returns (Text (lit "Corrected: I am fine.")))))
              (init (lit "http://localhost:11434") (lit "phi3:mini")
                 500 (7 # 10) 0) 5 (lit "i is fine")
              (lit "Corrected: I am fine."))
    as [e' [Hchat [_ [_ [_ [Hlog _]]]]]].
  - eexists. repeat split; reflexivity.
  - exists e'. split; [exact Hchat|].
    apply Hlog. right. exists [], (lit " I am fine."). reflexivity.
Defined.

End ChatFacts.

(** ** The engine: level assessment *)

Section LevelFacts.
Import Py Engine.

Lemma is_space_lower_cp (c : N) : is_space c = true -> lower_cp c = c.
Proof.
  unfold lower_cp, is_space.
  destruct (N.leb_spec 65 c) as [H65|]; [|reflexivity].
  destruct (N.leb_spec c 90) as [H90|]; [|reflexivity].
  intros H. exfalso.
  repeat rewrite ?orb_true_iff, ?andb_true_iff, ?N.leb_le, ?N.eqb_eq in H.
  lia.
Qed.

(** A pattern without white space occurs in the lower-cased text exactly
    when it occurs in the lower-cased stripped text. *)
Lemma contains_lower_lstrip (p s : str) :
  p <> [] -> forallb (fun c => negb (is_space c)) p = true ->
  contains p (lower (lstrip s)) = contains p (lower s).
Proof.
  intros Hp Hns. induction s as [|c s IH]; [reflexivity|].
  cbn [lstrip]. destruct (is_space c) eqn:Ec; [|reflexivity].
  rewrite IH. cbn [lower map]. fold (lower s).
  rewrite contains_cons_other; [reflexivity| |exact Hp].
  rewrite is_space_lower_cp by exact Ec. intros Hin.
  rewrite forallb_forall in Hns. apply Hns in Hin.
  rewrite Ec in Hin. discriminate.
Qed.

Lemma contains_lower_rstrip (p s : str) :
  p <> [] -> forallb (fun c => negb (is_space c)) p = true ->
  contains p (lower (rstrip s)) = contains p (lower s).
Proof.
  intros Hp Hns. unfold rstrip.
  rewrite <- (rev_involutive s) at 2. generalize (rev s). clear s.
  intros r. induction r as [|c r IH]; [reflexivity|].
  cbn [lstrip]. destruct (is_space c) eqn:Ec; [|reflexivity].
  rewrite IH. cbn [rev]. unfold lower. rewrite map_app. cbn [map].
  rewrite contains_snoc_other; [reflexivity| |exact Hp].
  rewrite is_space_lower_cp by exact Ec. intros Hin.
  rewrite forallb_forall in Hns. apply Hns in Hin.
  rewrite Ec in Hin. discriminate.
Qed.

Lemma contains_lower_strip (p s : str) :
  p <> [] -> forallb (fun c => negb (is_space c)) p = true ->
  contains p (lower (strip s)) = contains p (lower s).
Proof.
  intros Hp Hns. unfold strip.
  rewrite contains_lower_rstrip, contains_lower_lstrip by assumption.
  reflexivity.
Qed.

(** The loop over the three names finds what the specification's search
    finds, whether the response was stripped or not. *)
Lemma assess_loop_strip (e : BhashaVoxEngine) (raw : str) :
  assess_loop e (strip raw) valid_levels
  = match first_level_named raw with
    | Some name =>
        (name, set_memory e (Memory.set_user_level (memory e) name))
    | None => (lit "Intermediate", e)
    end.
Proof.
  unfold first_level_named, valid_levels. cbn [assess_loop find].
  rewrite !contains_lower_strip by (discriminate || reflexivity).
  destruct (contains (lower (lit "Beginner")) (lower raw)); [reflexivity|].
  destruct (contains (lower (lit "Intermediate")) (lower raw));
    [reflexivity|].
  destruct (contains (lower (lit "Advanced")) (lower raw)); reflexivity.
Qed.

Lemma lower_cp_same_letter (a b : N) :
  lower_cp a = lower_cp b <-> same_letter a b.
Proof.
  unfold lower_cp, same_letter.
  destruct (N.leb_spec 65 a), (N.leb_spec a 90),
           (N.leb_spec 65 b), (N.leb_spec b 90);
    cbn [andb]; lia.
Qed.

Lemma lower_same_letters (p mid : str) :
  lower mid = lower p <-> Forall2 same_letter p mid.
Proof.
  unfold lower. revert mid.
  induction p as [|a p IH]; intros [|b mid]; cbn [map].
  - split; [constructor | reflexivity].
  - split; [discriminate | intros H; inversion H].
  - split; [discriminate | intros H; inversion H].
  - split.
    + intros H. injection H as Hab Hrest. constructor.
      * apply lower_cp_same_letter. symmetry. exact Hab.
      * apply IH, Hrest.
    + intros H. inversion H as [|a' b' p' mid' Hab Hrest]; subst.
      apply lower_cp_same_letter in Hab. apply IH in Hrest.
      rewrite Hab, Hrest. reflexivity.
Qed.

(** The test of the loop, [name.lower() in level.lower()], decides the
    occurrence of the name with letter case ignored. *)
Lemma contains_lower_occurs (name raw : str) :
  contains (lower name) (lower raw) = true <-> occurs_ignoring_case name raw.
Proof.
  rewrite contains_spec. unfold occurs_ignoring_case. split.
  - intros [pre [post H]]. unfold lower in H at 1.
    apply map_eq_app in H. destruct H as [pre' [rest [-> [_ H]]]].
    apply map_eq_app in H. destruct H as [mid [post' [-> [Hmid _]]]].
    exists pre', mid, post'. split; [reflexivity|].
    apply lower_same_letters. exact Hmid.
  - intros [pre [mid [post [-> H]]]]. apply lower_same_letters in H.
    exists (lower pre), (lower post). unfold lower in *.
    rewrite !map_app, H. reflexivity.
Qed.

Lemma not_contains_lower_occurs (name raw : str) :
  contains (lower name) (lower raw) = false
  <-> ~ occurs_ignoring_case name raw.
Proof.
  rewrite <- contains_lower_occurs.
  destruct (contains (lower name) (lower raw)); split; congruence.
Qed.

Lemma set_user_level_stored (name : str) (e : BhashaVoxEngine) :
  level_stored name e
    (set_memory e (Memory.set_user_level (memory e) name)).
Proof. repeat split. Qed.

(** C4: for every response text of the model, [assess_level] returns
    the first of Beginner, Intermediate, Advanced, in that order, whose
    name the text contains anywhere with letter case ignored, and stores
    it as the user level, changing nothing else; when the text contains
    none of the three it returns ["Intermediate"] and leaves the engine,
    the stored level included, as it was. *)
Theorem assess_level_first_named (post : server) (e : BhashaVoxEngine)
    (user_message raw : str) :
  answers
    (post (generate_request e
             (Prompts.create_level_assessment_prompt user_message)
             (Some (3 # 10))))
    (Text raw) ->
  let beginner := occurs_ignoring_case (lit "Beginner") raw in
  let intermediate := occurs_ignoring_case (lit "Intermediate") raw in
  let advanced := occurs_ignoring_case (lit "Advanced") raw in
  let stores (name : str) :=
    exists e' : BhashaVoxEngine,
      assess_level post e user_message = Returns (name, e') /\
      level_stored name e e' in
  (beginner -> stores (lit "Beginner")) /\
  (~ beginner -> intermediate -> stores (lit "Intermediate")) /\
  (~ beginner -> ~ intermediate -> advanced -> stores (lit "Advanced")) /\
  (~ beginner -> ~ intermediate -> ~ advanced ->
   assess_level post e user_message = Returns (lit "Intermediate", e)).
Proof.
  intros H. apply call_ollama_answers in H. cbv zeta.
  assert (E : assess_level post e user_message
              = Returns
                  match first_level_named raw with
                  | Some name =>
                      (name,
                       set_memory e (Memory.set_user_level (memory e) name))
                  | None => (lit "Intermediate", e)
                  end).
  { unfold assess_level. rewrite H. cbn [bind strip_value].
    rewrite assess_loop_strip. reflexivity. }
  rewrite E. unfold first_level_named, valid_levels. cbn [find].
  destruct (contains (lower (lit "Beginner")) (lower raw)) eqn:B.
  { apply contains_lower_occurs in B. repeat split; try contradiction.
    intros _. eexists. split; [reflexivity | apply set_user_level_stored]. }
  apply not_contains_lower_occurs in B.
  destruct (contains (lower (lit "Intermediate")) (lower raw)) eqn:I.
  { apply contains_lower_occurs in I. repeat split; try contradiction.
    intros _ _. eexists. split; [reflexivity | apply set_user_level_stored]. }
  apply not_contains_lower_occurs in I.
  destruct (contains (lower (lit "Advanced")) (lower raw)) eqn:A.
  { apply contains_lower_occurs in A. repeat split; try contradiction.
    intros _ _ _. eexists.
    split; [reflexivity | apply set_user_level_stored]. }
  apply not_contains_lower_occurs in A.
  split; [contradiction|]. split; [contradiction|].
  split; [contradiction|]. intros _ _ _. reflexivity.
Qed.

(** The two responses of the specification's examples, and a response
    that names two levels, the later one in capitals. *)
Lemma assess_level_first_named_witness :
  let e := init (lit "http://localhost:11434") (lit "phi3:mini")
             500 (7 # 10) 0 in
  let says (text : str) : server :=
    fun _ => Returns (mk_response 200 (Returns (Text text))) in
  (exists e' : BhashaVoxEngine,
     assess_level (says (lit "This is definitely Beginner level writing"))
       e (lit "hello")
     = Returns (lit "Beginner", e') /\
     Memory.user_level (memory e') = Some (lit "Beginner")) /\
  assess_level (says (lit "Unclear / gibberish")) e (lit "hello")
  = Returns (lit "Intermediate", e) /\
  (exists e' : BhashaVoxEngine,
     assess_level (says (lit "ADVANCED, not beginner")) e (lit "hello")
     = Returns (lit "Beginner", e')).
Proof.
  cbv zeta. split; [|split].
  - destruct (assess_level_first_named
                (fun _ => Returns (mk_response 200
                   (Returns (Text (lit "This is definitely Beginner level writing")))))
                (init (lit "http://localhost:11434") (lit "phi3:mini")
                   500 (7 # 10) 0)
                (lit "hello")
                (lit "This is definitely Beginner level writing"))
      as [Hb _].
    + eexists. repeat split; reflexivity.
    + destruct Hb as [e' [Hcall [Hlevel _]]].
      * exists (lit "This is definitely "), (lit "Beginner"),
          (lit " level writing").
        split; [reflexivity|].
        repeat (constructor; [left; reflexivity|]). constructor.
      * exists e'. split; [exact Hcall | exact Hlevel].
  - reflexivity.
  - eexists. reflexivity.
Defined.

End LevelFacts.

(** ** The engine: statistics and reset *)

Section ResetFacts.
Import Py Engine.

(** C6: in every state, [reset_session] empties the history and puts the
    analytics back to their initial state, so that [get_stats] right
    after it gives [total_messages = 0], [corrections_made = 0],
    [accuracy_rate = 100.0] and [conversation_turns = 0]; the stored user
    level is the one from before the reset. *)
Theorem reset_session_clears_but_level (e : BhashaVoxEngine)
    (now later : Z) :
  let e' := snd (reset_session e now) in
  Memory.history (memory e') = [] /\
  analytics e' = Analytics.init now /\
  Memory.user_level (memory e') = Memory.user_level (memory e) /\
  exists stats : Stats.t,
    get_stats e' later = Returns stats /\
    Analytics.Summary.total_messages (Stats.summary stats) = 0 /\
    Analytics.Summary.corrections_made (Stats.summary stats) = 0 /\
    Analytics.Summary.accuracy_rate (Stats.summary stats) = 100%Q /\
    Analytics.Summary.common_mistakes (Stats.summary stats) = [] /\
    Analytics.Summary.total_mistake_types (Stats.summary stats) = 0 /\
    Stats.conversation_turns stats = 0 /\
    Stats.user_level stats = Memory.user_level (memory e).
Proof.
  cbv zeta. cbn [reset_session snd set_analytics set_memory memory analytics
                 Memory.clear_history Memory.set_history Memory.history
                 Memory.user_level Analytics.reset_session].
  repeat split. eexists. split; [reflexivity|]. repeat split.
Qed.

End ResetFacts.

(** ** More on the history buffer: windows and recent entries *)

Section WindowFacts.
Import Py Memory.

(** [l[-n:]] for a positive [n]: the last [n] elements, or all of them. *)
Lemma slice_from_last {A : Type} (n : Z) (l : list A) :
  1 <= n ->
  slice_from (- n) l = skipn (List.length l - Z.to_nat n) l.
Proof.
  intros Hn. unfold slice_from, slice_bound.
  destruct (Z.ltb_spec (- n) 0) as [_|H]; [|lia].
  f_equal. lia.
Qed.

(** [l[k:]] for a [k] that is not negative. *)
Lemma slice_from_nonneg {A : Type} (k : Z) (l : list A) :
  0 <= k -> slice_from k l = skipn (Z.to_nat k) l.
Proof.
  intros Hk. unfold slice_from, slice_bound.
  destruct (Z.ltb_spec k 0) as [H|_]; [lia|].
  destruct (Z.le_ge_cases k (Z.of_nat (List.length l))) as [Hle|Hge].
  - rewrite Z.min_l by exact Hle. reflexivity.
  - rewrite Z.min_r by exact Hge. rewrite Nat2Z.id, skipn_all.
    symmetry. apply skipn_all2. lia.
Qed.

Lemma skipn_suffix {A : Type} (k : nat) (l : list A) :
  exists older : list A, l = older ++ skipn k l.
Proof. exists (firstn k l). symmetry. apply firstn_skipn. Qed.

Lemma len_skipn_last {A : Type} (n : Z) (l : list A) :
  1 <= n ->
  len (skipn (List.length l - Z.to_nat n) l) = Z.min n (len l).
Proof. intros Hn. unfold len. rewrite length_skipn. lia. Qed.

Lemma add_message_keeps_new (m : ConversationMemory) (r t : str) :
  1 <= max_history m ->
  exists older : list entry,
    history (add_message m r t) = older ++ [mk_entry r t].
Proof.
  intros Hcap. unfold add_message.
  destruct (len (history m ++ [mk_entry r t]) >? max_history m * 2);
    unfold set_history; cbn [history]; [|eauto].
  replace (- max_history m * 2) with (- (max_history m * 2)) by lia.
  rewrite slice_from_last by lia. rewrite skipn_app.
  rewrite length_app. cbn [List.length].
  replace (List.length (history m) + 1 - Z.to_nat (max_history m * 2)
           - List.length (history m))%nat with 0%nat by lia.
  cbn [skipn]. eauto.
Qed.

(** With a cap of at least one turn, the history after any sequence of
    [add_message] calls on a new memory is the sliding window over the
    messages added: the last [2 * max_history] of them, or all of them
    while there are fewer, in the order of the calls. *)
Theorem add_messages_sliding_window (cap : Z) (calls : list (str * str)) :
  1 <= cap ->
  history (add_messages (init cap) calls)
  = skipn (List.length calls - Z.to_nat (2 * cap)) (entries_of calls) /\
  len (history (add_messages (init cap) calls))
  = Z.min (len calls) (2 * cap).
Proof.
  intros Hcap.
  assert (H : history (add_messages (init cap) calls)
              = skipn (List.length calls - Z.to_nat (2 * cap))
                  (entries_of calls)).
  { induction calls as [|c calls IH] using rev_ind; [reflexivity|].
    rewrite add_messages_snoc.
    destruct (add_messages_bounded cap calls Hcap) as [Hmax Hlen].
    pose proof (add_message_positive_cap (add_messages (init cap) calls)
                  (fst c) (snd c)) as Hadd.
    cbv zeta in Hadd. rewrite Hmax in Hadd.
    destruct (Hadd Hcap Hlen) as [_ [Hhist _]]. rewrite Hhist, IH.
    clear Hadd Hhist IH Hlen Hmax.
    unfold entries_of. rewrite map_app, length_app. cbn [map List.length].
    set (E := map (fun c => mk_entry (fst c) (snd c)) calls).
    set (x := mk_entry (fst c) (snd c)).
    assert (HE : List.length E = List.length calls)
      by (unfold E; apply length_map).
    rewrite <- HE. set (N := List.length E).
    set (K := Z.to_nat (2 * cap)).
    assert (HK : 2 * cap = Z.of_nat K) by (unfold K; lia).
    unfold len. rewrite length_app, length_skipn. cbn [List.length].
    fold N. rewrite HK.
    destruct (Nat.lt_ge_cases N K) as [Hlt|Hge].
    - replace (N - K)%nat with 0%nat by lia. cbn [skipn].
      replace (Z.to_nat (Z.of_nat (N - 0 + 1) - Z.of_nat K)) with 0%nat
        by lia.
      replace (N + 1 - K)%nat with 0%nat by lia. reflexivity.
    - replace (Z.to_nat (Z.of_nat (N - (N - K) + 1) - Z.of_nat K))
        with 1%nat by lia.
      rewrite (skipn_app (N + 1 - K)). fold N.
      replace (N + 1 - K - N)%nat with 0%nat by lia.
      change (skipn 0 [x]) with [x].
      replace (N + 1 - K)%nat with (1 + (N - K))%nat by lia.
      rewrite <- skipn_skipn. rewrite (skipn_app 1).
      rewrite length_skipn. fold N.
      replace (1 - (N - (N - K)))%nat with 0%nat by lia.
    reflexivity. }
  split; [exact H|].
  rewrite H. unfold len, entries_of. rewrite length_skipn, length_map. lia.
Qed.

Lemma add_messages_sliding_window_witness :
  map message
    (history (add_messages (init 1)
                [(lit "user", lit "a"); (lit "assistant", lit "b");
                 (lit "user", lit "c")]))
  = [lit "b"; lit "c"].
Proof.
  destruct (add_messages_sliding_window 1
              [(lit "user", lit "a"); (lit "assistant", lit "b");
               (lit "user", lit "c")]) as [H _]; [lia|].
  rewrite H. reflexivity.
Defined.

(** [get_recent_messages(n)] with [n >= 1] returns the last [n] entries
    of the history, all of them when there are fewer, in their order. *)
Theorem get_recent_messages_last (m : ConversationMemory) (n : Z) :
  1 <= n ->
  (exists older : list entry,
     history m = older ++ get_recent_messages m n) /\
  len (get_recent_messages m n) = Z.min n (len (history m)).
Proof.
  intros Hn. unfold get_recent_messages.
  destruct (history m) as [|e h] eqn:E.
  - split; [exists []; reflexivity|]. unfold len. cbn [List.length]. lia.
  - rewrite slice_from_last by exact Hn.
    split; [apply skipn_suffix | apply len_skipn_last, Hn].
Qed.

Lemma get_recent_messages_last_witness :
  let m := add_messages (init 10)
             [(lit "user", lit "a"); (lit "assistant", lit "b");
              (lit "user", lit "c")] in
  len (get_recent_messages m 2) = 2.
Proof.
  cbv zeta.
  destruct (get_recent_messages_last
              (add_messages (init 10)
                 [(lit "user", lit "a"); (lit "assistant", lit "b");
                  (lit "user", lit "c")]) 2) as [_ H]; [lia|].
  rewrite H. reflexivity.
Defined.

(** [get_recent_messages(n)] with [n <= 0] does not return the last
    [-n] or no entries: the slice [history[-n:]] then starts at index
    [-n] from the front, so [n = 0] gives the whole history. *)
Theorem get_recent_messages_not_positive (m : ConversationMemory) (n : Z) :
  n <= 0 ->
  get_recent_messages m n = skipn (Z.to_nat (- n)) (history m) /\
  get_recent_messages m 0 = history m.
Proof.
  intros Hn. unfold get_recent_messages.
  destruct (history m) as [|e h] eqn:E.
  - rewrite skipn_nil. split; reflexivity.
  - split; [apply slice_from_nonneg; lia | apply slice_from_zero].
Qed.

Lemma get_recent_messages_not_positive_witness :
  let m := add_messages (init 10)
             [(lit "user", lit "a"); (lit "assistant", lit "b")] in
  get_recent_messages m 0 = history m.
Proof.
  cbv zeta.
  apply (get_recent_messages_not_positive
           (add_messages (init 10)
              [(lit "user", lit "a"); (lit "assistant", lit "b")]) 0).
  lia.
Defined.

End WindowFacts.

(** ** More on the analytics accumulator *)

Section MoreAnalyticsFacts.
Import Py Analytics.

(** [get_recent_mistakes(n)] with [n >= 1] returns the last [n] mistake
    records, all of them when there are fewer, in their order. *)
Theorem get_recent_mistakes_last (t : AnalyticsTracker) (n : Z) :
  1 <= n ->
  (exists older : list mistake,
     mistakes t = older ++ get_recent_mistakes t n) /\
  len (get_recent_mistakes t n) = Z.min n (len (mistakes t)).
Proof.
  intros Hn. unfold get_recent_mistakes.
  destruct (mistakes t) as [|m ms] eqn:E.
  - split; [exists []; reflexivity|]. unfold len. cbn [List.length]. lia.
  - rewrite slice_from_last by exact Hn.
    split; [apply skipn_suffix | apply len_skipn_last, Hn].
Qed.

Lemma get_recent_mistakes_last_witness :
  let m := LogMistake 0 (lit "a") (lit "b") (lit "grammar") in
  len (get_recent_mistakes (run 0 [m; m; m]) 2) = 2.
Proof.
  cbv zeta.
  destruct (get_recent_mistakes_last
              (run 0 [LogMistake 0 (lit "a") (lit "b") (lit "grammar");
                      LogMistake 0 (lit "a") (lit "b") (lit "grammar");
                      LogMistake 0 (lit "a") (lit "b") (lit "grammar")]) 2)
    as [_ H]; [lia|].
  rewrite H. reflexivity.
Defined.

(** In every state reached by [log_message], [log_mistake] and
    [reset_session] calls, the dict of categories has no key twice, and
    the count it holds for a category is the number of mistake records
    with that category since the last reset; a category without a record
    is not in the dict. *)
Theorem mistake_categories_count_records (start : Z) (ops : list op)
    (c : str) :
  let t := run start ops in
  NoDup (map fst (mistake_categories t)) /\
  (forall n : Z,
     dict_get c (mistake_categories t) = Some n
     <-> 0 < n /\ n = recorded c (mistakes t)) /\
  (dict_get c (mistake_categories t) = None <-> recorded c (mistakes t) = 0).
Proof.
  cbv zeta. destruct (categories_recorded_run start ops) as [Hnd Hget].
  split; [exact Hnd|]. rewrite Hget.
  pose proof (recorded_nonneg c (mistakes (run start ops))) as H0.
  destruct (Z.eqb_spec (recorded c (mistakes (run start ops))) 0) as [E|N].
  - split.
    + intros n. split; [discriminate | lia].
    + split; [intros _; exact E | reflexivity].
  - split.
    + intros n. split.
      * intros H. injection H as <-. split; [lia | reflexivity].
      * intros [_ ->]. reflexivity.
    + split; [discriminate | contradiction].
Qed.

Lemma sum_counts_perm (d1 d2 : dict) :
  Permutation d1 d2 -> sum_counts d1 = sum_counts d2.
Proof.
  induction 1 as [|x l l' _ IH|x y l|l l' l'' _ IH1 _ IH2];
    cbn [sum_counts fold_right] in *; try lia.
  fold (sum_counts l) in *. fold (sum_counts l') in *. lia.
Qed.

(** [get_common_mistakes(n)] with [n] at least the number of categories
    returns every category once, and the counts it returns add up to
    [corrections_made]. *)
Theorem get_common_mistakes_all (start : Z) (ops : list op) (n : Z) :
  let t := run start ops in
  len (mistake_categories t) <= n ->
  Permutation (mistake_categories t) (get_common_mistakes t n) /\
  sum_counts (get_common_mistakes t n) = corrections_made t.
Proof.
  cbv zeta. intros Hn. set (t := run start ops) in *.
  assert (E : get_common_mistakes t n
              = sorted_by_count_desc (mistake_categories t)).
  { unfold get_common_mistakes.
    rewrite slice_to_nonneg by (pose proof (len_nonneg (mistake_categories t));
                                lia).
    apply firstn_all2.
    rewrite <- (Permutation_length
                  (sorted_by_count_desc_perm (mistake_categories t))).
    unfold len in Hn. lia. }
  rewrite E. split; [apply sorted_by_count_desc_perm|].
  rewrite <- (sum_counts_perm _ _
                (sorted_by_count_desc_perm (mistake_categories t))).
  destruct (counters_agree_run start ops) as [H1 [H2 _]]. fold t in H1, H2.
  congruence.
Qed.

Lemma get_common_mistakes_all_witness :
  let g := LogMistake 0 (lit "a") (lit "b") (lit "grammar") in
  let v := LogMistake 0 (lit "c") (lit "d") (lit "vocabulary") in
  sum_counts (get_common_mistakes (run 0 [v; g; g]) 5) = 3.
Proof.
  cbv zeta.
  destruct (get_common_mistakes_all 0
              [LogMistake 0 (lit "c") (lit "d") (lit "vocabulary");
               LogMistake 0 (lit "a") (lit "b") (lit "grammar");
               LogMistake 0 (lit "a") (lit "b") (lit "grammar")] 5)
    as [_ H]; [vm_compute; discriminate|].
  rewrite H. reflexivity.
Defined.

End MoreAnalyticsFacts.

(** ** More on the engine: status check and failed assessments *)

Section StatusFacts.
Import Py Engine Status.

(** [check_ollama_status] never raises, and it reports the server as
    running exactly when the request for the tags is answered with status
    200 and a list of model names that holds the configured name; when
    the request or the reading of the names raises, the answer is [False]
    with the "not running" message. *)
Theorem check_ollama_status_running (get : tags_server)
    (e : BhashaVoxEngine) :
  (fst (check_ollama_status get e) = true
   <-> exists (r : tags_response) (names : list str),
         get (ollama_url e ++ lit "/api/tags") 5 = Returns r /\
         tags_status_code r = 200 /\
         tags_model_names r = Returns names /\
         In (model_name e) names) /\
  (forall ex : exn,
     check_ollama_status_try get e = Raises ex ->
     check_ollama_status get e
     = (false, cross_mark
               ++ lit " Ollama is not running. Start it with: ollama serve")).
Proof.
  split.
  - unfold check_ollama_status, check_ollama_status_try, bind.
    destruct (get _ 5) as [r|ex] eqn:Eg.
    + destruct (Z.eqb_spec (tags_status_code r) 200) as [E200|N200].
      * destruct (tags_model_names r) as [names|ex] eqn:En.
        -- destruct (list_in (model_name e) names) eqn:Ein; cbn [fst].
           ++ split; [intros _|reflexivity].
              exists r, names. repeat split; try assumption.
              apply existsb_str_eqb_In. exact Ein.
           ++ split; [discriminate|].
              intros [r' [names' [Hr [_ [Hn Hin]]]]].
              injection Hr as <-. rewrite En in Hn. injection Hn as <-.
              apply existsb_str_eqb_In in Hin. unfold list_in in Ein.
              congruence.
        -- cbn [fst]. split; [discriminate|].
           intros [r' [names' [Hr [_ [Hn _]]]]].
           injection Hr as <-. rewrite En in Hn. discriminate.
      * cbn [fst]. split; [discriminate|].
        intros [r' [names' [Hr [Hs _]]]]. injection Hr as <-. contradiction.
    + cbn [fst]. split; [discriminate|].
      intros [r' [names' [Hr _]]]. discriminate.
  - intros ex H. unfold check_ollama_status. rewrite H. reflexivity.
Qed.

End StatusFacts.

Section FailureFacts.
Import Py Engine Failure.

Lemma contains_app_other (p a d : str) :
  p <> [] -> (forall c : N, In c d -> ~ In c p) ->
  contains p (a ++ d) = contains p a.
Proof.
  intros Hp. revert a. induction d as [|x d IH]; intros a Hd.
  - rewrite app_nil_r. reflexivity.
  - change (a ++ x :: d) with (a ++ [x] ++ d). rewrite app_assoc.
    rewrite IH by (intros c Hc; apply Hd; right; exact Hc).
    apply contains_snoc_other; [|exact Hp]. apply Hd. left; reflexivity.
Qed.

Lemma string_of_uint_digits (d : Decimal.uint) :
  Forall (fun c => (c <= 57)%N) (lit (NilEmpty.string_of_uint d)).
Proof.
  induction d; cbn [NilEmpty.string_of_uint lit list_ascii_of_string map];
    constructor; try exact IHd; try (vm_compute; discriminate).
Qed.

Lemma str_of_int_digits (n : Z) :
  Forall (fun c => (c <= 57)%N) (str_of_int n).
Proof.
  unfold str_of_int. destruct (Z.to_int n) as [d|d];
    cbn [NilEmpty.string_of_int].
  - apply string_of_uint_digits.
  - cbn [lit list_ascii_of_string map]. constructor.
    + vm_compute. discriminate.
    + apply string_of_uint_digits.
Qed.

Lemma lower_digits (s : str) :
  Forall (fun c => (c <= 57)%N) s -> lower s = s.
Proof.
  induction 1 as [|c s Hc _ IH]; [reflexivity|].
  cbn [lower map]. fold (lower s). rewrite IH. f_equal.
  unfold lower_cp. destruct (N.leb_spec 65 c); [lia | reflexivity].
Qed.

(** No level name occurs in the text for a status other than 200. *)
Lemma no_level_in_status_error (n : Z) :
  first_level_named
    (lit "Error: Ollama returned status code " ++ str_of_int n) = None.
Proof.
  pose proof (str_of_int_digits n) as Hd.
  unfold first_level_named, valid_levels, lower. rewrite map_app.
  fold (lower (str_of_int n)). rewrite (lower_digits _ Hd).
  assert (H : forall p : str,
             p <> [] -> forallb (fun c => N.leb 97 c) p = true ->
             contains p
               (map lower_cp (lit "Error: Ollama returned status code ")
                ++ str_of_int n)
             = contains p
                 (map lower_cp (lit "Error: Ollama returned status code "))).
  { intros p Hp Hletters. apply contains_app_other; [exact Hp|].
    intros c Hc Hin. rewrite Forall_forall in Hd. apply Hd in Hc.
    rewrite forallb_forall in Hletters. apply Hletters in Hin.
    apply N.leb_le in Hin. lia. }
  cbn [find]. rewrite !H by (discriminate || reflexivity). reflexivity.
Qed.

(** When the inference request is answered with a status other than 200
    or ends in a connection error or a timeout, [assess_level] still
    returns a level: ["Intermediate"], and it leaves the engine, the
    stored level included, as it was. *)
Theorem assess_level_unavailable (post : server) (e : BhashaVoxEngine)
    (user_message : str) :
  unavailable (post (assess_request e user_message)) ->
  assess_level post e user_message = Returns (lit "Intermediate", e).
Proof.
  unfold unavailable, assess_request, generate_request. intros H.
  unfold assess_level, call_ollama, call_ollama_try, bind.
  destruct (post _) as [r|ex].
  - destruct (Z.eqb_spec (status_code r) 200) as [E|_]; [contradiction|].
    cbn [strip_value].
    rewrite assess_loop_strip, no_level_in_status_error. reflexivity.
  - destruct ex; cbn [isinstance_ConnectionError isinstance_Timeout] in *;
      try (destruct H; discriminate);
      cbn [strip_value]; rewrite assess_loop_strip; reflexivity.
Qed.

Lemma assess_level_unavailable_witness :
  let e := init (lit "http://localhost:11434") (lit "phi3:mini")
             500 (7 # 10) 0 in
  assess_level
    (fun _ => Returns (mk_response 503 (Returns (Text (lit "busy")))))
    e (lit "hello")
  = Returns (lit "Intermediate", e).
Proof.
  cbv zeta.
  apply (assess_level_unavailable
           (fun _ => Returns (mk_response 503 (Returns (Text (lit "busy")))))).
  cbn. discriminate.
Defined.

End FailureFacts.

(** ** Sessions: what a sequence of engine calls preserves *)

Section SessionFacts.
Import Py Engine Session.

Lemma turns_history_app (t1 t2 : list (str * str)) :
  turns_history (t1 ++ t2) = turns_history t1 ++ turns_history t2.
Proof. unfold turns_history. apply flat_map_app. Qed.

Lemma turns_history_len (turns : list (str * str)) :
  len (turns_history turns) = 2 * len turns.
Proof.
  unfold len. induction turns as [|t turns IH]; [reflexivity|].
  cbn [turns_history flat_map app List.length] in *.
  fold (turns_history turns). lia.
Qed.

Lemma turns_history_count (m : Memory.ConversationMemory)
    (turns : list (str * str)) :
  Memory.history m = turns_history turns ->
  Memory.get_conversation_count m = len turns.
Proof.
  intros H. unfold Memory.get_conversation_count, len. rewrite H. clear H.
  induction turns as [|t turns IH]; [reflexivity|].
  cbn [turns_history flat_map app filter Memory.role].
  fold (turns_history turns).
  change (str_eqb (lit "user") (lit "user")) with true.
  change (str_eqb (lit "assistant") (lit "user")) with false.
  cbn [List.length]. lia.
Qed.

Lemma add_message_room (m : Memory.ConversationMemory) (r t : str) :
  1 <= Memory.max_history m ->
  len (Memory.history m) < 2 * Memory.max_history m ->
  Memory.history (Memory.add_message m r t)
  = Memory.history m ++ [Memory.mk_entry r t].
Proof.
  intros Hcap Hlen.
  destruct (add_message_positive_cap m r t Hcap) as [_ [H _]]; [lia|].
  rewrite H, len_snoc.
  replace (Z.to_nat (len (Memory.history m) + 1 - 2 * Memory.max_history m))
    with 0%nat by lia.
  reflexivity.
Qed.

Lemma add_message_full (m : Memory.ConversationMemory) (r t : str) :
  1 <= Memory.max_history m ->
  len (Memory.history m) = 2 * Memory.max_history m ->
  Memory.history (Memory.add_message m r t)
  = skipn 1 (Memory.history m ++ [Memory.mk_entry r t]).
Proof.
  intros Hcap Hlen.
  destruct (add_message_positive_cap m r t Hcap) as [_ [H _]]; [lia|].
  rewrite H, len_snoc.
  replace (Z.to_nat (len (Memory.history m) + 1 - 2 * Memory.max_history m))
    with 1%nat by lia.
  reflexivity.
Qed.

Lemma last_items_all {A : Type} (n : nat) (l : list A) :
  (List.length l <= n)%nat -> last_items n l = l.
Proof.
  intros H. unfold last_items.
  replace (List.length l - n)%nat with 0%nat by lia. reflexivity.
Qed.

Lemma last_items_length {A : Type} (n : nat) (l : list A) :
  List.length (last_items n l) = Nat.min n (List.length l).
Proof. unfold last_items. rewrite length_skipn. lia. Qed.

(** The last [n] items after one more item depend only on the last [n]
    items before it. *)
Lemma last_items_snoc {A : Type} (n : nat) (l : list A) (x : A) :
  last_items n (last_items n l ++ [x]) = last_items n (l ++ [x]).
Proof.
  destruct (Nat.le_gt_cases (List.length l) n) as [Hle|Hgt].
  - rewrite (last_items_all n l Hle). reflexivity.
  - unfold last_items at 1 3. rewrite !length_app, last_items_length.
    cbn [List.length].
    replace (Nat.min n (List.length l) + 1 - n)%nat with 1%nat by lia.
    replace (List.length l + 1 - n)%nat
      with (1 + (List.length l - n))%nat by lia.
    rewrite <- skipn_skipn, (skipn_app (List.length l - n) l [x]).
    replace (List.length l - n - List.length l)%nat with 0%nat by lia.
    reflexivity.
Qed.

(** One exchange on a history of whole turns, under the cap of ten:
    the turn is added at the end and, when ten turns are already held,
    the oldest turn leaves. *)
Lemma turns_history_exchange (m : Memory.ConversationMemory)
    (turns : list (str * str)) (u a : str) :
  Memory.max_history m = 10 ->
  Memory.history m = turns_history turns ->
  len turns <= 10 ->
  let m' := Memory.add_message (Memory.add_message m (lit "user") u)
              (lit "assistant") a in
  Memory.max_history m' = 10 /\
  Memory.user_level m' = Memory.user_level m /\
  Memory.history m' = turns_history (last_items 10 (turns ++ [(u, a)])).
Proof.
  intros Hcap Hhist Hlen. cbv zeta.
  set (m1 := Memory.add_message m (lit "user") u).
  destruct (add_message_frame m (lit "user") u) as [Hc1 Hl1].
  fold m1 in Hc1, Hl1.
  destruct (add_message_frame m1 (lit "assistant") a) as [Hc2 Hl2].
  split; [congruence|]. split; [congruence|].
  pose proof (turns_history_len turns) as HT.
  destruct (Z.eq_dec (len turns) 10) as [E10|N10].
  - destruct turns as [|t0 rest]; [discriminate|].
    assert (Hlast : last_items 10 ((t0 :: rest) ++ [(u, a)])
                    = rest ++ [(u, a)]).
    { unfold last_items. rewrite length_app.
      replace (List.length (t0 :: rest) + List.length [(u, a)] - 10)%nat
        with 1%nat by (unfold len in E10; cbn [List.length] in *; lia).
      reflexivity. }
    rewrite Hlast.
    assert (H1 : Memory.history m1
                 = Memory.mk_entry (lit "assistant") (snd t0)
                   :: turns_history rest
                      ++ [Memory.mk_entry (lit "user") u]).
    { unfold m1. rewrite add_message_full; [|lia|rewrite Hhist; lia].
      rewrite Hhist. reflexivity. }
    assert (L1 : len (Memory.history m1) = 20).
    { rewrite H1. pose proof (turns_history_len rest) as HR.
      unfold len in *. cbn [List.length] in *. rewrite length_app.
      cbn [List.length]. lia. }
    rewrite add_message_full; [|lia|lia]. rewrite H1.
    cbn [app skipn]. rewrite turns_history_app, <- app_assoc. reflexivity.
  - rewrite last_items_all
      by (rewrite length_app; cbn [List.length]; unfold len in *; lia).
    assert (H1 : Memory.history m1
                 = turns_history turns ++ [Memory.mk_entry (lit "user") u]).
    { unfold m1. rewrite add_message_room; [|lia|rewrite Hhist; lia].
      rewrite Hhist. reflexivity. }
    rewrite add_message_room; [|lia|rewrite H1, len_snoc; lia].
    rewrite H1, turns_history_app, <- app_assoc. reflexivity.
Qed.

Lemma session_invariant_init (url model : str) (tokens : Z) (temp : Q)
    (now : Z) :
  session_invariant [] (init url model tokens temp now).
Proof.
  unfold session_invariant. cbn. repeat split; try lia.
  left; reflexivity.
Qed.

(** A chat: the exchange joins the exchanges, whether the call returned
    or raised. *)
Lemma session_invariant_chat (xs : list (str * str)) (e : BhashaVoxEngine)
    (post : server) (now : Z) (u : str) :
  session_invariant xs e ->
  session_invariant (xs ++ [(u, stored_reply post e u)])
    (snd (chat post e now u)).
Proof.
  intros [Hcap [Hhist [Htot [Hcm [Hle [Hcat Hlvl]]]]]].
  destruct (chat_state post e now u) as [reply [logged [Hcall Hstate]]].
  rewrite Hstate. unfold stored_reply. rewrite Hcall.
  destruct (turns_history_exchange (memory e) (last_items 10 xs) u
              (display reply) Hcap Hhist) as [Hcap' [Hlvl' Hhist']].
  { unfold len. rewrite last_items_length. lia. }
  rewrite last_items_snoc in Hhist'.
  unfold session_invariant. cbn [memory analytics set_analytics set_memory].
  split; [exact Hcap'|]. split; [exact Hhist'|].
  rewrite Hlvl', len_snoc.
  pose proof (len_nonneg (Analytics.mistakes (analytics e))) as Hm0.
  destruct logged;
    cbn [Analytics.log_mistake Analytics.log_message
         Analytics.total_messages Analytics.corrections_made
         Analytics.mistakes Analytics.mistake_categories].
  - rewrite len_snoc. repeat split; try lia; try exact Hlvl.
    rewrite Hcat.
    destruct (Z.eqb_spec (Analytics.corrections_made (analytics e)) 0)
      as [E0|N0];
      destruct (Z.eqb_spec
                  (Analytics.corrections_made (analytics e) + 1) 0);
      try lia.
    + rewrite E0. reflexivity.
    + cbn [Analytics.dict_incr]. rewrite str_eqb_refl. reflexivity.
  - repeat split; try lia; assumption.
Qed.

(** An assessment: only the stored level can change, and only to one of
    the three names. *)
Lemma session_invariant_assess (xs : list (str * str)) (e : BhashaVoxEngine)
    (post : server) (u : str) :
  session_invariant xs e ->
  exists e' : BhashaVoxEngine,
    step e (AssessLevel post u) = Returns e' /\ session_invariant xs e'.
Proof.
  intros Hinv. cbn [step].
  destruct (call_ollama_returns post e
              (Prompts.create_level_assessment_prompt u) (Some (3 # 10)))
    as [raw Hcall].
  unfold assess_level. rewrite Hcall. cbn [bind].
  destruct raw as [text | [printed not_iterable no_strip
                          | printed members no_strip not_a_string]];
    cbn [strip_value bind];
    [|exists e; split; [reflexivity | exact Hinv] ..].
  rewrite assess_loop_strip. eexists. split; [reflexivity|].
  destruct Hinv as [Hcap [Hhist [Htot [Hcm [Hle [Hcat Hlvl]]]]]].
  destruct (first_level_named text) as [name|] eqn:En; cbn [snd].
  - unfold session_invariant.
    cbn [memory analytics set_memory Memory.set_user_level
         Memory.max_history Memory.history Memory.user_level].
    repeat split; try assumption.
    right. exists name. split; [|reflexivity].
    unfold first_level_named in En. apply find_some in En. apply En.
  - unfold session_invariant. repeat split; assumption.
Qed.

Lemma session_invariant_step (xs : list (str * str)) (e : BhashaVoxEngine)
    (c : call) :
  session_invariant xs e ->
  step e c = Returns (fst (exchange_step (e, xs) c)) /\
  session_invariant (snd (exchange_step (e, xs) c))
    (fst (exchange_step (e, xs) c)).
Proof.
  intros Hinv. unfold exchange_step. cbn [fst snd].
  destruct c as [post now u|post u|now].
  - cbn [step]. split; [reflexivity|].
    apply session_invariant_chat, Hinv.
  - destruct (session_invariant_assess xs e post u Hinv) as [e' [Hs Hi]].
    rewrite Hs. split; [reflexivity | exact Hi].
  - cbn [step]. split; [reflexivity|].
    destruct Hinv as [Hcap [Hhist [Htot [Hcm [Hle [Hcat Hlvl]]]]]].
    unfold session_invariant.
    cbn [reset_session snd set_analytics set_memory memory analytics
         Memory.clear_history Memory.set_history Memory.max_history
         Memory.history Memory.user_level Analytics.reset_session
         Analytics.total_messages Analytics.corrections_made
         Analytics.mistakes Analytics.mistake_categories].
    repeat split; try assumption; try lia; try (unfold len; cbn; lia).
Qed.

Lemma session_invariant_run (calls : list call) (xs : list (str * str))
    (e : BhashaVoxEngine) :
  session_invariant xs e ->
  run e calls = Returns (fst (fold_left exchange_step calls (e, xs))) /\
  session_invariant (snd (fold_left exchange_step calls (e, xs)))
    (fst (fold_left exchange_step calls (e, xs))).
Proof.
  revert xs e. induction calls as [|c calls IH]; intros xs e Hinv.
  - split; [reflexivity | exact Hinv].
  - destruct (session_invariant_step xs e c Hinv) as [Hstep Hinv1].
    cbn [run fold_left]. rewrite Hstep. cbn [bind].
    destruct (exchange_step (e, xs) c) as [e1 xs1]. apply IH, Hinv1.
Qed.

(** The exchanges kept along a sequence are as many as the chats since
    the last reset. *)
Lemma exchanges_count (calls : list call) (e : BhashaVoxEngine)
    (xs : list (str * str)) :
  len (snd (fold_left exchange_step calls (e, xs)))
  = fold_left count_chat calls (len xs).
Proof.
  revert e xs. induction calls as [|c calls IH]; intros e xs; [reflexivity|].
  cbn [fold_left].
  destruct (exchange_step (e, xs) c) as [e1 xs1] eqn:E.
  rewrite IH. f_equal.
  unfold exchange_step in E. injection E as _ <-. cbn [fst snd].
  destruct c; cbn [count_chat]; [apply len_snoc | reflexivity | reflexivity].
Qed.

End SessionFacts.

Section SessionTheorems.
Import Py Engine Session.

Variables (url model : str) (tokens : Z) (temp : Q) (start : Z).

Lemma run_from_init (calls : list call) :
  exists e' : BhashaVoxEngine,
    run (init url model tokens temp start) calls = Returns e' /\
    session_invariant (exchanges (init url model tokens temp start) calls) e'
    /\ len (exchanges (init url model tokens temp start) calls)
       = chats_since_reset calls.
Proof.
  destruct (session_invariant_run calls []
              (init url model tokens temp start)
              (session_invariant_init url model tokens temp start))
    as [Hrun Hinv].
  eexists. split; [exact Hrun|]. split; [exact Hinv|].
  apply (exchanges_count calls _ []).
Qed.

(** After any sequence of [chat], [assess_level] and [reset_session]
    calls on a new engine, calls that raised included, the statistics
    can be read: [total_messages] is the number of chats since the last
    reset, [corrections_made] is at most that number, and [accuracy_rate]
    lies between 0 and 100: the engine logs at most one mistake per
    message. *)
Theorem session_accuracy_in_range (calls : list call) (later : Z) :
  exists (e' : BhashaVoxEngine) (stats : Stats.t),
    run (init url model tokens temp start) calls = Returns e' /\
    get_stats e' later = Returns stats /\
    Analytics.Summary.total_messages (Stats.summary stats)
    = chats_since_reset calls /\
    0 <= Analytics.Summary.corrections_made (Stats.summary stats)
      <= Analytics.Summary.total_messages (Stats.summary stats) /\
    (0 <= Analytics.Summary.accuracy_rate (Stats.summary stats) /\
     Analytics.Summary.accuracy_rate (Stats.summary stats) <= 100)%Q.
Proof.
  destruct (run_from_init calls)
    as [e' [Hrun [[_ [_ [Htot [Hcm [Hle _]]]]] Hcount]]].
  pose proof (len_nonneg (exchanges (init url model tokens temp start) calls))
    as Hk.
  destruct (get_accuracy_rate_range (analytics e')) as [q [Hq Hrange]];
    [lia | lia |].
  exists e'. eexists. split; [exact Hrun|].
  unfold get_stats, Analytics.get_session_summary. rewrite Hq. cbn [bind].
  split; [reflexivity|].
  cbn [Stats.summary Analytics.Summary.total_messages
       Analytics.Summary.corrections_made Analytics.Summary.accuracy_rate].
  pose proof (len_nonneg (Analytics.mistakes (analytics e'))).
  repeat split; try lia; apply Hrange.
Qed.

(** The history of an engine holds the last ten exchanges since the
    last reset, all of them while there are fewer: for each, the user's
    message and then the reply as [call_ollama] gave it for the prompt of
    that chat.  So the number of conversation turns, which [get_stats] and
    the chat endpoint report, is the number of chats since the last reset
    only up to ten and stays at ten from then on, while [total_messages]
    counts every chat. *)
Theorem session_turns_stop_at_ten (calls : list call) :
  let e0 := init url model tokens temp start in
  exists e' : BhashaVoxEngine,
    run e0 calls = Returns e' /\
    Memory.history (memory e')
    = turns_history (last_items 10 (exchanges e0 calls)) /\
    len (exchanges e0 calls) = chats_since_reset calls /\
    Memory.get_conversation_count (memory e')
    = Z.min (chats_since_reset calls) 10 /\
    len (Memory.history (memory e'))
    = 2 * Z.min (chats_since_reset calls) 10 /\
    Analytics.total_messages (analytics e') = chats_since_reset calls.
Proof.
  cbv zeta.
  destruct (run_from_init calls)
    as [e' [Hrun [[_ [Hhist [Htot _]]] Hcount]]].
  exists e'. split; [exact Hrun|]. split; [exact Hhist|].
  split; [exact Hcount|].
  assert (Hlast : len (last_items 10
                         (exchanges (init url model tokens temp start) calls))
                  = Z.min (chats_since_reset calls) 10).
  { rewrite <- Hcount. unfold len. rewrite last_items_length. lia. }
  split; [rewrite (turns_history_count _ _ Hhist); exact Hlast|].
  split; [rewrite Hhist, turns_history_len; lia | lia].
Qed.

(** Through the engine every mistake is logged under ["grammar"]: the
    dict of categories is empty or holds that one category with
    [corrections_made] as its count, and so does the histogram of
    [get_stats]. *)
Theorem session_only_grammar (calls : list call) (later : Z) :
  exists (e' : BhashaVoxEngine) (stats : Stats.t),
    run (init url model tokens temp start) calls = Returns e' /\
    get_stats e' later = Returns stats /\
    let n := Analytics.corrections_made (analytics e') in
    Analytics.mistake_categories (analytics e')
    = (if n =? 0 then [] else [(lit "grammar", n)]) /\
    Analytics.Summary.common_mistakes (Stats.summary stats)
    = (if n =? 0 then [] else [(lit "grammar", n)]) /\
    Analytics.Summary.total_mistake_types (Stats.summary stats)
    = (if n =? 0 then 0 else 1).
Proof.
  destruct (run_from_init calls)
    as [e' [Hrun [[_ [_ [Htot [Hcm [Hle [Hcat _]]]]]] _]]].
  pose proof (len_nonneg (exchanges (init url model tokens temp start) calls))
    as Hk.
  destruct (get_accuracy_rate_range (analytics e')) as [q [Hq _]];
    [lia | lia |].
  exists e'. eexists. split; [exact Hrun|].
  unfold get_stats, Analytics.get_session_summary. rewrite Hq. cbn [bind].
  split; [reflexivity|]. cbv zeta.
  cbn [Stats.summary Analytics.Summary.common_mistakes
       Analytics.Summary.total_mistake_types].
  split; [exact Hcat|].
  unfold Analytics.get_common_mistakes. rewrite Hcat.
  destruct (Analytics.corrections_made (analytics e') =? 0);
    split; reflexivity.
Qed.

(** The stored user level of an engine is always unset or one of
    ["Beginner"], ["Intermediate"] and ["Advanced"], whatever the model
    answered. *)
Theorem session_level_is_valid (calls : list call) :
  exists e' : BhashaVoxEngine,
    run (init url model tokens temp start) calls = Returns e' /\
    (Memory.get_user_level (memory e') = None \/
     Memory.get_user_level (memory e') = Some (lit "Beginner") \/
     Memory.get_user_level (memory e') = Some (lit "Intermediate") \/
     Memory.get_user_level (memory e') = Some (lit "Advanced")).
Proof.
  destruct (run_from_init calls)
    as [e' [Hrun [[_ [_ [_ [_ [_ [_ Hlvl]]]]]] _]]].
  exists e'. split; [exact Hrun|]. unfold Memory.get_user_level.
  destruct Hlvl as [H | [name [Hin H]]]; [left; exact H|].
  right. rewrite H. cbn [valid_levels In] in Hin.
  destruct Hin as [<- | [<- | [<- | []]]]; auto.
Qed.

End SessionTheorems.

(** ** The prompt of a chat and the chat endpoint *)

Section PromptFacts.
Import Py Engine.

Lemma get_history_string_flat_map (m : Memory.ConversationMemory) :
  Memory.get_history_string m
  = flat_map (fun e => Memory.rendered_turn e ++ newline) (Memory.history m).
Proof.
  unfold Memory.get_history_string.
  destruct (Memory.history m) as [|e h] eqn:E; [reflexivity|].
  rewrite render_loop_acc. reflexivity.
Qed.

(** With a cap of at least one turn, the prompt that [chat] sends always
    has the section of the previous conversation, and that section ends
    with the line of the message being sent: the prompt states the user's
    message twice, as the last line of the history and as the line to
    answer. *)
Theorem chat_prompt_repeats_message (e : BhashaVoxEngine)
    (user_message : str) :
  1 <= Memory.max_history (memory e) ->
  exists earlier : str,
    Memory.get_history_string
      (Memory.add_message (memory e) (lit "user") user_message)
    = earlier ++ lit "User: " ++ user_message ++ newline /\
    chat_prompt e user_message
    = Prompts.SYSTEM_PROMPT ++ newline ++ newline
      ++ lit "Previous conversation:" ++ newline
      ++ (earlier ++ lit "User: " ++ user_message ++ newline)
      ++ newline ++ newline
      ++ lit "User: " ++ user_message ++ newline ++ newline
      ++ lit "BhashaVox AI:".
Proof.
  intros Hcap.
  destruct (add_message_keeps_new (memory e) (lit "user") user_message Hcap)
    as [older Hh].
  exists (flat_map (fun e => Memory.rendered_turn e ++ newline) older).
  assert (Hs : Memory.get_history_string
                 (Memory.add_message (memory e) (lit "user") user_message)
               = flat_map (fun e => Memory.rendered_turn e ++ newline) older
                 ++ lit "User: " ++ user_message ++ newline).
  { rewrite get_history_string_flat_map, Hh, flat_map_app.
    cbn [flat_map]. rewrite app_nil_r. reflexivity. }
  split; [exact Hs|].
  unfold chat_prompt, Prompts.create_conversation_prompt. rewrite Hs.
  destruct (flat_map (fun e => Memory.rendered_turn e ++ newline) older
            ++ lit "User: " ++ user_message ++ newline) as [|c s] eqn:E.
  - exfalso. apply app_eq_nil in E. destruct E as [_ E]. discriminate.
  - rewrite <- !app_assoc. reflexivity.
Qed.

Lemma chat_prompt_repeats_message_witness :
  let e := init (lit "http://localhost:11434") (lit "phi3:mini")
             500 (7 # 10) 0 in
  exists earlier : str,
    Memory.get_history_string
      (Memory.add_message (memory e) (lit "user") (lit "hi"))
    = earlier ++ lit "User: " ++ lit "hi" ++ newline.
Proof.
  cbv zeta.
  destruct (chat_prompt_repeats_message
              (init (lit "http://localhost:11434") (lit "phi3:mini")
                 500 (7 # 10) 0) (lit "hi")) as [earlier [H _]].
  - vm_compute. discriminate.
  - exists earlier. exact H.
Defined.

(** [POST /chat] answers a message that is empty or all white space with
    status 400 and does not touch the engine.  For every other message the
    engine's chat runs.  When [call_ollama] gave a text (the text of the
    server's response, or its error description when the request failed),
    the endpoint answers with that text, the turn count of the history,
    and a [corrections_made] flag that is set exactly when this call added
    one to the engine's correction counter.  When a response of status 200
    carried something else than a string, the endpoint answers with status
    500, and the engine has counted the message all the same. *)
Theorem chat_endpoint_answers (post : server) (engine : BhashaVoxEngine)
    (now : Z) (message : str) :
  match strip message with
  | [] =>
      Api.chat post engine now message
      = (Api.HTTPException 400 (lit "Message cannot be empty"), engine)
  | _ :: _ =>
      let outcome :=
        post (generate_request engine (chat_prompt engine message) None) in
      let engine' := snd (chat post engine now message) in
      exists generated : value,
        (forall v : value, answers outcome v -> generated = v) /\
        (failed outcome ->
         exists reply : str,
           generated = Text reply /\ startswith (lit "Error: ") reply = true)
        /\
        Analytics.total_messages (analytics engine')
        = Analytics.total_messages (analytics engine) + 1 /\
        match generated with
        | Text reply =>
            Api.chat post engine now message
            = (Api.Response
                 (Api.mk_chat_response reply (correction_detected reply)
                    (Memory.get_conversation_count (memory engine'))),
               engine') /\
            Analytics.corrections_made (analytics engine')
            = Analytics.corrections_made (analytics engine)
              + (if correction_detected reply then 1 else 0)
        | NotText _ =>
            exists detail : str,
              Api.chat post engine now message
              = (Api.HTTPException 500
                   (lit "Error processing message: " ++ detail),
                 engine')
        end
  end.
Proof.
  unfold Api.chat. destruct (strip message) as [|c s]; [reflexivity|].
  cbv zeta.
  destruct (call_ollama_returns post engine (chat_prompt engine message) None)
    as [generated Hcall].
  exists generated.
  split.
  { intros v Hv. apply call_ollama_answers in Hv. congruence. }
  split.
  { intros Hf. apply call_ollama_failed in Hf.
    destruct Hf as [reply [H Herr]].
    exists reply. split; [congruence | exact Herr]. }
  destruct generated as [reply | [printed not_iterable no_strip
                                 | printed members no_strip not_a_string]].
  - rewrite (chat_text post engine now message _ Hcall).
    cbn [fst snd bind Api.chat_response analytics memory set_analytics
         set_memory].
    destruct (correction_detected reply);
      cbn [Analytics.log_mistake Analytics.log_message
           Analytics.total_messages Analytics.corrections_made];
      repeat split; lia.
  - rewrite (chat_unfold post engine now message _ Hcall).
    cbn [correction_detected_in is_in bind snd analytics set_analytics
         Analytics.log_message Analytics.total_messages].
    split; [reflexivity|]. eexists. reflexivity.
  - rewrite (chat_unfold post engine now message _ Hcall).
    unfold correction_detected_in, is_in, bind.
    destruct (members checkmark);
      [|destruct (members (lit "Corrected:"))];
      cbn [snd analytics set_analytics Analytics.log_mistake
           Analytics.log_message Analytics.total_messages
           Api.chat_response bind];
      (split; [reflexivity|]); eexists; reflexivity.
Qed.

Lemma chat_endpoint_answers_witness :
  let e := init (lit "http://localhost:11434") (lit "phi3:mini")
             500 (7 # 10) 0 in
  let post : server :=
    fun _ => Returns (mk_response 200 (Returns (NotText json_null))) in
  exists detail : str,
    Api.chat post e 0 (lit "hello")
    = (Api.HTTPException 500 (lit "Error processing message: " ++ detail),
       snd (chat post e 0 (lit "hello"))).
Proof.
  cbv zeta.
  pose proof (chat_endpoint_answers
                (fun _ => Returns (mk_response 200
                                     (Returns (NotText json_null))))
                (init (lit "http://localhost:11434") (lit "phi3:mini")
                   500 (7 # 10) 0) 0 (lit "hello")) as H.
  change (strip (lit "hello")) with [104; 101; 108; 108; 111]%N in H.
  cbv beta iota zeta in H.
  destruct H as [generated [Hans [_ [_ H]]]].
  rewrite (Hans (NotText json_null)) in H.
  - exact H.
  - eexists. repeat split; reflexivity.
Defined.

End PromptFacts.

(** ** Text cleaning for speech *)

Section VoiceFacts.
Import Py Voice.

Example replace_is_not_overlapping :
  replace (lit "**") (lit "-") (lit "a***b****") = lit "a-*b--".
Proof. reflexivity. Qed.

Example clean_correction_reply :
  _clean_text_for_speech
    (checkmark ++ lit " **Corrected:** I went home. ")
  = lit "Corrected:  Corrected: I went home.".
Proof. reflexivity. Qed.

Lemma replace_from_In (old new : str) (x : N) (s : str) (skip : nat) :
  In x (replace_from old new skip s) -> In x s \/ In x new.
Proof.
  revert skip. induction s as [|c s IH]; intros skip; cbn [replace_from].
  - intros [].
  - destruct skip as [|k].
    + destruct (startswith old (c :: s)).
      * intros H. apply in_app_or in H. destruct H as [H|H]; [auto|].
        apply IH in H. destruct H; [left; right|right]; assumption.
      * intros [<- | H]; [left; left; reflexivity|].
        apply IH in H. destruct H; [left; right|right]; assumption.
    + intros H. apply IH in H. destruct H; [left; right|right]; assumption.
Qed.

(** A replacement brings in no code point that is neither in the text
    nor in the replacement string. *)
Lemma replace_In (old new : str) (x : N) (s : str) :
  In x (replace old new s) -> In x s \/ In x new.
Proof.
  unfold replace. destruct old as [|o old]; [|apply replace_from_In].
  intros H. apply in_app_or in H. destruct H as [H|H]; [auto|].
  apply in_flat_map in H. destruct H as [c [Hc [<- | H]]]; auto.
Qed.

Lemma replace_keeps_absent (old new : str) (x : N) (s : str) :
  ~ In x s -> ~ In x new -> ~ In x (replace old new s).
Proof. intros Hs Hn H. apply replace_In in H. tauto. Qed.

(** Replacing a code point by a string without it removes it. *)
Lemma replace_removes (c : N) (new s : str) :
  ~ In c new -> ~ In c (replace [c] new s).
Proof.
  intros Hn. unfold replace. induction s as [|x s IH];
    cbn [replace_from startswith List.length Nat.sub]; [intros []|].
  destruct (N.eqb_spec c x) as [->|Hne]; cbn [andb].
  - intros H. apply in_app_or in H. tauto.
  - intros [H | H]; [congruence | tauto].
Qed.

(** A text without the first code point of [old] has no occurrence of
    [old] and is left as it is. *)
Lemma replace_absent (o : N) (old new s : str) :
  ~ In o s -> replace (o :: old) new s = s.
Proof.
  unfold replace. induction s as [|x s IH]; intros Hs;
    cbn [replace_from startswith]; [reflexivity|].
  destruct (N.eqb_spec o x) as [->|Hne].
  - exfalso. apply Hs. left; reflexivity.
  - cbn [andb]. rewrite IH; [reflexivity|].
    intros H. apply Hs. right; exact H.
Qed.

Lemma lstrip_In (x : N) (s : str) : In x (lstrip s) -> In x s.
Proof.
  induction s as [|c s IH]; cbn [lstrip]; [auto|].
  destruct (is_space c); [intros H; right; apply IH, H | auto].
Qed.

Lemma strip_In (x : N) (s : str) : In x (strip s) -> In x s.
Proof.
  unfold strip, rstrip. intros H. apply in_rev in H. apply lstrip_In in H.
  apply in_rev in H. apply lstrip_In, H.
Qed.

Lemma lstrip_clean (s : str) :
  match s with [] => True | c :: _ => is_space c = false end ->
  lstrip s = s.
Proof. destruct s as [|c s]; [reflexivity|]. cbn. intros ->. reflexivity. Qed.

Lemma lstrip_head (s : str) :
  match lstrip s with [] => True | c :: _ => is_space c = false end.
Proof.
  induction s as [|c s IH]; cbn [lstrip]; [exact I|].
  destruct (is_space c) eqn:E; [exact IH | exact E].
Qed.

Lemma lstrip_snoc (s : str) (c : N) :
  is_space c = false -> lstrip (s ++ [c]) = lstrip s ++ [c].
Proof.
  intros Hc. induction s as [|x s IH]; cbn [app lstrip].
  - rewrite Hc. reflexivity.
  - destruct (is_space x); [exact IH | reflexivity].
Qed.

Lemma rstrip_head (s : str) :
  match s with [] => True | c :: _ => is_space c = false end ->
  match rstrip s with [] => True | c :: _ => is_space c = false end.
Proof.
  destruct s as [|c s]; [intros _; exact I|]. intros Hc.
  unfold rstrip. cbn [rev]. rewrite lstrip_snoc by exact Hc.
  rewrite rev_app_distr. cbn [rev app]. exact Hc.
Qed.

Lemma rstrip_idempotent (s : str) : rstrip (rstrip s) = rstrip s.
Proof.
  unfold rstrip. rewrite rev_involutive.
  rewrite (lstrip_clean (lstrip (rev s))); [reflexivity|]. apply lstrip_head.
Qed.

Lemma strip_idempotent (s : str) : strip (strip s) = strip s.
Proof.
  unfold strip.
  rewrite (lstrip_clean (rstrip (lstrip s)))
    by (apply rstrip_head, lstrip_head).
  apply rstrip_idempotent.
Qed.

(** The seven replacements and the two more for the stars, spelled
    out. *)
Lemma clean_text_unfold (text : str) :
  _clean_text_for_speech text
  = strip
      (replace (lit "*") []
         (replace (lit "**") []
            (replace (lit "**") []
               (replace waving_hand []
                  (replace sparkles []
                     (replace direct_hit []
                        (replace speech_balloon []
                           (replace light_bulb (lit "Tip: ")
                              (replace checkmark (lit "Corrected: ")
                                 text))))))))).
Proof. reflexivity. Qed.

Lemma clean_text_plain (text : str) :
  (forall c : N, In c removed_code_points -> ~ In c text) ->
  strip text = text ->
  _clean_text_for_speech text = text.
Proof.
  intros Hfree Hstrip. rewrite clean_text_unfold.
  unfold checkmark, light_bulb, speech_balloon, direct_hit, sparkles,
    waving_hand.
  change (lit "**") with [42%N; 42%N]. change (lit "*") with [42%N].
  repeat rewrite (replace_absent _ _ _ text) by (apply Hfree; cbn; tauto).
  exact Hstrip.
Qed.

Ltac absent_after_replace :=
  repeat first
    [ apply replace_removes; cbn; intuition discriminate
    | apply replace_keeps_absent; [|cbn; intuition discriminate] ].

Lemma clean_text_free (text : str) (c : N) :
  In c removed_code_points -> ~ In c (_clean_text_for_speech text).
Proof.
  intros Hc H. rewrite clean_text_unfold in H. apply strip_In in H.
  revert H.
  unfold checkmark, light_bulb, speech_balloon, direct_hit, sparkles,
    waving_hand.
  change (lit "**") with [42%N; 42%N]. change (lit "*") with [42%N].
  cbn [removed_code_points In] in Hc.
  destruct Hc as [<- | [<- | [<- | [<- | [<- | [<- | [<- | []]]]]]]];
    absent_after_replace.
Qed.

(** Whatever the text, the text handed to the speech engine holds none
    of the six emoji of the table and no star, and every code point of it
    comes from the text or from one of the two replacement strings. *)
Theorem clean_text_code_points (text : str) (c : N) :
  In c (_clean_text_for_speech text) ->
  ~ In c removed_code_points /\
  (In c text \/ In c (lit "Corrected: ") \/ In c (lit "Tip: ")).
Proof.
  intros H. split.
  - intros Hr. exact (clean_text_free text c Hr H).
  - rewrite clean_text_unfold in H. apply strip_In in H.
    repeat match goal with
           | H : In c (replace _ _ _) |- _ =>
               apply replace_In in H; destruct H as [H | H]
           end; auto; contradiction.
Qed.

Lemma clean_text_code_points_witness :
  ~ In 73%N removed_code_points.
Proof.
  apply (clean_text_code_points (lit "**I** went") 73%N).
  vm_compute. tauto.
Defined.

(** The cleaned text has no white space at either end, and cleaning it
    once more changes nothing. *)
Theorem clean_text_idempotent (text : str) :
  strip (_clean_text_for_speech text) = _clean_text_for_speech text /\
  _clean_text_for_speech (_clean_text_for_speech text)
  = _clean_text_for_speech text.
Proof.
  assert (Hs : strip (_clean_text_for_speech text)
               = _clean_text_for_speech text).
  { rewrite clean_text_unfold. apply strip_idempotent. }
  split; [exact Hs|].
  apply clean_text_plain; [|exact Hs].
  intros c Hc. apply clean_text_free, Hc.
Qed.

(** A text without the six emoji and without stars is only stripped of
    the white space at its ends; with none there it goes to the speech
    engine as it is. *)
Theorem clean_text_keeps_plain_text (text : str) :
  (forall c : N, In c removed_code_points -> ~ In c text) ->
  _clean_text_for_speech text = strip text /\
  (strip text = text -> _clean_text_for_speech text = text).
Proof.
  intros Hfree.
  assert (H : _clean_text_for_speech text = strip text).
  { rewrite clean_text_unfold.
    unfold checkmark, light_bulb, speech_balloon, direct_hit, sparkles,
      waving_hand.
    change (lit "**") with [42%N; 42%N]. change (lit "*") with [42%N].
    repeat rewrite (replace_absent _ _ _ text)
      by (apply Hfree; cbn; tauto).
    reflexivity. }
  split; [exact H|]. intros Hs. rewrite H. exact Hs.
Qed.

Lemma clean_text_keeps_plain_text_witness :
  _clean_text_for_speech (lit " I went home. ") = lit "I went home.".
Proof.
  destruct (clean_text_keeps_plain_text (lit " I went home. ")) as [H _].
  - intros c Hc Hin. cbn in Hc, Hin.
    repeat match goal with
           | H : _ \/ _ |- _ => destruct H
           end; subst; try discriminate; try contradiction.
  - rewrite H. reflexivity.
Defined.

End VoiceFacts.

(** ** The assessment endpoint and the temperature argument *)

Section EndpointFacts.
Import Py Engine.

(** [POST /assess-level] answers a message that is empty or all white
    space with status 400 and does not touch the engine.  For every other
    message: when [call_ollama] gave a text (the text of the server's
    response, or its error description when the request failed), the
    endpoint answers one of the three level names; when a response of
    status 200 carried something else than a string, it answers with
    status 500 and the engine is as it was. *)
Theorem assess_level_endpoint_answers (post : server)
    (engine : BhashaVoxEngine) (message : str) :
  match strip message with
  | [] =>
      Api.assess_level post engine message
      = (Api.HTTPException 400 (lit "Message cannot be empty"), engine)
  | _ :: _ =>
      let outcome :=
        post (generate_request engine
                (Prompts.create_level_assessment_prompt message)
                (Some (3 # 10))) in
      exists generated : value,
        (forall v : value, answers outcome v -> generated = v) /\
        (failed outcome ->
         exists reply : str,
           generated = Text reply /\ startswith (lit "Error: ") reply = true)
        /\
        match generated with
        | Text _ =>
            exists (name : str) (engine' : BhashaVoxEngine),
              Api.assess_level post engine message
              = (Api.Response
                   (Api.mk_level_response name
                      (lit "Your English level appears to be: " ++ name)),
                 engine') /\
              (name = lit "Beginner" \/ name = lit "Intermediate"
               \/ name = lit "Advanced")
        | NotText _ =>
            exists detail : str,
              Api.assess_level post engine message
              = (Api.HTTPException 500
                   (lit "Error assessing level: " ++ detail),
                 engine)
        end
  end.
Proof.
  unfold Api.assess_level. destruct (strip message) as [|c s]; [reflexivity|].
  cbv zeta.
  destruct (call_ollama_returns post engine
              (Prompts.create_level_assessment_prompt message)
              (Some (3 # 10))) as [generated Hcall].
  exists generated.
  split.
  { intros v Hv. apply call_ollama_answers in Hv. congruence. }
  split.
  { intros Hf. apply call_ollama_failed in Hf.
    destruct Hf as [reply [H Herr]].
    exists reply. split; [congruence | exact Herr]. }
  unfold assess_level. rewrite Hcall. cbn [bind].
  destruct generated as [raw | [printed not_iterable no_strip
                               | printed members no_strip not_a_string]];
    cbn [strip_value bind str_of_exn];
    [|eexists; reflexivity ..].
  rewrite assess_loop_strip.
  destruct (first_level_named raw) as [name|] eqn:En.
  - exists name. eexists. split; [reflexivity|].
    unfold first_level_named in En. apply find_some in En.
    destruct En as [Hin _]. cbn [valid_levels In] in Hin.
    destruct Hin as [<- | [<- | [<- | []]]]; auto.
  - exists (lit "Intermediate"), engine. split; [reflexivity | auto].
Qed.

Lemma assess_level_endpoint_answers_witness :
  let e := init (lit "http://localhost:11434") (lit "phi3:mini")
             500 (7 # 10) 0 in
  let post : server :=
    fun _ => Returns (mk_response 200 (Returns (NotText json_null))) in
  exists detail : str,
    Api.assess_level post e (lit "hello")
    = (Api.HTTPException 500 (lit "Error assessing level: " ++ detail), e).
Proof.
  cbv zeta.
  pose proof (assess_level_endpoint_answers
                (fun _ => Returns (mk_response 200
                                     (Returns (NotText json_null))))
                (init (lit "http://localhost:11434") (lit "phi3:mini")
                   500 (7 # 10) 0) (lit "hello")) as H.
  change (strip (lit "hello")) with [104; 101; 108; 108; 111]%N in H.
  cbv beta iota zeta in H.
  destruct H as [generated [Hans [_ H]]].
  rewrite (Hans (NotText json_null)) in H.
  - exact H.
  - eexists. repeat split; reflexivity.
Defined.

(** A temperature argument of zero counts as no argument: [call_ollama]
    then posts the request with the engine's default temperature, as it
    does for [None]. *)
Theorem call_ollama_zero_temperature (post : server) (e : BhashaVoxEngine)
    (prompt : str) (t : Q) :
  (t == 0)%Q ->
  options_temperature (generate_request e prompt (Some t)) = temperature e /\
  call_ollama post e prompt (Some t) = call_ollama post e prompt None.
Proof.
  intros Ht. apply Qeq_bool_iff in Ht.
  unfold call_ollama, call_ollama_try, generate_request.
  cbn [options_temperature float_or]. rewrite Ht. split; reflexivity.
Qed.

Lemma call_ollama_zero_temperature_witness :
  let e := init (lit "http://localhost:11434") (lit "phi3:mini")
             500 (7 # 10) 0 in
  options_temperature (generate_request e (lit "p") (Some 0%Q)) = 7 # 10.
Proof.
  cbv zeta.
  destruct (call_ollama_zero_temperature
              (fun _ => Raises (Timeout (lit "t")))
              (init (lit "http://localhost:11434") (lit "phi3:mini")
                 500 (7 # 10) 0) (lit "p") 0%Q) as [H _].
  - reflexivity.
  - exact H.
Defined.

End EndpointFacts.
